(** * RRS terminal: capability cache, transaction executor and mining loop

    A shallow embedding of the capability cache ([capability.ts]), of
    [destroyBlock] ([contract.ts]) and of the miner ([decomposeContainer],
    [mineOnce], [startMining] of [miner.ts]), followed by the properties
    the specification states about them.

    Conventions of the embedding.
    - JavaScript numbers that the program uses are integer counters, budgets
      and timestamps far below 2^53, where double arithmetic is exact; they
      are modelled by [Z]. [bigint] values are [Z] as well.
    - Strings are sequences of code units below 256 (the Latin-1 part of
      UTF-16), modelled by [string].
    - The process heap is one [State]: the module-level [capabilityCache],
      the [MinerContext] object and the chronological [trace] of every call
      that leaves the process (network, chain, file system, callbacks).
    - The answers of the outside world (clock readings, random draws, HTTP and
      chain responses) for one loop iteration are an [IterEnv].
    - [console.log], [logToFile] (which swallows its own errors) and
      [renderDashboard] only print; they are not part of the model. *)

From Stdlib Require Import ZArith List String Ascii Bool Lia Arith.
Import ListNotations.
Local Open Scope string_scope.
Local Open Scope Z_scope.

(* ===================================================================== *)
(** ** JavaScript string primitives used by the program *)
(* ===================================================================== *)

Module JS.

(** Code units that [String.prototype.toLowerCase] changes in the Latin-1
    range: A-Z and the accented capitals 0xC0-0xDE except the
    multiplication sign 0xD7. *)
Definition isUpper (c : ascii) : bool :=
  let n := nat_of_ascii c in
  (((65 <=? n) && (n <=? 90)) ||
   ((192 <=? n) && (n <=? 222) && negb (n =? 215)))%nat.

Definition lowerChar (c : ascii) : ascii :=
  if isUpper c then ascii_of_nat (nat_of_ascii c + 32) else c.

Fixpoint toLowerCase (s : string) : string :=
  match s with
  | EmptyString => EmptyString
  | String c s' => String (lowerChar c) (toLowerCase s')
  end.

(** [s.includes(needle)] *)
Fixpoint includes (s needle : string) : bool :=
  String.prefix needle s ||
  match s with
  | EmptyString => false
  | String _ s' => includes s' needle
  end.

(** [s.substring(0, n)] *)
Definition substring0 (n : nat) (s : string) : string :=
  String.substring 0 n s.

(** [o || d] on an optional string: [undefined] and the empty string are
    both falsy. *)
Definition orDefault (o : option string) (d : string) : string :=
  match o with
  | None => d
  | Some EmptyString => d
  | Some s => s
  end.

(** [o?.toLowerCase()] or else the empty string *)
Definition lowerOrEmpty (o : option string) : string :=
  match o with
  | None => EmptyString
  | Some s => toLowerCase s
  end.

(** Truthiness of an optional boolean field. *)
Definition truthy (o : option bool) : bool :=
  match o with
  | Some true => true
  | _ => false
  end.

(** [a % b] on numbers: the remainder takes the sign of the dividend. *)
Definition rem (a b : Z) : Z := Z.rem a b.

(** [Math.floor(a / b)] for integral [a] and positive [b]. *)
Definition floorDiv (a b : Z) : Z := Z.div a b.

End JS.

(* ===================================================================== *)
(** ** The regular expression of [destroyBlock]

    The pattern is the literal text reverted with reason, then one or more
    separators (colon or white space), an optional double quote, a group of
    one or more code units other than the double quote, and an optional
    double quote; the flag is i. [String.prototype.match] runs it with the
    leftmost start, greedy quantifiers and backtracking. The result is
    capture group 1. *)
(* ===================================================================== *)

Module RevertRegex.

Definition quote : ascii := ascii_of_nat 34.

Definition isQuote (c : ascii) : bool := Ascii.eqb c quote.

(** The class [[:\s]]: colon and the white space of the Latin-1 range. *)
Definition isSep (c : ascii) : bool :=
  let n := nat_of_ascii c in
  ((n =? 58) || ((9 <=? n) && (n <=? 13)) || (n =? 32) || (n =? 160))%nat.

(** Case-insensitive comparison of an input code unit with a pattern
    character. The pattern is ASCII, and canonicalization never maps a
    code unit above 127 to one below, so only ASCII letters fold. *)
Definition asciiLower (c : ascii) : ascii :=
  let n := nat_of_ascii c in
  if ((65 <=? n) && (n <=? 90))%nat then ascii_of_nat (n + 32) else c.

Definition eqChar_i (p c : ascii) : bool :=
  Ascii.eqb (asciiLower p) (asciiLower c).

(** Strip the literal [pat] from the front of [s], ignoring case. *)
Fixpoint stripLiteral (pat s : string) : option string :=
  match pat, s with
  | EmptyString, _ => Some s
  | String _ _, EmptyString => None
  | String p pat', String c s' =>
      if eqChar_i p c then stripLiteral pat' s' else None
  end.

(** Longest prefix of [s] whose code units satisfy [f], and the rest. *)
Fixpoint span (f : ascii -> bool) (s : string) : string * string :=
  match s with
  | EmptyString => (EmptyString, EmptyString)
  | String c s' =>
      if f c then let '(a, b) := span f s' in (String c a, b)
      else (EmptyString, s)
  end.

Fixpoint lastChar (s : string) : string :=
  match s with
  | EmptyString => EmptyString
  | String c EmptyString => s
  | String _ s' => lastChar s'
  end.

Definition notQuote (c : ascii) : bool := negb (isQuote c).

(** What remains to be matched after the literal. The separator class
    first takes the whole run of separators. If the group cannot
    match behind it, the run gives back its last code unit, which the
    group then takes alone (it is followed by a quote or by the end). *)
Definition matchTail (s : string) : option string :=
  let '(run, after) := span isSep s in
  let giveBack :=
    if (2 <=? String.length run)%nat then Some (lastChar run) else None in
  match run with
  | EmptyString => None
  | String _ _ =>
      match after with
      | EmptyString => giveBack
      | String c after' =>
          if isQuote c then
            match fst (span notQuote after') with
            | EmptyString => giveBack
            | g => Some g
            end
          else Some (fst (span notQuote after))
      end
  end.

Definition matchAt (s : string) : option string :=
  match stripLiteral "reverted with reason" s with
  | Some rest => matchTail rest
  | None => None
  end.

(** [errorMessage.match(re)]: [Some reason] is [revertMatch[1]]. *)
Fixpoint matchReason (s : string) : option string :=
  match matchAt s with
  | Some g => Some g
  | None =>
      match s with
      | EmptyString => None
      | String _ s' => matchReason s'
      end
  end.

End RevertRegex.

(* ===================================================================== *)
(** ** Data model ([types.ts], [capability.ts], [contract.ts], [miner.ts]) *)
(* ===================================================================== *)

Record Capability := mkCapability {
  wallet : string;
  allowedModes : Z;
  nonce : Z;
  issuedAt : Z;
  expiresAt : Z;
  budget : Z
}.

Record CapabilityBundle := mkBundle {
  capability : Capability;
  signature : string
}.

Record CachedCapability := mkCached {
  bundle : CapabilityBundle;
  remainingBudget : Z;
  fetchedAt : Z
}.

Definition CAP_MODE_MINE : Z := 1.
Definition CONTAINERS_PER_LAYER : Z := 1572864.
Definition TILES_PER_CONTAINER : Z := 1024.

Record DestroyResult := mkResult {
  success : bool;
  txHash : option string;
  error : option string;
  alreadyDestroyed : option bool
}.

Record LicenseStatus := mkLicense {
  tier : Z;
  level : Z;
  lsMaxBattery : Z;
  lsCurrentBattery : Z;
  totalBlocksDestroyed : Z
}.

Record MiningStats := mkStats {
  blocksDestroyed : Z;
  blocksAlreadyDestroyed : Z;
  errors : Z;
  startTime : Z;
  capabilityRefreshes : Z
}.

(** Which of the optional callbacks are registered. *)
Record MinerCallbacks := mkCallbacks {
  onBlockDestroyed : bool;
  onBlockAlreadyDestroyed : bool;
  onError : bool;
  onCapabilityRefresh : bool;
  onStats : bool;
  onBatteryDepleted : bool
}.

Inductive Cell := GRID_EMPTY | GRID_MINING | GRID_SUCCESS | GRID_FAIL | GRID_SKIP.

Record MinerContext := mkCtx {
  droneId : Z;                 (* ctx.config.droneId *)
  accountAddress : string;     (* ctx.client.account.address *)
  stats : MiningStats;
  running : bool;
  callbacks : MinerCallbacks;
  feePerBlock : Z;
  grid : list Cell;
  gridIndex : Z;
  lastBalance : Z;
  lastCubeBalance : Z;
  lastUnprocessedCube : Z;
  currentContainer : Z;
  currentBlock : Z;
  ownerAddress : string;
  lastError : string;
  currentBattery : Z;
  maxBattery : Z;
  lastBatteryRefresh : Z
}.

(** A thrown value: an [Error] with its [message], or anything else with
    its [String(...)] rendering. *)
Inductive Thrown :=
| ErrorObj (message : string)
| NonError (rendering : string).

(** [e instanceof Error ? e.message : String(e)] *)
Definition messageOf (t : Thrown) : string :=
  match t with
  | ErrorObj m => m
  | NonError r => r
  end.

Inductive Outcome (A : Type) :=
| Return (a : A)
| Throw (t : Thrown).
Arguments Return {A} a.
Arguments Throw {A} t.

Inductive ReceiptStatus := ReceiptSuccess | ReceiptReverted.

(** Everything that leaves the process, in the order it happens. *)
Inductive Event :=
| FetchCapability (wallet : string) (allowedModes : Z) (droneId : Z)
| SimulateContract (licenseId containerId blockId value : Z)
| WriteContract (licenseId containerId blockId value gas : Z)
| WaitForTransactionReceipt (hash : string) (timeout : Z)
| GetLicense (licenseId : Z)
| GetBalance
| GetUnprocessedCubeBalance (wallet : string)
| GetCubeBalance (wallet : string)
| SaveRuntimeState (stats : MiningStats)
| Sleep (ms : Z)
| CbBlockDestroyed (containerId blockId : Z) (txHash : option string)
| CbBlockAlreadyDestroyed (containerId blockId : Z)
| CbError (message : string)
| CbCapabilityRefresh (budget : Z)
| CbStats (stats : MiningStats)
| CbBatteryDepleted.

(** The answers of the outside world during one iteration of the loop. *)
Record IterEnv := mkEnv {
  randomContainer : Z;          (* randomContainer() *)
  randomBlock : Z;              (* randomBlock() *)
  clockNeeds : Z;               (* Date.now() read by needsCapabilityRefresh *)
  clockGet : Z;                 (* Date.now() read by getCapability *)
  clockFetched : Z;             (* Date.now() stored in fetchedAt *)
  fetchResp : Outcome CapabilityBundle;
  simResp : Outcome unit;
  writeResp : Outcome string;
  receiptResp : Outcome ReceiptStatus;
  licenseResp : Outcome LicenseStatus;
  clockBattery : Z;             (* Date.now() stored in lastBatteryRefresh *)
  balanceResp : Outcome Z;
  unprocessedResp : Outcome Z;
  cubeResp : Outcome Z;
  saveResp : Outcome unit
}.

Record State := mkState {
  capabilityCache : option CachedCapability;
  ctx : MinerContext;
  trace : list Event
}.

(** Field updates of the context object and of the statistics. *)
Definition set_stats (v : MiningStats) (c : MinerContext) : MinerContext :=
  mkCtx (droneId c) (accountAddress c) v (running c) (callbacks c)
    (feePerBlock c) (grid c) (gridIndex c) (lastBalance c) (lastCubeBalance c)
    (lastUnprocessedCube c) (currentContainer c) (currentBlock c)
    (ownerAddress c) (lastError c) (currentBattery c) (maxBattery c)
    (lastBatteryRefresh c).

Definition set_running (v : bool) (c : MinerContext) : MinerContext :=
  mkCtx (droneId c) (accountAddress c) (stats c) v (callbacks c)
    (feePerBlock c) (grid c) (gridIndex c) (lastBalance c) (lastCubeBalance c)
    (lastUnprocessedCube c) (currentContainer c) (currentBlock c)
    (ownerAddress c) (lastError c) (currentBattery c) (maxBattery c)
    (lastBatteryRefresh c).

Definition set_grid (v : list Cell) (c : MinerContext) : MinerContext :=
  mkCtx (droneId c) (accountAddress c) (stats c) (running c) (callbacks c)
    (feePerBlock c) v (gridIndex c) (lastBalance c) (lastCubeBalance c)
    (lastUnprocessedCube c) (currentContainer c) (currentBlock c)
    (ownerAddress c) (lastError c) (currentBattery c) (maxBattery c)
    (lastBatteryRefresh c).

Definition set_gridIndex (v : Z) (c : MinerContext) : MinerContext :=
  mkCtx (droneId c) (accountAddress c) (stats c) (running c) (callbacks c)
    (feePerBlock c) (grid c) v (lastBalance c) (lastCubeBalance c)
    (lastUnprocessedCube c) (currentContainer c) (currentBlock c)
    (ownerAddress c) (lastError c) (currentBattery c) (maxBattery c)
    (lastBatteryRefresh c).

Definition set_lastBalance (v : Z) (c : MinerContext) : MinerContext :=
  mkCtx (droneId c) (accountAddress c) (stats c) (running c) (callbacks c)
    (feePerBlock c) (grid c) (gridIndex c) v (lastCubeBalance c)
    (lastUnprocessedCube c) (currentContainer c) (currentBlock c)
    (ownerAddress c) (lastError c) (currentBattery c) (maxBattery c)
    (lastBatteryRefresh c).

Definition set_lastCubeBalance (v : Z) (c : MinerContext) : MinerContext :=
  mkCtx (droneId c) (accountAddress c) (stats c) (running c) (callbacks c)
    (feePerBlock c) (grid c) (gridIndex c) (lastBalance c) v
    (lastUnprocessedCube c) (currentContainer c) (currentBlock c)
    (ownerAddress c) (lastError c) (currentBattery c) (maxBattery c)
    (lastBatteryRefresh c).

Definition set_lastUnprocessedCube (v : Z) (c : MinerContext) : MinerContext :=
  mkCtx (droneId c) (accountAddress c) (stats c) (running c) (callbacks c)
    (feePerBlock c) (grid c) (gridIndex c) (lastBalance c) (lastCubeBalance c)
    v (currentContainer c) (currentBlock c)
    (ownerAddress c) (lastError c) (currentBattery c) (maxBattery c)
    (lastBatteryRefresh c).

Definition set_location (container block : Z) (c : MinerContext) : MinerContext :=
  mkCtx (droneId c) (accountAddress c) (stats c) (running c) (callbacks c)
    (feePerBlock c) (grid c) (gridIndex c) (lastBalance c) (lastCubeBalance c)
    (lastUnprocessedCube c) container block
    (ownerAddress c) (lastError c) (currentBattery c) (maxBattery c)
    (lastBatteryRefresh c).

Definition set_lastError (v : string) (c : MinerContext) : MinerContext :=
  mkCtx (droneId c) (accountAddress c) (stats c) (running c) (callbacks c)
    (feePerBlock c) (grid c) (gridIndex c) (lastBalance c) (lastCubeBalance c)
    (lastUnprocessedCube c) (currentContainer c) (currentBlock c)
    (ownerAddress c) v (currentBattery c) (maxBattery c)
    (lastBatteryRefresh c).

Definition set_currentBattery (v : Z) (c : MinerContext) : MinerContext :=
  mkCtx (droneId c) (accountAddress c) (stats c) (running c) (callbacks c)
    (feePerBlock c) (grid c) (gridIndex c) (lastBalance c) (lastCubeBalance c)
    (lastUnprocessedCube c) (currentContainer c) (currentBlock c)
    (ownerAddress c) (lastError c) v (maxBattery c)
    (lastBatteryRefresh c).

Definition set_battery (cur max refreshed : Z) (c : MinerContext) : MinerContext :=
  mkCtx (droneId c) (accountAddress c) (stats c) (running c) (callbacks c)
    (feePerBlock c) (grid c) (gridIndex c) (lastBalance c) (lastCubeBalance c)
    (lastUnprocessedCube c) (currentContainer c) (currentBlock c)
    (ownerAddress c) (lastError c) cur max refreshed.

Definition incrBlocksDestroyed (s : MiningStats) : MiningStats :=
  mkStats (blocksDestroyed s + 1) (blocksAlreadyDestroyed s) (errors s)
    (startTime s) (capabilityRefreshes s).

Definition incrBlocksAlreadyDestroyed (s : MiningStats) : MiningStats :=
  mkStats (blocksDestroyed s) (blocksAlreadyDestroyed s + 1) (errors s)
    (startTime s) (capabilityRefreshes s).

Definition incrErrors (s : MiningStats) : MiningStats :=
  mkStats (blocksDestroyed s) (blocksAlreadyDestroyed s) (errors s + 1)
    (startTime s) (capabilityRefreshes s).

Definition incrCapabilityRefreshes (s : MiningStats) : MiningStats :=
  mkStats (blocksDestroyed s) (blocksAlreadyDestroyed s) (errors s)
    (startTime s) (capabilityRefreshes s + 1).

(* ===================================================================== *)
(** ** Computations: state that survives a throw

    A JavaScript [throw] does not undo the writes made before it, so a
    computation returns its outcome together with the state it reached. *)
(* ===================================================================== *)

Definition M (A : Type) : Type := State -> Outcome A * State.

Definition ret {A} (a : A) : M A := fun s => (Return a, s).

Definition bind {A B} (m : M A) (k : A -> M B) : M B :=
  fun s =>
    match m s with
    | (Return a, s') => k a s'
    | (Throw t, s') => (Throw t, s')
    end.

(** [try { m } catch (t) { h t }] *)
Definition tryCatch {A} (m : M A) (h : Thrown -> M A) : M A :=
  fun s =>
    match m s with
    | (Return a, s') => (Return a, s')
    | (Throw t, s') => h t s'
    end.

Declare Scope comp_scope.
Delimit Scope comp_scope with comp.
Notation "x <- m ;; k" := (bind m (fun x => k))
  (at level 61, m at next level, right associativity) : comp_scope.
Notation "m ;; k" := (bind m (fun _ => k))
  (at level 61, right associativity) : comp_scope.
Local Open Scope comp_scope.

Definition getCache : M (option CachedCapability) :=
  fun s => (Return (capabilityCache s), s).

Definition putCache (c : option CachedCapability) : M unit :=
  fun s => (Return tt, mkState c (ctx s) (trace s)).

Definition getCtx : M MinerContext :=
  fun s => (Return (ctx s), s).

Definition modifyCtx (f : MinerContext -> MinerContext) : M unit :=
  fun s => (Return tt, mkState (capabilityCache s) (f (ctx s)) (trace s)).

Definition emit (ev : Event) : M unit :=
  fun s => (Return tt, mkState (capabilityCache s) (ctx s) (trace s ++ [ev])).

(** A call that leaves the process: it is recorded, and the outside world
    answers with a value or with a throw. *)
Definition external {A} (ev : Event) (resp : Outcome A) : M A :=
  fun s => (resp, mkState (capabilityCache s) (ctx s) (trace s ++ [ev])).

(** [ctx.callbacks.onX?.(...)]: called only when registered. *)
Definition callback (registered : MinerCallbacks -> bool) (ev : Event) : M unit :=
  c <- getCtx ;;
  if registered (callbacks c) then emit ev else ret tt.

Definition when (b : bool) (m : M unit) : M unit :=
  if b then m else ret tt.

(* ===================================================================== *)
(** ** [capability.ts] *)
(* ===================================================================== *)

(** [isCacheValid]; [dateNow] is the value of [Date.now()], in milliseconds. *)
Definition isCacheValid (dateNow : Z) (cost : Z) : M bool :=
  cache <- getCache ;;
  match cache with
  | None => ret false
  | Some entry =>
      let now := JS.floorDiv dateNow 1000 in
      let expiresAt := expiresAt (capability (bundle entry)) in
      if now >=? expiresAt - 30 then ret false
      else if remainingBudget entry <? cost then ret false
      else ret true
  end.

(** [fetchCapability]: one POST to the capability endpoint. A response that
    is not ok, or a body that does not parse, is a throw of [resp]. *)
Definition fetchCapability (resp : Outcome CapabilityBundle)
    (wallet : string) (droneId : Z) : M CapabilityBundle :=
  external (FetchCapability wallet CAP_MODE_MINE droneId) resp.

Definition getCapability (e : IterEnv) (wallet : string) (droneId : Z)
    (cost : Z) : M CapabilityBundle :=
  valid <- isCacheValid (clockGet e) cost ;;
  if valid then
    cache <- getCache ;;
    match cache with
    | Some entry =>
        putCache (Some (mkCached (bundle entry) (remainingBudget entry - cost)
                                 (fetchedAt entry))) ;;
        ret (bundle entry)
    | None => (* capabilityCache! on null *)
        fun s => (Throw (ErrorObj "Cannot read properties of null"), s)
    end
  else
    b <- fetchCapability (fetchResp e) wallet droneId ;;
    putCache (Some (mkCached b (budget (capability b) - cost) (clockFetched e))) ;;
    ret b.

Definition getRemainingBudget : M Z :=
  cache <- getCache ;;
  match cache with
  | Some entry => ret (remainingBudget entry)
  | None => ret 0
  end.

Definition clearCapabilityCache : M unit :=
  putCache None.

Definition needsCapabilityRefresh (dateNow : Z) (cost : Z) : M bool :=
  valid <- isCacheValid dateNow cost ;;
  ret (negb valid).

(* ===================================================================== *)
(** ** [contract.ts]: [destroyBlock] *)
(* ===================================================================== *)

Definition failed (msg : string) : DestroyResult :=
  mkResult false None (Some msg) None.

(** The [catch (simError)] block around [simulateContract]. *)
Definition simCatch (simError : Thrown) : DestroyResult :=
  let simMsg := messageOf simError in
  let lowerSim := JS.toLowerCase simMsg in
  if JS.includes lowerSim "already destroyed" then
    mkResult false None (Some "Already destroyed") (Some true)
  else if JS.includes lowerSim "capability expired" then
    failed "Capability expired"
  else if JS.includes lowerSim "capability exhausted" then
    failed "Capability exhausted (on-chain)"
  else if JS.includes lowerSim "budget too low" then
    failed "Capability budget too low (cap.budget < cost)"
  else if JS.includes lowerSim "not authorized" then
    failed "Not authorized for license"
  else if JS.includes lowerSim "invalid capability signature" then
    failed "Invalid capability signature"
  else if JS.includes lowerSim "battery depleted" then
    failed "Battery depleted - shift ended"
  else
    failed ("Sim: " ++ JS.substring0 150 simMsg).

(** The outer [catch (error)] block: submission and receipt wait. *)
Definition submitCatch (error : Thrown) : DestroyResult :=
  let errorMessage := messageOf error in
  let lowerError := JS.toLowerCase errorMessage in
  if JS.includes lowerError "already destroyed"
     || JS.includes lowerError "tile already" then
    mkResult false None (Some "Already destroyed") (Some true)
  else if JS.includes lowerError "capability expired" then
    failed "Capability expired"
  else if JS.includes lowerError "capability exhausted"
          || JS.includes lowerError "budget" then
    failed "Capability budget exhausted"
  else if JS.includes lowerError "not authorized" then
    failed "Not authorized for drone"
  else if JS.includes lowerError "invalid container" then
    failed "Invalid container ID"
  else if JS.includes lowerError "invalid tile" then
    failed "Invalid tile ID"
  else if JS.includes lowerError "jackpot fee" then
    failed "Jackpot fee too low"
  else
    match RevertRegex.matchReason errorMessage with
    | Some reason =>
        if JS.includes (JS.toLowerCase reason) "already" then
          mkResult false None (Some reason) (Some true)
        else failed reason
    | None => failed errorMessage
    end.

Definition GAS_LIMIT : Z := 500000.
Definition RECEIPT_TIMEOUT : Z := 30000.

Definition destroyBlock (e : IterEnv) (licenseId containerId blockId : Z)
    (cap : CapabilityBundle) (fee : Z) : M DestroyResult :=
  tryCatch
    (early <- tryCatch
                (external (SimulateContract licenseId containerId blockId fee)
                          (simResp e) ;;
                 ret None)
                (fun simError => ret (Some (simCatch simError))) ;;
     match early with
     | Some r => ret r
     | None =>
         hash <- external (WriteContract licenseId containerId blockId fee
                                         GAS_LIMIT) (writeResp e) ;;
         receipt <- external (WaitForTransactionReceipt hash RECEIPT_TIMEOUT)
                             (receiptResp e) ;;
         match receipt with
         | ReceiptSuccess => ret (mkResult true (Some hash) None None)
         | ReceiptReverted =>
             ret (mkResult false (Some hash)
                    (Some "Transaction reverted on-chain") None)
         end
     end)
    (fun error => ret (submitCatch error)).

Definition getLicenseStatus (e : IterEnv) (licenseId : Z) : M LicenseStatus :=
  external (GetLicense licenseId) (licenseResp e).

Definition getBalance (e : IterEnv) : M Z :=
  external GetBalance (balanceResp e).

(** [getUnprocessedCubeBalance] and [getCubeBalance] answer 0 when the read
    throws. *)
Definition getUnprocessedCubeBalance (e : IterEnv) (wallet : string) : M Z :=
  tryCatch (external (GetUnprocessedCubeBalance wallet) (unprocessedResp e))
           (fun _ => ret 0).

Definition getCubeBalance (e : IterEnv) (wallet : string) : M Z :=
  tryCatch (external (GetCubeBalance wallet) (cubeResp e))
           (fun _ => ret 0).

(* ===================================================================== *)
(** ** [miner.ts] *)
(* ===================================================================== *)

Definition MINE_DELAY_MS : Z := 100.
Definition GRID_SIZE : Z := 10.

Record Location := mkLocation {
  face : Z;
  sector : Z;
  region : Z;
  container : Z
}.

Definition decomposeContainer (containerId : Z) : Location :=
  let CONTAINERS_PER_REGION := 4 in
  let REGIONS_PER_SECTOR := 256 in
  let SECTORS_PER_FACE := 256 in
  let container := JS.rem containerId CONTAINERS_PER_REGION in
  let remaining1 := JS.floorDiv containerId CONTAINERS_PER_REGION in
  let region := JS.rem remaining1 REGIONS_PER_SECTOR in
  let remaining2 := JS.floorDiv remaining1 REGIONS_PER_SECTOR in
  let sector := JS.rem remaining2 SECTORS_PER_FACE in
  let face := JS.floorDiv remaining2 SECTORS_PER_FACE in
  mkLocation face sector region container.

(** The reconstruction the specification uses to read a location back. *)
Definition recompose (l : Location) : Z :=
  ((face l * 256 + sector l) * 256 + region l) * 4 + container l.

(** [grid[i] = v] on the in-range index the program keeps. *)
Fixpoint gridSet (i : nat) (v : Cell) (g : list Cell) : list Cell :=
  match g, i with
  | [], _ => []
  | _ :: g', O => v :: g'
  | c :: g', S i' => c :: gridSet i' v g'
  end.

Definition markGrid (v : Cell) : M unit :=
  modifyCtx (fun c => set_grid (gridSet (Z.to_nat (gridIndex c)) v (grid c)) c).

Definition emptyGrid : list Cell :=
  repeat GRID_EMPTY (Z.to_nat (GRID_SIZE * GRID_SIZE)).

(** The [lowerError] test that clears the capability cache. *)
Definition looksCapabilityRelated (lower : string) : bool :=
  JS.includes lower "capability" || JS.includes lower "budget"
  || JS.includes lower "exhausted".

(** The [lowerError] test that ends the shift. *)
Definition looksDepleted (lower : string) : bool :=
  JS.includes lower "battery depleted" || JS.includes lower "shift ended".

(** [mineOnce], the statements before the [try] block: pick and record
    the target, mark the grid. *)
Definition minePrologue (e : IterEnv) : M unit :=
  modifyCtx (set_location (randomContainer e) (randomBlock e)) ;;
  markGrid GRID_MINING.

(** [mineOnce], start of the [try] block: probe the cache, get the
    capability, count and announce a refresh. *)
Definition mineAcquire (e : IterEnv) : M CapabilityBundle :=
  wasRefresh <- needsCapabilityRefresh (clockNeeds e) 1 ;;
  c <- getCtx ;;
  cap <- getCapability e (accountAddress c) (droneId c) 1 ;;
  when wasRefresh
    (modifyCtx (fun c => set_stats (incrCapabilityRefreshes (stats c)) c) ;;
     callback onCapabilityRefresh
       (CbCapabilityRefresh (budget (capability cap)))) ;;
  ret cap.

(** [mineOnce], the branch [if (result.success)]. *)
Definition mineOnSuccess (e : IterEnv) (containerId blockId : Z)
    (result : DestroyResult) : M unit :=
  modifyCtx (fun c => set_stats (incrBlocksDestroyed (stats c)) c) ;;
  markGrid GRID_SUCCESS ;;
  callback onBlockDestroyed
    (CbBlockDestroyed containerId blockId (txHash result)) ;;
  c <- getCtx ;;
  when (currentBattery c >? 0)
    (modifyCtx (fun c => set_currentBattery (currentBattery c - 1) c)) ;;
  c <- getCtx ;;
  when (JS.rem (blocksDestroyed (stats c)) 25 =? 0)
    (tryCatch
       (status <- getLicenseStatus e (droneId c) ;;
        modifyCtx (set_battery (lsCurrentBattery status)
                               (lsMaxBattery status) (clockBattery e)))
       (fun _ => ret tt)).

(** [mineOnce], the branch [else if (result.alreadyDestroyed)]. *)
Definition mineOnAlreadyDestroyed (containerId blockId : Z) : M unit :=
  modifyCtx (fun c => set_stats (incrBlocksAlreadyDestroyed (stats c)) c) ;;
  markGrid GRID_SKIP ;;
  callback onBlockAlreadyDestroyed
    (CbBlockAlreadyDestroyed containerId blockId).

(** [mineOnce], the final [else] branch: a failed destruction. *)
Definition mineOnFailure (result : DestroyResult) : M unit :=
  modifyCtx (fun c => set_stats (incrErrors (stats c)) c) ;;
  markGrid GRID_FAIL ;;
  modifyCtx (set_lastError (JS.orDefault (error result) "Unknown error")) ;;
  callback onError (CbError (JS.orDefault (error result) "Unknown error")) ;;
  let lowerError := JS.lowerOrEmpty (error result) in
  when (looksCapabilityRelated lowerError) clearCapabilityCache ;;
  when (looksDepleted lowerError)
    (modifyCtx (set_running false) ;;
     callback onBatteryDepleted CbBatteryDepleted).

(** The body of the [try] block of [mineOnce]. *)
Definition mineTry (e : IterEnv) (containerId blockId : Z) : M unit :=
  cap <- mineAcquire e ;;
  c <- getCtx ;;
  result <- destroyBlock e (droneId c) containerId blockId cap (feePerBlock c) ;;
  if success result then mineOnSuccess e containerId blockId result
  else if JS.truthy (alreadyDestroyed result) then
    mineOnAlreadyDestroyed containerId blockId
  else mineOnFailure result.

(** The [catch (error)] block of [mineOnce]. *)
Definition mineCatch (error : Thrown) : M unit :=
  modifyCtx (fun c => set_stats (incrErrors (stats c)) c) ;;
  markGrid GRID_FAIL ;;
  let errorMessage := messageOf error in
  modifyCtx (set_lastError errorMessage) ;;
  callback onError (CbError errorMessage) ;;
  let lowerErrorMsg := JS.toLowerCase errorMessage in
  when (looksCapabilityRelated lowerErrorMsg) clearCapabilityCache.

(** [mineOnce], the statements after the [try] block: advance the grid,
    refresh the balances every fifth operation, report the statistics. *)
Definition mineEpilogue (e : IterEnv) : M unit :=
  modifyCtx (fun c => set_gridIndex (gridIndex c + 1) c) ;;
  c <- getCtx ;;
  when (gridIndex c >=? GRID_SIZE * GRID_SIZE)
    (modifyCtx (fun c => set_grid emptyGrid (set_gridIndex 0 c))) ;;
  c <- getCtx ;;
  when (JS.rem (blocksDestroyed (stats c) + errors (stats c)) 5 =? 0)
    (tryCatch
       (b <- getBalance e ;;
        modifyCtx (set_lastBalance b) ;;
        u <- getUnprocessedCubeBalance e (ownerAddress c) ;;
        modifyCtx (set_lastUnprocessedCube u) ;;
        q <- getCubeBalance e (ownerAddress c) ;;
        modifyCtx (set_lastCubeBalance q))
       (fun _ => ret tt)) ;;
  c <- getCtx ;;
  callback onStats (CbStats (stats c)).

Definition mineOnce (e : IterEnv) : M unit :=
  minePrologue e ;;
  tryCatch (mineTry e (randomContainer e) (randomBlock e)) mineCatch ;;
  mineEpilogue e.

(** The [while (ctx.running)] loop of [startMining], run against the
    answers of the outside world for as many iterations as [envs] holds. *)
Fixpoint miningLoop (envs : list IterEnv) : M unit :=
  match envs with
  | [] => ret tt
  | e :: rest =>
      c <- getCtx ;;
      if running c then
        mineOnce e ;;
        c <- getCtx ;;
        when (JS.rem (blocksDestroyed (stats c)) 10 =? 0)
          (external (SaveRuntimeState (stats c)) (saveResp e)) ;;
        emit (Sleep MINE_DELAY_MS) ;;
        miningLoop rest
      else ret tt
  end.

Definition startMining (envs : list IterEnv) : M unit :=
  modifyCtx (set_running true) ;;
  miningLoop envs.

(* ===================================================================== *)
(** ** A concrete session, used to run the definitions *)
(* ===================================================================== *)

Module Sample.

Definition cap1 : CapabilityBundle :=
  mkBundle (mkCapability "0xabc" 1 7 1000 1100 50) "0xsig".

Definition callbacks0 : MinerCallbacks :=
  mkCallbacks false false false false false true.

Definition ctx0 : MinerContext :=
  mkCtx 42 "0xabc" (mkStats 0 0 0 1000000 0) true callbacks0 0
        emptyGrid 0 5 0 0 0 0 "0xowner" "" 3 100 1000000.

(** No capability cached. *)
Definition cold : State := mkState None ctx0 [].

(** A capability cached at second 1000 with 49 units left. *)
Definition warm : State := mkState (Some (mkCached cap1 49 1000000)) ctx0 [].

(** An iteration at second 1001 in which every call succeeds. *)
Definition envOk : IterEnv :=
  mkEnv 1234567 17 1001000 1001000 1001050 (Return cap1) (Return tt)
        (Return "0xhash") (Return ReceiptSuccess)
        (Return (mkLicense 1 1 100 80 0)) 1001900
        (Return 5) (Return 0) (Return 0) (Return tt).

Definition withSim (r : Outcome unit) (e : IterEnv) : IterEnv :=
  mkEnv (randomContainer e) (randomBlock e) (clockNeeds e) (clockGet e)
        (clockFetched e) (fetchResp e) r (writeResp e) (receiptResp e)
        (licenseResp e) (clockBattery e) (balanceResp e) (unprocessedResp e)
        (cubeResp e) (saveResp e).

Definition withWrite (r : Outcome string) (e : IterEnv) : IterEnv :=
  mkEnv (randomContainer e) (randomBlock e) (clockNeeds e) (clockGet e)
        (clockFetched e) (fetchResp e) (simResp e) r (receiptResp e)
        (licenseResp e) (clockBattery e) (balanceResp e) (unprocessedResp e)
        (cubeResp e) (saveResp e).

Definition withFetch (r : Outcome CapabilityBundle) (e : IterEnv) : IterEnv :=
  mkEnv (randomContainer e) (randomBlock e) (clockNeeds e) (clockGet e)
        (clockFetched e) r (simResp e) (writeResp e) (receiptResp e)
        (licenseResp e) (clockBattery e) (balanceResp e) (unprocessedResp e)
        (cubeResp e) (saveResp e).

(** The simulation reverts because the battery is empty. *)
Definition envDepleted : IterEnv :=
  withSim (Throw (ErrorObj "execution reverted: Battery depleted - shift ended"))
          envOk.

(** The capability endpoint is down. *)
Definition envNoCapability : IterEnv :=
  withFetch
    (Throw (ErrorObj "Identity validation failed: 503 - capability service down"))
    envOk.

Definition withSave (r : Outcome unit) (e : IterEnv) : IterEnv :=
  mkEnv (randomContainer e) (randomBlock e) (clockNeeds e) (clockGet e)
        (clockFetched e) (fetchResp e) (simResp e) (writeResp e)
        (receiptResp e) (licenseResp e) (clockBattery e) (balanceResp e)
        (unprocessedResp e) (cubeResp e) r.

(** The simulation reverts because the wallet is not authorized, and the
    state file cannot be written. *)
Definition envRefusedDiskFull : IterEnv :=
  withSave (Throw (ErrorObj "ENOSPC: no space left on device"))
           (withSim (Throw (ErrorObj "execution reverted: Not authorized"))
                    envOk).

(** The capability endpoint is down, and the state file cannot be
    written. *)
Definition envNoCapabilityDiskFull : IterEnv :=
  withSave (Throw (ErrorObj "ENOSPC: no space left on device"))
           envNoCapability.

End Sample.

(* ===================================================================== *)
(** ** Vocabulary of the properties

    Predicates on traces and states, the tables and summaries the
    statements below are written with, and the tactics of their proofs. *)
(* ===================================================================== *)

Local Open Scope list_scope.

(** The validity condition of the cache in the words of the specification:
    an entry exists, it is not within 30 seconds of its expiry, and it has
    budget for the cost. *)
Definition cacheHit (dateNow cost : Z) (cache : option CachedCapability) : Prop :=
  exists entry,
    cache = Some entry /\
    JS.floorDiv dateNow 1000 < expiresAt (capability (bundle entry)) - 30 /\
    remainingBudget entry >= cost.

Definition isFetch (ev : Event) : bool :=
  match ev with FetchCapability _ _ _ => true | _ => false end.

(** The test of [startMining] for saving the state after an iteration. *)
Definition saveDue (c : MinerContext) : bool :=
  JS.rem (blocksDestroyed (stats c)) 10 =? 0.

(** The state in which [startMining] comes back to the test of its loop,
    [s'] being the state that [mineOnce] left: the state file written when
    that was due, and the pause slept. *)
Definition paused (s' : State) : State :=
  mkState (capabilityCache s') (ctx s')
          (trace s' ++
           (if saveDue (ctx s') then [SaveRuntimeState (stats (ctx s'))]
            else []) ++
           [Sleep MINE_DELAY_MS]).

(** The state in which [startMining] is left by a write of the state file
    that throws. *)
Definition unsaved (s' : State) : State :=
  mkState (capabilityCache s') (ctx s')
          (trace s' ++ [SaveRuntimeState (stats (ctx s'))]).

Definition countEv (p : Event -> bool) (tr : list Event) : nat :=
  List.length (List.filter p tr).

Definition isWrite (ev : Event) : bool :=
  match ev with WriteContract _ _ _ _ _ => true | _ => false end.

(** A table in the sense of the specification: rows of substrings with an
    outcome, tried in order on the lowercased message, first match wins. *)
Fixpoint firstMatch (table : list (list string * DestroyResult))
    (lower : string) : option DestroyResult :=
  match table with
  | [] => None
  | (keys, r) :: rest =>
      if existsb (JS.includes lower) keys then Some r
      else firstMatch rest lower
  end.

Definition alreadyProcessed : DestroyResult :=
  mkResult false None (Some "Already destroyed") (Some true).

Definition simTable : list (list string * DestroyResult) :=
  [ (["already destroyed"], alreadyProcessed);
    (["capability expired"], failed "Capability expired");
    (["capability exhausted"], failed "Capability exhausted (on-chain)");
    (["budget too low"],
       failed "Capability budget too low (cap.budget < cost)");
    (["not authorized"], failed "Not authorized for license");
    (["invalid capability signature"], failed "Invalid capability signature");
    (["battery depleted"], failed "Battery depleted - shift ended") ].

Definition submitTable : list (list string * DestroyResult) :=
  [ (["already destroyed"; "tile already"], alreadyProcessed);
    (["capability expired"], failed "Capability expired");
    (["capability exhausted"; "budget"], failed "Capability budget exhausted");
    (["not authorized"], failed "Not authorized for drone");
    (["invalid container"], failed "Invalid container ID");
    (["invalid tile"], failed "Invalid tile ID");
    (["jackpot fee"], failed "Jackpot fee too low") ].

(** What each phase answers when no row of its table matches. *)
Definition simUnmatched (msg : string) : DestroyResult :=
  failed ("Sim: " ++ JS.substring0 150 msg)%string.

Definition submitUnmatched (msg : string) : DestroyResult :=
  match RevertRegex.matchReason msg with
  | Some reason =>
      if JS.includes (JS.toLowerCase reason) "already" then
        mkResult false None (Some reason) (Some true)
      else failed reason
  | None => failed msg
  end.

Definition classifyWith (table : list (list string * DestroyResult))
    (unmatched : string -> DestroyResult) (msg : string) : DestroyResult :=
  match firstMatch table (JS.toLowerCase msg) with
  | Some r => r
  | None => unmatched msg
  end.

(** The part of the context the properties speak about. The grid, the
    target, the balances and the refresh counter are display data. *)
Definition core (c : MinerContext) :=
  (droneId c, accountAddress c, feePerBlock c, ownerAddress c, callbacks c,
   (running c, lastError c, currentBattery c, maxBattery c),
   (blocksDestroyed (stats c), blocksAlreadyDestroyed (stats c),
    errors (stats c))).

Definition isGetLicense (ev : Event) : bool :=
  match ev with GetLicense _ => true | _ => false end.

Definition isCbBatteryDepleted (ev : Event) : bool :=
  match ev with CbBatteryDepleted => true | _ => false end.

Definition isCbError (ev : Event) : bool :=
  match ev with CbError _ => true | _ => false end.

(** Events that are neither a battery read, nor the depletion callback,
    nor the error callback. *)
Definition quiet (ev : Event) : bool :=
  negb (isGetLicense ev || isCbBatteryDepleted ev || isCbError ev).

(** What [destroyBlock] returns, read off the answers of the chain. *)
Definition destroyResultOf (e : IterEnv) : DestroyResult :=
  match simResp e with
  | Throw t => simCatch t
  | Return _ =>
      match writeResp e with
      | Throw t => submitCatch t
      | Return hash =>
          match receiptResp e with
          | Throw t => submitCatch t
          | Return ReceiptSuccess => mkResult true (Some hash) None None
          | Return ReceiptReverted =>
              mkResult false (Some hash)
                (Some "Transaction reverted on-chain"%string) None
          end
      end
  end.

(** The iteration gets a capability: from the cache, or from a fetch that
    the endpoint answers. *)
Definition acquires (e : IterEnv) (s : State) : Prop :=
  cacheHit (clockGet e) 1 (capabilityCache s) \/
  exists fresh, fetchResp e = Return fresh.

(** Symbolic execution of a computation down to its branches. *)
Ltac exec :=
  unfold bind, ret, tryCatch, when, callback, getCtx, getCache, putCache,
    modifyCtx, emit, external, markGrid, clearCapabilityCache,
    getLicenseStatus, getBalance, getUnprocessedCubeBalance, getCubeBalance;
  cbn.

(** Closes [T = trace s ++ ?tr] once [T] is an explicit extension. *)
Ltac extends :=
  cbn; rewrite <- ?app_assoc;
  first [reflexivity | symmetry; apply app_nil_r].

Ltac all_quiet := repeat constructor.

(** The battery estimate after the decrement of a successful operation. *)
Definition decremented (b : Z) : Z := if b >? 0 then b - 1 else b.

(** The 25-block checkpoint, from the count before the increment. *)
Definition resyncDue (destroyed : Z) : bool :=
  JS.rem (destroyed + 1) 25 =? 0.

(** The estimate and its maximum after a successful operation that found
    [destroyed] blocks counted, estimate [b] and maximum [mx]. *)
Definition batteryAfterSuccess (e : IterEnv) (destroyed b mx : Z) : Z * Z :=
  if resyncDue destroyed then
    match licenseResp e with
    | Return status => (lsCurrentBattery status, lsMaxBattery status)
    | Throw _ => (decremented b, mx)
    end
  else (decremented b, mx).

(** The callbacks of the failure branch, in order. *)
Definition failureEvents (cbs : MinerCallbacks) (r : DestroyResult) : list Event :=
  (if onError cbs
   then [CbError (JS.orDefault (error r) "Unknown error")] else []) ++
  (if looksDepleted (JS.lowerOrEmpty (error r)) && onBatteryDepleted cbs
   then [CbBatteryDepleted] else []).

Definition catchEvents (cbs : MinerCallbacks) (t : Thrown) : list Event :=
  if onError cbs then [CbError (messageOf t)] else [].

(** Replace the fields of a context by those of another with the same
    [core]. *)
Ltac use_core H :=
  unfold core in H; injection H; clear H;
  let E1 := fresh "E" in let E2 := fresh "E" in let E3 := fresh "E" in
  let E4 := fresh "E" in let E5 := fresh "E" in let E6 := fresh "E" in
  let E7 := fresh "E" in let E8 := fresh "E" in let E9 := fresh "E" in
  let E10 := fresh "E" in let E11 := fresh "E" in let E12 := fresh "E" in
  intros E1 E2 E3 E4 E5 E6 E7 E8 E9 E10 E11 E12;
  rewrite ?E1, ?E2, ?E3, ?E4, ?E5, ?E6, ?E7, ?E8, ?E9, ?E10, ?E11, ?E12 in *.

(** The three-way branch of [mineTry] on the result of [destroyBlock]. *)
Definition mineBranch (e : IterEnv) (r : DestroyResult) : M unit :=
  if success r then mineOnSuccess e (randomContainer e) (randomBlock e) r
  else if JS.truthy (alreadyDestroyed r) then
    mineOnAlreadyDestroyed (randomContainer e) (randomBlock e)
  else mineOnFailure r.


(** The operation of this iteration is successful. *)
Definition succeeds (e : IterEnv) (s : State) : Prop :=
  acquires e s /\ success (destroyResultOf e) = true.


From Stdlib Require Import DecimalString DecimalZ Sorted FinFun.

(* ===================================================================== *)
(** ** Further vocabulary: what a computation keeps and what it emits *)
(* ===================================================================== *)

(** [m] keeps the state property [I]: whichever way it ends. *)
Definition keeps {A} (I : State -> Prop) (m : M A) : Prop :=
  forall s, I s -> I (snd (m s)).

(** [m] only adds events of class [Q] to the trace. *)
Definition emitsOnly {A} (Q : Event -> bool) (m : M A) : Prop :=
  forall s, exists tr,
    trace (snd (m s)) = trace s ++ tr /\ Forall (fun ev => Q ev = true) tr.

(** [m] never throws. *)
Definition returns {A} (m : M A) : Prop :=
  forall s, exists a, fst (m s) = Return a.

(** The calls of [destroyBlock], read off the answers of the chain. *)
Definition destroyEvents (e : IterEnv) (lic cid bid fee : Z) : list Event :=
  SimulateContract lic cid bid fee ::
  match simResp e with
  | Throw _ => []
  | Return _ =>
      WriteContract lic cid bid fee GAS_LIMIT ::
      match writeResp e with
      | Throw _ => []
      | Return hash => [WaitForTransactionReceipt hash RECEIPT_TIMEOUT]
      end
  end.

Definition notFetch (ev : Event) : bool := negb (isFetch ev).

Definition isSimulate (ev : Event) : bool :=
  match ev with SimulateContract _ _ _ _ => true | _ => false end.

Definition isWait (ev : Event) : bool :=
  match ev with WaitForTransactionReceipt _ _ => true | _ => false end.

(** Reduces a statement about every event of an explicit list to one goal
    per event. *)
Ltac each_event :=
  let ev := fresh "ev" in let Hin := fresh "Hin" in
  intros ev Hin; cbn in Hin;
  repeat (destruct Hin as [Hin|Hin]; [subst ev|]);
  try contradiction.

(* ===================================================================== *)
(** ** [miner.ts]: the context at the start of a session *)
(* ===================================================================== *)

(** [createInitialStats]; [dateNow] is the reading of [Date.now()]. *)
Definition createInitialStats (dateNow : Z) : MiningStats :=
  mkStats 0 0 0 dateNow 0.

(** [createMinerContext]; [config.droneId] and [client.account.address]
    are the parts of its first three arguments that the context keeps in
    this model, [statsNow] and [batteryNow] the two readings of the clock. *)
Definition createMinerContext (droneId : Z) (accountAddress : string)
    (feePerBlock balance cubeBalance unprocessedCube : Z)
    (ownerAddress : string) (currentBattery maxBattery : Z)
    (callbacks : MinerCallbacks) (statsNow batteryNow : Z) : MinerContext :=
  mkCtx droneId accountAddress (createInitialStats statsNow) false callbacks
        feePerBlock emptyGrid 0 balance cubeBalance unprocessedCube 0 0
        ownerAddress "" currentBattery maxBattery batteryNow.

Definition FACE_NAMES : list string :=
  ["TOP"; "BOTTOM"; "NORTH"; "SOUTH"; "EAST"; "WEST"]%string.

(** The grid has its 100 cells and the cursor is on one of them. *)
Definition gridOk (c : MinerContext) : Prop :=
  List.length (grid c) = 100%nat /\ 0 <= gridIndex c < 100.

(** The local budget counter is not above the budget of its capability. *)
Definition budgetOk (cache : option CachedCapability) : Prop :=
  forall entry,
    cache = Some entry ->
    remainingBudget entry <= budget (capability (bundle entry)).

(** The sum of the three outcome counters. *)
Definition operations (c : MinerContext) : Z :=
  blocksDestroyed (stats c) + blocksAlreadyDestroyed (stats c)
  + errors (stats c).

(** [mineTry] behind the acquisition: the rest of the [try] block, given the
    capability. *)
Definition mineWith (e : IterEnv) (cap : CapabilityBundle) : M unit :=
  c <- getCtx ;;
  result <- destroyBlock e (droneId c) (randomContainer e) (randomBlock e)
              cap (feePerBlock c) ;;
  mineBranch e result.

(** None of [keys] occurs in [l]. *)
Definition absent (l : string) (keys : list string) : bool :=
  forallb (fun k => negb (JS.includes l k)) keys.

(** The local budget counter is not negative. *)
Definition budgetNonneg (cache : option CachedCapability) : Prop :=
  forall entry, cache = Some entry -> 0 <= remainingBudget entry.

(** The endpoint issues capabilities for at least one operation. *)
Definition issuesBudget (e : IterEnv) : Prop :=
  forall fresh, fetchResp e = Return fresh -> 1 <= budget (capability fresh).

(** One acquisition of cost 1 per environment, in order. *)
Fixpoint acquireEach (envs : list IterEnv) (wallet : string) (droneId : Z)
    : M unit :=
  match envs with
  | [] => ret tt
  | e :: rest =>
      getCapability e wallet droneId 1 ;;
      acquireEach rest wallet droneId
  end.

(* ===================================================================== *)
(** ** [miner.ts]: what the dashboard shows of a location and of a time *)
(* ===================================================================== *)

(** A number in a template literal: integers print in decimal, with a
    minus sign when negative. *)
Definition showZ (z : Z) : string := NilZero.string_of_int (Z.to_int z).

(** [FACE_NAMES[face]]: [None] is [undefined], for which [renderDashboard]
    falls back to the letter F and the number. *)
Definition faceName (face : Z) : option string :=
  if face <? 0 then None else nth_error FACE_NAMES (Z.to_nat face).

(** [formatDuration], of [miner.ts] and of [status.ts]. *)
Definition formatDuration (ms : Z) : string :=
  let seconds := JS.floorDiv ms 1000 in
  let minutes := JS.floorDiv seconds 60 in
  let hours := JS.floorDiv minutes 60 in
  if hours >? 0 then
    (showZ hours ++ "h " ++ showZ (JS.rem minutes 60) ++ "m "
     ++ showZ (JS.rem seconds 60) ++ "s")%string
  else if minutes >? 0 then
    (showZ minutes ++ "m " ++ showZ (JS.rem seconds 60) ++ "s")%string
  else (showZ seconds ++ "s")%string.

(* ===================================================================== *)
(** ** [contract.ts]: [findDronesForSessionKey] *)
(* ===================================================================== *)

(** The answers of the license contract to the reads of the scan. *)
Record ScanEnv := mkScanEnv {
  totalSupplyResp : Outcome Z;
  sessionKeyResp : Z -> Outcome string
}.

Inductive ScanRead :=
| ReadTotalSupply
| ReadSessionKey (tokenId : Z).

Definition ZERO_ADDRESS : string :=
  "0x0000000000000000000000000000000000000000".

(** One element of [checks]: the read of a session key with its [catch],
    which turns a failed read into [null]. *)
Definition checkToken (env : ScanEnv) (tokenId : Z) : Z * option string :=
  match sessionKeyResp env tokenId with
  | Return k => (tokenId, Some k)
  | Throw _ => (tokenId, None)
  end.

(** The inner [for] loop: the checks of [count] tokens from [tokenId] on. *)
Fixpoint checksFrom (env : ScanEnv) (tokenId : Z) (count : nat)
    : list (Z * option string) :=
  match count with
  | O => []
  | S n => checkToken env tokenId :: checksFrom env (tokenId + 1) n
  end.

(** The test that pushes a token on [authorizedDrones]. *)
Definition isSessionOf (normalizedSession : string)
    (r : Z * option string) : bool :=
  match snd r with
  | None => false
  | Some sessionKey =>
      negb (String.eqb sessionKey "")
      && negb (String.eqb sessionKey ZERO_ADDRESS)
      && String.eqb (JS.toLowerCase sessionKey) normalizedSession
  end.

Definition BATCH_SIZE : Z := 50.

(** The outer [for] loop, from [start] on; [acc] holds the drones found and
    the reads made so far. [fuel] bounds the number of batches. *)
Fixpoint scanBatches (fuel : nat) (env : ScanEnv) (normalizedSession : string)
    (maxToCheck start : Z) (acc : list Z * list ScanRead)
    : list Z * list ScanRead :=
  match fuel with
  | O => acc
  | S fuel' =>
      if start <? maxToCheck then
        let stop := Z.min (start + BATCH_SIZE) maxToCheck in
        let results := checksFrom env start (Z.to_nat (stop - start)) in
        scanBatches fuel' env normalizedSession maxToCheck (start + BATCH_SIZE)
          (fst acc ++ map fst (filter (isSessionOf normalizedSession) results),
           snd acc ++ map (fun r => ReadSessionKey (fst r)) results)
      else acc
  end.

(** [maxToCheck]: the supply plus ten, 5000 at most; a supply that cannot
    be read counts as 1000. *)
Definition maxToCheckOf (env : ScanEnv) : Z :=
  let totalSupply :=
    match totalSupplyResp env with
    | Return n => n
    | Throw _ => 1000
    end in
  Z.min (totalSupply + 10) 5000.

(** [findDronesForSessionKey]: the drones found, and the reads it made. As
    every batch advances by 50 and [maxToCheck] is at most 5000, a hundred
    batches are enough. *)
Definition findDronesForSessionKey (env : ScanEnv) (sessionAddress : string)
    : list Z * list ScanRead :=
  scanBatches 100 env (JS.toLowerCase sessionAddress) (maxToCheckOf env) 0
              ([], [ReadTotalSupply]).

(** The token ids [start], [start + 1], ..., [count] of them. *)
Fixpoint idsFrom (start : Z) (count : nat) : list Z :=
  match count with
  | O => []
  | S n => start :: idsFrom (start + 1) n
  end.

(* ===================================================================== *)
(** ** [miner.ts]: [validateMiningSetup] *)
(* ===================================================================== *)

(** The answers of the outside world to the validation: those of an
    iteration (balances, license, capability endpoint, clock) and those of
    its own reads. *)
Record SetupEnv := mkSetupEnv {
  chain : IterEnv;
  clientResp : Outcome string;      (* createContractClient: the address of
                                       the session account, or the throw of
                                       privateKeyToAccount *)
  authorizedResp : Outcome bool;    (* isAuthorizedFor *)
  ownerResp : Outcome string;       (* ownerOf *)
  feeResp : Outcome Z               (* jackpotFeePerBlockWei *)
}.

Record Validation := mkValidation {
  valid : bool;
  vError : option string;
  vClient : option string;          (* client.account.address *)
  vFeePerBlock : option Z;
  vBalance : option Z;
  vCubeBalance : option Z;
  vUnprocessedCube : option Z;
  vOwnerAddress : option string;
  vCurrentBattery : option Z;
  vMaxBattery : option Z
}.

(** A call answered by the outside world for which [Event] has no entry:
    the construction of the client and the three reads below. *)
Definition answered {A} (resp : Outcome A) : M A := fun s => (resp, s).

Definition createContractClient (env : SetupEnv) : M string :=
  answered (clientResp env).

Definition isAuthorizedForDrone (env : SetupEnv) : M bool :=
  answered (authorizedResp env).

Definition getDroneOwner (env : SetupEnv) : M string :=
  answered (ownerResp env).

(** [getJackpotFeePerBlock] answers 0 when the read throws. *)
Definition getJackpotFeePerBlock (env : SetupEnv) : M Z :=
  tryCatch (answered (feeResp env)) (fun _ => ret 0).

Definition invalid (msg : string) : Validation :=
  mkValidation false (Some msg) None None None None None None None None.

Definition validateMiningSetup (droneId : Z) (env : SetupEnv) : M Validation :=
  tryCatch
    (address <- createContractClient env ;;
     emit (Sleep 200) ;;
     balance <- getBalance (chain env) ;;
     if balance =? 0 then
       ret (invalid ("Session wallet " ++ address
                     ++ " has no ETH. Fund it with ETH for gas.")%string)
     else
       authorized <- isAuthorizedForDrone env ;;
       if negb authorized then
         ret (invalid ("Session wallet " ++ address
                       ++ " is not authorized for drone #" ++ showZ droneId
                       ++ ". Set session key on drone first.")%string)
       else
         licenseStatus <- getLicenseStatus (chain env) droneId ;;
         if lsCurrentBattery licenseStatus =? 0 then
           ret (invalid "License battery depleted. Wait for next shift.")
         else
           ownerAddress <- getDroneOwner env ;;
           cubeBalance <- getCubeBalance (chain env) ownerAddress ;;
           unprocessedCube <-
             getUnprocessedCubeBalance (chain env) ownerAddress ;;
           feePerBlock <- getJackpotFeePerBlock env ;;
           getCapability (chain env) address droneId 0 ;;
           clearCapabilityCache ;;
           ret (mkValidation true None (Some address) (Some feePerBlock)
                  (Some balance) (Some cubeBalance) (Some unprocessedCube)
                  (Some ownerAddress)
                  (Some (lsCurrentBattery licenseStatus))
                  (Some (lsMaxBattery licenseStatus))))
    (fun error => ret (invalid (messageOf error))).

(** The checks of the validation pass on the answers of [env] for a state
    with cache [cache]. *)
Definition checksPass (env : SetupEnv) (cache : option CachedCapability)
    : Prop :=
  (exists address, clientResp env = Return address) /\
  (exists balance, balanceResp (chain env) = Return balance /\ balance <> 0) /\
  authorizedResp env = Return true /\
  (exists status,
      licenseResp (chain env) = Return status /\ lsCurrentBattery status <> 0) /\
  (exists owner, ownerResp env = Return owner) /\
  (cacheHit (clockGet (chain env)) 0 cache \/
   exists fresh, fetchResp (chain env) = Return fresh).

(** The checks that come before the capability pass. *)
Definition prechecksPass (env : SetupEnv) : Prop :=
  (exists address, clientResp env = Return address) /\
  (exists balance, balanceResp (chain env) = Return balance /\ balance <> 0) /\
  authorizedResp env = Return true /\
  (exists status,
      licenseResp (chain env) = Return status /\ lsCurrentBattery status <> 0) /\
  (exists owner, ownerResp env = Return owner).

(** A setup in which every read answers: a funded, authorized wallet and a
    charged license. *)
Definition setupOk : SetupEnv :=
  mkSetupEnv Sample.envOk (Return "0xabc") (Return true) (Return "0xowner")
             (Return 5).

(** An optional field of an object is not [undefined]. *)
Definition defined {A : Type} (o : option A) : bool :=
  match o with
  | Some _ => true
  | None => false
  end.

(** The condition under which [startCommand] goes on after the validation
    (the negation of its exit condition): valid, a client, the four amounts
    not [undefined], and an owner address that is truthy, that is present
    and not the empty string. *)
Definition startAccepts (v : Validation) : bool :=
  valid v && defined (vClient v) && defined (vFeePerBlock v) &&
  defined (vBalance v) && defined (vCubeBalance v) &&
  defined (vUnprocessedCube v) &&
  match vOwnerAddress v with
  | Some owner => negb (owner =? "")%string
  | None => false
  end.

(* ===================================================================== *)
(** ** network.ts: the network configuration and its cache *)
(* ===================================================================== *)

Module Network.

(** The parsed body of contracts.json, as far as [fetchNetworkConfig] reads
    it. A field that is absent is [None]; strings and numbers have the
    types that [NetworkConfig] declares. *)
Record RawNetwork := mkRawNetwork {
  rawName : option string;
  rawChainId : option Z;
  rawRpcUrl : option string;
  rawWsUrl : option string;
  rawExplorer : option string
}.

Record RawContracts := mkRawContracts {
  rawMegaCubeV5 : option (option string);      (* MegaCubeV5?.address *)
  rawOperatorLicense : option (option string);
  rawArtifactNFT : option (option string);
  rawCubed : option (option string)
}.

Record RawConfig := mkRawConfig {
  rawNetwork : option RawNetwork;
  rawContracts : option RawContracts
}.

(** The answer of [fetch]; [json] is the outcome of [response.json()], with
    [None] for a body that is the JSON null. *)
Record Response := mkResponse {
  ok : bool;
  status : Z;
  statusText : string;
  json : Outcome (option RawConfig)
}.

Record NetworkConfig := mkNetworkConfig {
  name : option string;
  chainId : Z;
  rpcUrl : string;
  wsUrl : option string;
  explorer : option string;
  megaCubeV5 : string;
  operatorLicense : string;
  artifactNFT : string;
  cubed : string;
  endpoints : string * string       (* relay, capability *)
}.

Definition ENDPOINTS : string * string :=
  ("wss://relay.megacorp.global/ws", "https://cap.megacorp.global")%string.

(** The module state: [cachedConfig], and the number of requests sent to
    CONTRACTS_URL so far. *)
Record NetState := mkNetState {
  cachedConfig : option NetworkConfig;
  requests : nat
}.

(** [contract?.address] *)
Definition addressOf (contract : option (option string)) : option string :=
  match contract with
  | Some address => address
  | None => None
  end.

(** Truthiness of an optional string and of an optional number. *)
Definition truthyString (o : option string) : bool :=
  match o with
  | Some s => negb (s =? "")%string
  | None => false
  end.

Definition truthyNumber (o : option Z) : bool :=
  match o with
  | Some z => negb (z =? 0)
  | None => false
  end.

Definition fetchNetworkConfig (resp : Outcome Response) (st : NetState)
    : Outcome NetworkConfig * NetState :=
  match cachedConfig st with
  | Some config => (Return config, st)
  | None =>
    let st1 := mkNetState None (S (requests st)) in
    match resp with
    | Throw t => (Throw t, st1)
    | Return response =>
      if negb (ok response) then
        (Throw (ErrorObj ("Failed to fetch network config: "
                          ++ showZ (status response) ++ " "
                          ++ statusText response)%string), st1)
      else
        match json response with
        | Throw t => (Throw t, st1)
        | Return None =>
          (* reading a property of null *)
          (Throw (ErrorObj "Cannot read properties of null"), st1)
        | Return (Some data) =>
          match rawNetwork data with
          | Some network =>
            if negb (truthyString (rawRpcUrl network))
               || negb (truthyNumber (rawChainId network)) then
              (Throw (ErrorObj
                 "Invalid network config: missing network.rpcUrl or network.chainId"),
               st1)
            else
              match rawContracts data with
              | Some contracts =>
                if negb (truthyString (addressOf (rawMegaCubeV5 contracts))) then
                  (Throw (ErrorObj
                     "Invalid network config: missing contracts.MegaCubeV5.address"),
                   st1)
                else if negb (truthyString
                                (addressOf (rawOperatorLicense contracts))) then
                  (Throw (ErrorObj
                     "Invalid network config: missing contracts.OperatorLicense.address"),
                   st1)
                else
                  (* the fields tested above are present and not empty
                     here, so reading them with a default is reading them *)
                  let config :=
                    mkNetworkConfig
                      (rawName network)
                      (match rawChainId network with Some z => z | None => 0 end)
                      (JS.orDefault (rawRpcUrl network) "")
                      (rawWsUrl network) (rawExplorer network)
                      (JS.orDefault (addressOf (rawMegaCubeV5 contracts)) "")
                      (JS.orDefault (addressOf (rawOperatorLicense contracts)) "")
                      (JS.orDefault (addressOf (rawArtifactNFT contracts)) "")
                      (JS.orDefault (addressOf (rawCubed contracts)) "")
                      ENDPOINTS in
                  (Return config, mkNetState (Some config) (S (requests st)))
              | None =>
                (Throw (ErrorObj
                   "Invalid network config: missing contracts.MegaCubeV5.address"),
                 st1)
              end
          | None =>
            (Throw (ErrorObj
               "Invalid network config: missing network.rpcUrl or network.chainId"),
             st1)
          end
        end
    end
  end.

Definition clearNetworkConfigCache (st : NetState) : NetState :=
  mkNetState None (requests st).

(** What every configuration that [fetchNetworkConfig] hands out has. *)
Definition complete (config : NetworkConfig) : Prop :=
  rpcUrl config <> ""%string /\ chainId config <> 0 /\
  megaCubeV5 config <> ""%string /\ operatorLicense config <> ""%string /\
  endpoints config = ENDPOINTS.

Definition cacheComplete (st : NetState) : Prop :=
  forall config, cachedConfig st = Some config -> complete config.

(** A body that passes the checks. *)
Definition goodResponse : Response :=
  mkResponse true 200 "OK"
    (Return (Some (mkRawConfig
       (Some (mkRawNetwork (Some "MegaETH") (Some 4326) (Some "https://rpc")
                           None None))
       (Some (mkRawContracts (Some (Some "0xcube")) (Some (Some "0xlicense"))
                             None None))))).

End Network.

(* ===================================================================== *)
(** ** commands/stop.ts: stopping the miner process *)
(* ===================================================================== *)

Module Stop.

(** What [process.kill] throws: an error whose code is ESRCH, or another
    one, with the text that the command prints for it. *)
Inductive KillError :=
| ESRCH
| OtherError (rendering : string).

(** What the command does to the outside: probes of [isProcessRunning],
    signals, waits, the removal of the PID file, and the four kinds of
    message (the banner and the spinner are left out). *)
Inductive Event :=
| Probe (pid : Z)
| Signal (pid : Z) (name : string)
| Sleep (ms : Z)
| RemovePidFile
| Warning (text : string)
| Info (text : string)
| Success (text : string)
| Failure (text : string).

(** The answers of the outside: what [readPidFile] returns, what the n-th
    call of [isProcessRunning] returns (counted from 0), and what the two
    signals throw, if anything. *)
Record Env := mkEnv {
  pidFile : option Z;
  running : nat -> bool;
  sigterm : option KillError;
  sigkill : option KillError
}.

(** The catch block. *)
Definition onError (e : KillError) : list Event :=
  match e with
  | ESRCH => [Warning "Process already stopped"; RemovePidFile]
  | OtherError rendering => [Failure rendering]
  end.

(** The while loop, from its test on: [probes] calls of [isProcessRunning]
    have been made, [attempts] waits are done. Returns what it does and
    the number of calls of [isProcessRunning] made when it ends. *)
Fixpoint waitLoop (fuel : nat) (env : Env) (pid : Z) (probes : nat)
    (attempts : Z) : list Event * nat :=
  if running env probes && (attempts <? 50) then
    match fuel with
    | O => ([Probe pid], S probes)
    | S fuel' =>
      let '(events, n) := waitLoop fuel' env pid (S probes) (attempts + 1) in
      (Probe pid :: Sleep 100 :: events, n)
    end
  else ([Probe pid], S probes).

Definition notFound : list Event :=
  [Warning "No mining process found"; Info "Mining may have already stopped"].

Definition stopCommand (env : Env) : list Event :=
  match pidFile env with
  | None => notFound
  | Some pid =>
    if pid =? 0 then notFound
    else if negb (running env 0) then
      [Probe pid; Warning "Mining process not running (stale PID file)";
       RemovePidFile; Info "Cleaned up stale PID file"]
    else
      Probe pid :: Signal pid "SIGTERM" ::
      match sigterm env with
      | Some e => onError e
      | None =>
        let '(events, n) := waitLoop 50 env pid 1 0 in
        events ++
        (if running env n then
           Probe pid :: Signal pid "SIGKILL" ::
           match sigkill env with
           | Some e => onError e
           | None => [RemovePidFile; Success "Mining stopped"]
           end
         else [Probe pid; Success "Mining stopped"])
      end
  end.

(** [k] rounds of the loop: a look that finds the process, and a wait. *)
Fixpoint waits (pid : Z) (k : nat) : list Event :=
  match k with
  | O => []
  | S k' => Probe pid :: Sleep 100 :: waits pid k'
  end.

(** What follows the loop when the process is found running after it. *)
Definition escalation (env : Env) (pid : Z) : list Event :=
  Probe pid :: Signal pid "SIGKILL" ::
  match sigkill env with
  | Some e => onError e
  | None => [RemovePidFile; Success "Mining stopped"]
  end.

Definition isSleep (ev : Event) : bool :=
  match ev with
  | Sleep _ => true
  | _ => false
  end.

Definition isSignal (ev : Event) : bool :=
  match ev with
  | Signal _ _ => true
  | _ => false
  end.

Definition isRemove (ev : Event) : bool :=
  match ev with
  | RemovePidFile => true
  | _ => false
  end.

Definition count (f : Event -> bool) (l : list Event) : nat :=
  List.length (filter f l).

(** A process that was seen stopped is not seen running later. *)
Definition staysStopped (env : Env) : Prop :=
  forall i j, (i <= j)%nat -> running env i = false -> running env j = false.

(** A process that ignores SIGTERM. *)
Definition stubborn : Env := mkEnv (Some 4242) (fun _ => true) None None.

(** A process that is gone at the fourth look. *)
Definition obedient : Env :=
  mkEnv (Some 4242) (fun n => (n <? 3)%nat) None None.

End Stop.

(* ===================================================================== *)
(** ** Properties of the capability cache *)
(* ===================================================================== *)

Lemma countEv_app p tr1 tr2 :
  countEv p (tr1 ++ tr2) = (countEv p tr1 + countEv p tr2)%nat.
Proof.
  unfold countEv. now rewrite filter_app, length_app.
Qed.

Lemma isCacheValid_pure dateNow cost s :
  exists b, isCacheValid dateNow cost s = (Return b, s).
Proof.
  unfold isCacheValid, bind, getCache, ret.
  destruct (capabilityCache s) as [entry|]; [|eauto].
  destruct (_ >=? _); [eauto|].
  destruct (_ <? _); eauto.
Qed.

Lemma isCacheValid_true_iff dateNow cost s :
  isCacheValid dateNow cost s = (Return true, s) <->
  cacheHit dateNow cost (capabilityCache s).
Proof.
  unfold isCacheValid, bind, getCache, ret, cacheHit.
  destruct (capabilityCache s) as [entry|].
  - destruct (Z.geb_spec (JS.floorDiv dateNow 1000)
                (expiresAt (capability (bundle entry)) - 30)) as [Hge|Hlt].
    + split; [discriminate|]. intros (x & Hx & ? & ?).
      injection Hx as <-. lia.
    + destruct (Z.ltb_spec (remainingBudget entry) cost) as [Hb|Hb].
      * split; [discriminate|]. intros (x & Hx & ? & ?).
        injection Hx as <-. lia.
      * split; [|reflexivity]. intros _. exists entry.
        repeat split; [assumption | lia].
  - split; [discriminate|]. intros (x & Hx & _). discriminate Hx.
Qed.

Lemma isCacheValid_false_iff dateNow cost s :
  isCacheValid dateNow cost s = (Return false, s) <->
  ~ cacheHit dateNow cost (capabilityCache s).
Proof.
  rewrite <- isCacheValid_true_iff.
  destruct (isCacheValid_pure dateNow cost s) as [[|] ->]; split;
    congruence.
Qed.

Lemma getCapability_hit e w d cost s entry :
  capabilityCache s = Some entry ->
  isCacheValid (clockGet e) cost s = (Return true, s) ->
  getCapability e w d cost s =
    (Return (bundle entry),
     mkState (Some (mkCached (bundle entry) (remainingBudget entry - cost)
                             (fetchedAt entry)))
             (ctx s) (trace s)).
Proof.
  intros Hc Hv. unfold getCapability, bind at 1. rewrite Hv.
  unfold bind, getCache, putCache, ret. now rewrite Hc.
Qed.

Lemma getCapability_miss e w d cost s :
  isCacheValid (clockGet e) cost s = (Return false, s) ->
  getCapability e w d cost s =
    match fetchResp e with
    | Return b =>
        (Return b,
         mkState (Some (mkCached b (budget (capability b) - cost)
                                 (clockFetched e)))
                 (ctx s) (trace s ++ [FetchCapability w CAP_MODE_MINE d]))
    | Throw t =>
        (Throw t,
         mkState (capabilityCache s) (ctx s)
                 (trace s ++ [FetchCapability w CAP_MODE_MINE d]))
    end.
Proof.
  intros Hv. unfold getCapability, bind at 1. rewrite Hv.
  unfold bind, fetchCapability, external, putCache, ret.
  now destruct (fetchResp e).
Qed.

(** C2. For every cost and every cache state, [getCapability] on a valid
    entry (present, more than 30 s before expiry, budget at least the cost)
    returns the cached bundle, makes no call to the outside and lowers
    [remainingBudget] by exactly the cost; otherwise it makes exactly one
    fetch, and with the fresh bundle the endpoint answers it replaces the
    entry with [remainingBudget = budget - cost] and returns that bundle. *)
Theorem getCapability_reuse_or_refresh e w d cost s :
  (forall entry,
      capabilityCache s = Some entry ->
      JS.floorDiv (clockGet e) 1000 < expiresAt (capability (bundle entry)) - 30 ->
      remainingBudget entry >= cost ->
      getCapability e w d cost s =
        (Return (bundle entry),
         mkState (Some (mkCached (bundle entry) (remainingBudget entry - cost)
                                 (fetchedAt entry)))
                 (ctx s) (trace s))) /\
  (~ cacheHit (clockGet e) cost (capabilityCache s) ->
   countEv isFetch (trace (snd (getCapability e w d cost s))) =
     S (countEv isFetch (trace s)) /\
   forall fresh,
     fetchResp e = Return fresh ->
     getCapability e w d cost s =
       (Return fresh,
        mkState (Some (mkCached fresh (budget (capability fresh) - cost)
                                (clockFetched e)))
                (ctx s) (trace s ++ [FetchCapability w CAP_MODE_MINE d]))).
Proof.
  split.
  - intros entry Hc Hnow Hbud.
    apply getCapability_hit; [assumption|].
    apply isCacheValid_true_iff. exists entry. auto.
  - intros Hmiss. apply isCacheValid_false_iff in Hmiss.
    rewrite (getCapability_miss _ _ _ _ _ Hmiss). split.
    + destruct (fetchResp e); cbn [snd trace]; rewrite countEv_app;
        cbn; lia.
    + now intros fresh ->.
Qed.

Lemma getCapability_reuse_or_refresh_witness :
  getCapability Sample.envOk "0xabc" 42 1 Sample.warm =
    (Return Sample.cap1,
     mkState (Some (mkCached Sample.cap1 48 1000000)) Sample.ctx0 []) /\
  getCapability Sample.envOk "0xabc" 42 1 Sample.cold =
    (Return Sample.cap1,
     mkState (Some (mkCached Sample.cap1 49 1001050)) Sample.ctx0
             [FetchCapability "0xabc" 1 42]).
Proof.
  split.
  - apply (proj1 (getCapability_reuse_or_refresh
                    Sample.envOk "0xabc" 42 1 Sample.warm)
             (mkCached Sample.cap1 49 1000000));
      [reflexivity | vm_compute; reflexivity | vm_compute; discriminate].
  - apply (proj2 (getCapability_reuse_or_refresh
                    Sample.envOk "0xabc" 42 1 Sample.cold)).
    + intros (entry & H & _). discriminate H.
    + reflexivity.
Defined.

(** C8. After [clearCapabilityCache] the next [getCapability] makes a
    fetch whatever the cache held, and [getRemainingBudget] answers 0 when
    there is no cache entry. *)
Theorem clear_forces_fetch_and_empty_budget_is_zero e w d cost s :
  capabilityCache (snd (clearCapabilityCache s)) = None /\
  trace (snd (getCapability e w d cost (snd (clearCapabilityCache s)))) =
    trace s ++ [FetchCapability w CAP_MODE_MINE d] /\
  (forall c tr,
      getRemainingBudget (mkState None c tr) = (Return 0, mkState None c tr)).
Proof.
  unfold clearCapabilityCache, putCache. cbn [snd capabilityCache].
  split; [reflexivity|]. split.
  - rewrite getCapability_miss by reflexivity.
    now destruct (fetchResp e).
  - reflexivity.
Qed.

(** What [getCapability] sends, by the validity of the cache at its own
    reading of the clock. *)
Lemma getCapability_trace e w d cost s :
  (cacheHit (clockGet e) cost (capabilityCache s) /\
   trace (snd (getCapability e w d cost s)) = trace s) \/
  (~ cacheHit (clockGet e) cost (capabilityCache s) /\
   trace (snd (getCapability e w d cost s)) =
     trace s ++ [FetchCapability w CAP_MODE_MINE d]).
Proof.
  destruct (isCacheValid_pure (clockGet e) cost s) as [[|] Hv].
  - left. pose proof Hv as Hhit. apply isCacheValid_true_iff in Hhit.
    split; [exact Hhit|]. destruct Hhit as (entry & Hc & _).
    now rewrite (getCapability_hit _ _ _ _ _ _ Hc Hv).
  - right. pose proof Hv as Hno. apply isCacheValid_false_iff in Hno.
    split; [exact Hno|]. rewrite (getCapability_miss _ _ _ _ _ Hv).
    now destruct (fetchResp e).
Qed.

(** C9. [needsCapabilityRefresh] leaves the state as it found it and
    answers false exactly when the cache is valid for the cost at its own
    reading of the clock; [getCapability] reads the clock again. When both
    read the same second, the answer is true exactly when [getCapability]
    with the same cost on that state makes a fetch, false exactly when it
    makes no call at all. When the second reading is not earlier, true
    still means that [getCapability] fetches; false means so only while
    the second reading is more than 30 s before the expiry of the cached
    capability, and a fetch otherwise. *)
Theorem needsCapabilityRefresh_mirrors_getCapability e w d cost s :
  exists b,
    needsCapabilityRefresh (clockNeeds e) cost s = (Return b, s) /\
    (b = false <-> cacheHit (clockNeeds e) cost (capabilityCache s)) /\
    (JS.floorDiv (clockNeeds e) 1000 = JS.floorDiv (clockGet e) 1000 ->
     (b = true <->
      trace (snd (getCapability e w d cost s)) =
        trace s ++ [FetchCapability w CAP_MODE_MINE d]) /\
     (b = false <-> trace (snd (getCapability e w d cost s)) = trace s)) /\
    (JS.floorDiv (clockNeeds e) 1000 <= JS.floorDiv (clockGet e) 1000 ->
     b = true ->
     trace (snd (getCapability e w d cost s)) =
       trace s ++ [FetchCapability w CAP_MODE_MINE d]) /\
    (b = false ->
     forall entry,
       capabilityCache s = Some entry ->
       (trace (snd (getCapability e w d cost s)) = trace s <->
        JS.floorDiv (clockGet e) 1000
          < expiresAt (capability (bundle entry)) - 30) /\
       (trace (snd (getCapability e w d cost s)) =
          trace s ++ [FetchCapability w CAP_MODE_MINE d] <->
        expiresAt (capability (bundle entry)) - 30
          <= JS.floorDiv (clockGet e) 1000)).
Proof.
  assert (Hne : forall (l : list Event) x, l ++ [x] <> l).
  { intros l x H. apply (f_equal (@List.length _)) in H.
    rewrite length_app in H. cbn in H. lia. }
  unfold needsCapabilityRefresh, bind at 1.
  destruct (isCacheValid_pure (clockNeeds e) cost s) as [v Hv]. rewrite Hv.
  exists (negb v). split; [reflexivity|].
  assert (Hprobe : negb v = false <->
                   cacheHit (clockNeeds e) cost (capabilityCache s)).
  { rewrite <- isCacheValid_true_iff, Hv. destruct v; cbn; split; congruence. }
  split; [exact Hprobe|].
  destruct (getCapability_trace e w d cost s) as [(Hhit & ->) | (Hno & ->)].
  - (* the acquisition finds the cache valid *)
    split; [|split].
    + intros Hsame.
      assert (Hp : cacheHit (clockNeeds e) cost (capabilityCache s))
        by (unfold cacheHit in *; now rewrite Hsame).
      apply Hprobe in Hp. rewrite Hp.
      split; split; try discriminate; try reflexivity.
      intros H. symmetry in H. now apply Hne in H.
    + intros Hlater Hb. exfalso.
      assert (Hp : cacheHit (clockNeeds e) cost (capabilityCache s)).
      { destruct Hhit as (entry & Hc & Ht & Hbud). exists entry.
        repeat split; [assumption | lia | assumption]. }
      apply Hprobe in Hp. congruence.
    + intros _ entry Hc. destruct Hhit as (entry' & Hc' & Ht & _).
      assert (entry' = entry) by congruence. subst entry'.
      split; split; try reflexivity; try (intros _; assumption).
      * intros H. symmetry in H. now apply Hne in H.
      * intros H. exfalso. lia.
  - (* the acquisition finds it not valid *)
    split; [|split].
    + intros Hsame.
      assert (Hp : ~ cacheHit (clockNeeds e) cost (capabilityCache s))
        by (unfold cacheHit in *; now rewrite Hsame).
      assert (Hb : negb v = true)
        by (destruct (negb v); [reflexivity | exfalso; now apply Hp, Hprobe]).
      rewrite Hb. split; split; try discriminate; try reflexivity.
      intros H. now apply Hne in H.
    + reflexivity.
    + intros Hb entry Hc. apply Hprobe in Hb.
      destruct Hb as (entry' & Hc' & Ht & Hbud).
      assert (entry' = entry) by congruence. subst entry'.
      assert (Hexp : expiresAt (capability (bundle entry)) - 30
                     <= JS.floorDiv (clockGet e) 1000).
      { destruct (Z.le_gt_cases (expiresAt (capability (bundle entry)) - 30)
                    (JS.floorDiv (clockGet e) 1000)) as [H|H]; [exact H|].
        exfalso. apply Hno. exists entry. repeat split; assumption. }
      split; split; try reflexivity; try (intros _; assumption).
      * intros H. now apply Hne in H.
      * intros H. exfalso. lia.
Qed.

(** C9, as the specification states it, fails: the probe and the
    acquisition each read the clock. Below, the capability expires at
    second 1100; the probe, at second 1069, answers false, and the
    acquisition that follows on the same state, at second 1070, fetches
    all the same. *)
Example probe_and_acquisition_read_the_clock_separately :
  needsCapabilityRefresh 1069999 1 Sample.warm = (Return false, Sample.warm) /\
  trace (snd (getCapability
                (mkEnv 0 0 1069999 1070000 1070000 (Return Sample.cap1)
                   (Return tt) (Return "0xhash") (Return ReceiptSuccess)
                   (Return (mkLicense 1 1 100 80 0)) 0
                   (Return 0) (Return 0) (Return 0) (Return tt))
                "0xabc" 42 1 Sample.warm)) =
    [FetchCapability "0xabc" 1 42].
Proof. split; reflexivity. Qed.

(** C10. With cost 0 on an empty cache [getCapability] fetches and leaves
    [remainingBudget] at the full budget of the fresh capability; with
    cost 0 on a valid entry it returns the cached bundle and leaves the
    whole state, [remainingBudget] included, as it was. *)
Theorem getCapability_cost_zero e w d :
  (forall c tr fresh,
      fetchResp e = Return fresh ->
      getCapability e w d 0 (mkState None c tr) =
        (Return fresh,
         mkState (Some (mkCached fresh (budget (capability fresh))
                                 (clockFetched e)))
                 c (tr ++ [FetchCapability w CAP_MODE_MINE d]))) /\
  (forall s entry,
      capabilityCache s = Some entry ->
      JS.floorDiv (clockGet e) 1000 < expiresAt (capability (bundle entry)) - 30 ->
      remainingBudget entry >= 0 ->
      getCapability e w d 0 s = (Return (bundle entry), s)).
Proof.
  split.
  - intros c tr fresh Hf.
    rewrite getCapability_miss by reflexivity. rewrite Hf. cbn.
    now rewrite Z.sub_0_r.
  - intros s entry Hc Hnow Hbud.
    rewrite (getCapability_hit e w d 0 s entry Hc).
    + rewrite Z.sub_0_r. destruct s as [cache c tr], entry as [b r f].
      cbn in *. now subst cache.
    + apply isCacheValid_true_iff. exists entry. auto.
Qed.

Lemma getCapability_cost_zero_witness :
  getCapability Sample.envOk "0xabc" 42 0 Sample.cold =
    (Return Sample.cap1,
     mkState (Some (mkCached Sample.cap1 50 1001050)) Sample.ctx0
             [FetchCapability "0xabc" 1 42]) /\
  getCapability Sample.envOk "0xabc" 42 0 Sample.warm =
    (Return Sample.cap1, Sample.warm).
Proof.
  split.
  - apply (proj1 (getCapability_cost_zero Sample.envOk "0xabc" 42)
             Sample.ctx0 [] Sample.cap1). reflexivity.
  - apply (proj2 (getCapability_cost_zero Sample.envOk "0xabc" 42)
             Sample.warm (mkCached Sample.cap1 49 1000000));
      [reflexivity | vm_compute; reflexivity | vm_compute; discriminate].
Defined.

(* ===================================================================== *)
(** ** Properties of [decomposeContainer] *)
(* ===================================================================== *)

Lemma decomposeContainer_ranges containerId :
  0 <= containerId < CONTAINERS_PER_LAYER ->
  let l := decomposeContainer containerId in
  0 <= face l < 6 /\ 0 <= sector l < 256 /\ 0 <= region l < 256 /\
  0 <= container l < 4.
Proof.
  unfold CONTAINERS_PER_LAYER, decomposeContainer, JS.rem, JS.floorDiv.
  intros H. cbn [face sector region container].
  assert (0 <= containerId / 4 < 393216)
    by (split; [apply Z.div_pos | apply Z.div_lt_upper_bound]; lia).
  assert (0 <= containerId / 4 / 256 < 1536)
    by (split; [apply Z.div_pos | apply Z.div_lt_upper_bound]; lia).
  rewrite !Z.rem_mod_nonneg by lia.
  repeat split; try (apply Z.mod_pos_bound; lia);
    try (apply Z.div_pos; lia); try (apply Z.div_lt_upper_bound; lia).
Qed.

(** C4. For every container id in [0, CONTAINERS_PER_LAYER), putting the
    four components of [decomposeContainer] back together with
    ((face*256 + sector)*256 + region)*4 + container gives the id again. *)
Theorem decomposeContainer_right_inverse containerId :
  0 <= containerId < CONTAINERS_PER_LAYER ->
  recompose (decomposeContainer containerId) = containerId.
Proof.
  unfold recompose, decomposeContainer, JS.rem, JS.floorDiv.
  intros H. cbn [face sector region container].
  assert (0 <= containerId / 4) by (apply Z.div_pos; lia).
  assert (0 <= containerId / 4 / 256) by (apply Z.div_pos; lia).
  rewrite !Z.rem_mod_nonneg by lia.
  pose proof (Z.div_mod containerId 4).
  pose proof (Z.div_mod (containerId / 4) 256).
  pose proof (Z.div_mod (containerId / 4 / 256) 256).
  lia.
Qed.

Lemma decomposeContainer_right_inverse_witness :
  recompose (decomposeContainer 1234567) = 1234567.
Proof.
  apply (decomposeContainer_right_inverse 1234567).
  unfold CONTAINERS_PER_LAYER. lia.
Defined.

(* ===================================================================== *)
(** ** Properties of [destroyBlock] *)
(* ===================================================================== *)

Lemma simCatch_fails t : success (simCatch t) = false.
Proof.
  unfold simCatch.
  repeat match goal with
         | |- context [if ?b then _ else _] => destruct b
         end; reflexivity.
Qed.

Lemma destroyBlock_sim_throw e lic cid bid cap fee s t :
  simResp e = Throw t ->
  destroyBlock e lic cid bid cap fee s =
    (Return (simCatch t),
     mkState (capabilityCache s) (ctx s)
             (trace s ++ [SimulateContract lic cid bid fee])).
Proof.
  intros H. unfold destroyBlock, tryCatch, bind, external, ret.
  now rewrite H.
Qed.

(** C3. Whatever [simulateContract] throws, [destroyBlock] returns the
    failure result of the simulation's own catch block, and the only call
    it has made is the simulation: [writeContract] is not invoked. *)
Theorem simulation_failure_never_submits e lic cid bid cap fee s t :
  simResp e = Throw t ->
  exists r,
    destroyBlock e lic cid bid cap fee s =
      (Return r,
       mkState (capabilityCache s) (ctx s)
               (trace s ++ [SimulateContract lic cid bid fee])) /\
    r = simCatch t /\ success r = false /\
    countEv isWrite (trace (snd (destroyBlock e lic cid bid cap fee s))) =
      countEv isWrite (trace s).
Proof.
  intros H. exists (simCatch t).
  rewrite (destroyBlock_sim_throw _ _ _ _ _ _ _ _ H).
  repeat split; [apply simCatch_fails|].
  cbn [snd trace]. rewrite countEv_app. cbn. lia.
Qed.

Lemma simulation_failure_never_submits_witness :
  exists r,
    destroyBlock
      (Sample.withSim (Throw (ErrorObj "execution reverted: Already destroyed"))
                      Sample.envOk)
      42 1234567 17 Sample.cap1 0 Sample.warm =
      (Return r,
       mkState (capabilityCache Sample.warm) (ctx Sample.warm)
               (trace Sample.warm ++ [SimulateContract 42 1234567 17 0])) /\
    r = simCatch (ErrorObj "execution reverted: Already destroyed") /\
    success r = false /\
    countEv isWrite
      (trace (snd (destroyBlock
                     (Sample.withSim
                        (Throw (ErrorObj "execution reverted: Already destroyed"))
                        Sample.envOk)
                     42 1234567 17 Sample.cap1 0 Sample.warm))) =
      countEv isWrite (trace Sample.warm).
Proof.
  apply (simulation_failure_never_submits
           (Sample.withSim
              (Throw (ErrorObj "execution reverted: Already destroyed"))
              Sample.envOk)
           42 1234567 17 Sample.cap1 0 Sample.warm
           (ErrorObj "execution reverted: Already destroyed")).
  reflexivity.
Defined.

(** Scenario B of the specification. *)
Example scenario_B :
  fst (destroyBlock
         (Sample.withSim (Throw (ErrorObj "execution reverted: Already destroyed"))
                         Sample.envOk)
         42 1234567 17 Sample.cap1 0 Sample.warm) =
  Return (mkResult false None (Some "Already destroyed") (Some true)).
Proof. reflexivity. Qed.

(** The order of the rows decides: a message with both already destroyed
    and capability expired is already destroyed, in either phase. *)
Example priority_of_already_destroyed :
  simCatch (ErrorObj "Capability expired; block Already Destroyed") =
    mkResult false None (Some "Already destroyed") (Some true) /\
  submitCatch (ErrorObj "Capability expired; block Already Destroyed") =
    mkResult false None (Some "Already destroyed") (Some true).
Proof. split; reflexivity. Qed.

(** The reverted-with-reason pattern at work: a bare reason, a reason in
    double quotes, a match that ignores case, a run of separators that
    gives back its last code unit, and no match without a separator. *)
Example matchReason_samples :
  RevertRegex.matchReason "tx reverted with reason: Slot taken" =
    Some "Slot taken" /\
  RevertRegex.matchReason
    ("tx reverted with reason: "
       ++ String RevertRegex.quote ("Slot taken"
       ++ String RevertRegex.quote " (code 3)"))%string =
    Some "Slot taken" /\
  RevertRegex.matchReason "TX REVERTED WITH REASON Slot taken" =
    Some "Slot taken" /\
  RevertRegex.matchReason "tx reverted with reason: " = Some " " /\
  RevertRegex.matchReason "tx reverted with reason" = None.
Proof. repeat split; reflexivity. Qed.

(** *** The two classification tables *)

Lemma simCatch_table t :
  simCatch t = classifyWith simTable simUnmatched (messageOf t).
Proof.
  unfold simCatch, classifyWith, simTable, simUnmatched.
  generalize (JS.toLowerCase (messageOf t)) as lower. intros lower.
  cbn [firstMatch existsb]. rewrite !orb_false_r.
  repeat match goal with
         | |- context [JS.includes lower ?k] =>
             destruct (JS.includes lower k); try reflexivity
         end.
Qed.

Lemma submitCatch_table t :
  submitCatch t = classifyWith submitTable submitUnmatched (messageOf t).
Proof.
  unfold submitCatch, classifyWith, submitTable, submitUnmatched.
  generalize (JS.toLowerCase (messageOf t)) as lower. intros lower.
  cbn [firstMatch existsb]. rewrite !orb_false_r.
  repeat match goal with
         | |- context [JS.includes lower ?k] =>
             destruct (JS.includes lower k); cbn [orb]; try reflexivity
         end.
Qed.

Lemma destroyBlock_submit_throw e lic cid bid cap fee s t :
  simResp e = Return tt ->
  writeResp e = Throw t \/
  (exists h, writeResp e = Return h /\ receiptResp e = Throw t) ->
  fst (destroyBlock e lic cid bid cap fee s) = Return (submitCatch t).
Proof.
  intros Hs Hw. unfold destroyBlock, tryCatch, bind, external, ret.
  rewrite Hs. destruct Hw as [Hw | (h & Hw & Hr)]; rewrite Hw; cbn;
    [reflexivity | now rewrite Hr].
Qed.

(** C1, as the code has it. [destroyBlock] classifies with two tables, one
    per phase, each tried in priority order on the lowercased message with
    the first match winning. A throw of the simulation goes through
    [simTable] and otherwise becomes the message prefixed and cut to 150
    code units; a throw of the submission or of the receipt wait goes
    through [submitTable] and otherwise through the reverted-with-reason
    pattern, then to the whole message. *)
Theorem destroyBlock_classifies_per_phase e lic cid bid cap fee s t :
  (simResp e = Throw t ->
   fst (destroyBlock e lic cid bid cap fee s) =
     Return (classifyWith simTable simUnmatched (messageOf t))) /\
  (simResp e = Return tt ->
   writeResp e = Throw t \/
   (exists h, writeResp e = Return h /\ receiptResp e = Throw t) ->
   fst (destroyBlock e lic cid bid cap fee s) =
     Return (classifyWith submitTable submitUnmatched (messageOf t))).
Proof.
  split.
  - intros H. rewrite (destroyBlock_sim_throw _ _ _ _ _ _ _ _ H).
    cbn [fst]. now rewrite simCatch_table.
  - intros Hs Hw. rewrite (destroyBlock_submit_throw _ _ _ _ _ _ _ _ Hs Hw).
    now rewrite submitCatch_table.
Qed.

Lemma destroyBlock_classifies_per_phase_witness :
  fst (destroyBlock
         (Sample.withSim (Throw (ErrorObj "Budget too low")) Sample.envOk)
         42 1234567 17 Sample.cap1 0 Sample.warm) =
    Return (failed "Capability budget too low (cap.budget < cost)") /\
  fst (destroyBlock
         (Sample.withWrite (Throw (ErrorObj "Budget too low")) Sample.envOk)
         42 1234567 17 Sample.cap1 0 Sample.warm) =
    Return (failed "Capability budget exhausted").
Proof.
  split.
  - apply (proj1 (destroyBlock_classifies_per_phase
                    (Sample.withSim (Throw (ErrorObj "Budget too low"))
                                    Sample.envOk)
                    42 1234567 17 Sample.cap1 0 Sample.warm
                    (ErrorObj "Budget too low"))).
    reflexivity.
  - apply (proj2 (destroyBlock_classifies_per_phase
                    (Sample.withWrite (Throw (ErrorObj "Budget too low"))
                                      Sample.envOk)
                    42 1234567 17 Sample.cap1 0 Sample.warm
                    (ErrorObj "Budget too low"))).
    + reflexivity.
    + left. reflexivity.
Defined.

(** C1, as the specification states it, fails: on the message below the
    simulation phase answers an unclassified error where the submission
    phase (and the row of the table for tile already) answers already
    destroyed, so no single table gives the outcome of both phases. *)
Lemma shared_table_counterexample :
  fst (destroyBlock
         (Sample.withSim
            (Throw (ErrorObj "execution reverted: Tile already mined"))
            Sample.envOk)
         42 1234567 17 Sample.cap1 0 Sample.warm) =
    Return (failed "Sim: execution reverted: Tile already mined") /\
  fst (destroyBlock
         (Sample.withWrite
            (Throw (ErrorObj "execution reverted: Tile already mined"))
            Sample.envOk)
         42 1234567 17 Sample.cap1 0 Sample.warm) =
    Return (mkResult false None (Some "Already destroyed") (Some true)) /\
  ~ (exists classify : string -> DestroyResult,
        forall t', simCatch t' = classify (messageOf t') /\
                   submitCatch t' = classify (messageOf t')).
Proof.
  split; [reflexivity|]. split; [reflexivity|].
  intros (classify & H).
  destruct (H (ErrorObj "execution reverted: Tile already mined")) as [H1 H2].
  rewrite <- H2 in H1. vm_compute in H1. discriminate H1.
Qed.

(* ===================================================================== *)
(** ** Properties of the mining loop *)
(* ===================================================================== *)

Lemma quiet_count p tr :
  Forall (fun ev => quiet ev = true) tr ->
  (forall ev, p ev = true -> quiet ev = false) ->
  countEv p tr = 0%nat.
Proof.
  intros Hq Hp. induction Hq as [|ev tr Hev _ IH]; [reflexivity|].
  unfold countEv in *. cbn [filter].
  destruct (p ev) eqn:E; [|exact IH].
  apply Hp in E. congruence.
Qed.

Lemma minePrologue_spec e s :
  exists c',
    minePrologue e s = (Return tt, mkState (capabilityCache s) c' (trace s)) /\
    core c' = core (ctx s).
Proof. eexists. split; reflexivity. Qed.

Lemma destroyBlock_spec e lic cid bid cap fee s :
  exists tr,
    destroyBlock e lic cid bid cap fee s =
      (Return (destroyResultOf e),
       mkState (capabilityCache s) (ctx s) (trace s ++ tr)) /\
    Forall (fun ev => quiet ev = true) tr.
Proof.
  unfold destroyBlock, destroyResultOf. exec.
  destruct (simResp e) as [[]|t]; cbn.
  - destruct (writeResp e) as [h|t]; cbn.
    + destruct (receiptResp e) as [[]|t]; cbn; rewrite <- ?app_assoc;
        eexists; (split; [reflexivity|]); all_quiet.
    + rewrite <- ?app_assoc. eexists; (split; [reflexivity|]); all_quiet.
  - eexists; (split; [reflexivity|]); all_quiet.
Qed.

Lemma mineAcquire_ok e s :
  acquires e s ->
  exists cap s1 tr,
    mineAcquire e s = (Return cap, s1) /\
    core (ctx s1) = core (ctx s) /\
    trace s1 = trace s ++ tr /\
    Forall (fun ev => quiet ev = true) tr.
Proof.
  intros Hacq. unfold mineAcquire, bind at 1.
  unfold needsCapabilityRefresh, bind at 1.
  destruct (isCacheValid_pure (clockNeeds e) 1 s) as [v1 ->].
  cbn [ret]. unfold bind at 1. cbn [getCtx]. unfold bind at 1.
  destruct (isCacheValid_pure (clockGet e) 1 s) as [[|] Hv].
  - pose proof Hv as Hhit. apply isCacheValid_true_iff in Hhit.
    destruct Hhit as (entry & Hc & _).
    rewrite (getCapability_hit _ _ _ _ _ _ Hc Hv).
    destruct v1; exec;
      [|destruct (onCapabilityRefresh (callbacks (ctx s)))]; exec;
      do 3 eexists; (split; [reflexivity|]); (split; [reflexivity|]);
      (split; [extends | all_quiet]).
  - rewrite (getCapability_miss _ _ _ _ _ Hv).
    destruct Hacq as [Hhit | (fresh & Hf)].
    + apply isCacheValid_true_iff in Hhit. congruence.
    + rewrite Hf.
      destruct v1; exec;
        [|destruct (onCapabilityRefresh (callbacks (ctx s)))]; exec;
        do 3 eexists; (split; [reflexivity|]); (split; [reflexivity|]);
        (split; [extends | all_quiet]).
Qed.

Lemma mineAcquire_throw e s t s1 :
  mineAcquire e s = (Throw t, s1) ->
  fetchResp e = Throw t /\ ~ acquires e s /\
  s1 = mkState (capabilityCache s) (ctx s)
         (trace s ++ [FetchCapability (accountAddress (ctx s)) CAP_MODE_MINE
                                      (droneId (ctx s))]).
Proof.
  unfold mineAcquire, bind at 1.
  unfold needsCapabilityRefresh, bind at 1.
  destruct (isCacheValid_pure (clockNeeds e) 1 s) as [v1 ->].
  cbn [ret]. unfold bind at 1. cbn [getCtx]. unfold bind at 1.
  destruct (isCacheValid_pure (clockGet e) 1 s) as [[|] Hv].
  - pose proof Hv as Hhit. apply isCacheValid_true_iff in Hhit.
    destruct Hhit as (entry & Hc & _).
    rewrite (getCapability_hit _ _ _ _ _ _ Hc Hv).
    destruct v1; exec;
      [|destruct (onCapabilityRefresh (callbacks (ctx s)))];
      exec; discriminate.
  - rewrite (getCapability_miss _ _ _ _ _ Hv).
    destruct (fetchResp e) as [fresh|t'] eqn:Hf.
    + destruct v1; exec;
        [|destruct (onCapabilityRefresh (callbacks (ctx s)))];
        exec; discriminate.
    + cbn. intros H. injection H as -> <-.
      split; [reflexivity|]. split; [|reflexivity].
      intros [Hhit | (fresh & Hf')]; [|congruence].
      apply isCacheValid_true_iff in Hhit. congruence.
Qed.

Lemma mineAcquire_throw_iff e s :
  ~ acquires e s ->
  exists t,
    fetchResp e = Throw t /\
    mineAcquire e s =
      (Throw t,
       mkState (capabilityCache s) (ctx s)
         (trace s ++ [FetchCapability (accountAddress (ctx s)) CAP_MODE_MINE
                                      (droneId (ctx s))])).
Proof.
  intros Hn. unfold mineAcquire, bind at 1.
  unfold needsCapabilityRefresh, bind at 1.
  destruct (isCacheValid_pure (clockNeeds e) 1 s) as [v1 ->].
  cbn [ret]. unfold bind at 1. cbn [getCtx]. unfold bind at 1.
  destruct (isCacheValid_pure (clockGet e) 1 s) as [[|] Hv].
  - exfalso. apply Hn. left. now apply isCacheValid_true_iff.
  - rewrite (getCapability_miss _ _ _ _ _ Hv).
    destruct (fetchResp e) as [fresh|t] eqn:Hf.
    + exfalso. apply Hn. right. eauto.
    + exists t. split; reflexivity.
Qed.

Lemma mineOnSuccess_spec e cid bid r s :
  exists s' tr,
    mineOnSuccess e cid bid r s = (Return tt, s') /\
    capabilityCache s' = capabilityCache s /\
    core (ctx s') =
      (droneId (ctx s), accountAddress (ctx s), feePerBlock (ctx s),
       ownerAddress (ctx s), callbacks (ctx s),
       (running (ctx s), lastError (ctx s),
        fst (batteryAfterSuccess e (blocksDestroyed (stats (ctx s)))
               (currentBattery (ctx s)) (maxBattery (ctx s))),
        snd (batteryAfterSuccess e (blocksDestroyed (stats (ctx s)))
               (currentBattery (ctx s)) (maxBattery (ctx s)))),
       (blocksDestroyed (stats (ctx s)) + 1,
        blocksAlreadyDestroyed (stats (ctx s)), errors (stats (ctx s)))) /\
    trace s' = trace s ++ tr /\
    countEv isGetLicense tr =
      (if resyncDue (blocksDestroyed (stats (ctx s))) then 1 else 0)%nat /\
    countEv isCbBatteryDepleted tr = 0%nat /\
    countEv isCbError tr = 0%nat.
Proof.
  unfold mineOnSuccess, batteryAfterSuccess, resyncDue, decremented. exec.
  destruct (onBlockDestroyed (callbacks (ctx s))); exec;
    destruct (currentBattery (ctx s) >? 0); exec;
    destruct (JS.rem (blocksDestroyed (stats (ctx s)) + 1) 25 =? 0); exec;
    try destruct (licenseResp e); exec;
    do 2 eexists; (split; [reflexivity|]); (split; [reflexivity|]);
    (split; [reflexivity|]); (split; [extends|]); repeat split.
Qed.

Lemma mineOnAlreadyDestroyed_spec cid bid s :
  exists s' tr,
    mineOnAlreadyDestroyed cid bid s = (Return tt, s') /\
    capabilityCache s' = capabilityCache s /\
    core (ctx s') =
      (droneId (ctx s), accountAddress (ctx s), feePerBlock (ctx s),
       ownerAddress (ctx s), callbacks (ctx s),
       (running (ctx s), lastError (ctx s),
        currentBattery (ctx s), maxBattery (ctx s)),
       (blocksDestroyed (stats (ctx s)),
        blocksAlreadyDestroyed (stats (ctx s)) + 1, errors (stats (ctx s)))) /\
    trace s' = trace s ++ tr /\
    Forall (fun ev => quiet ev = true) tr.
Proof.
  unfold mineOnAlreadyDestroyed. exec.
  destruct (onBlockAlreadyDestroyed (callbacks (ctx s))); exec;
    do 2 eexists; (split; [reflexivity|]); (split; [reflexivity|]);
    (split; [reflexivity|]); (split; [extends | all_quiet]).
Qed.

Lemma mineOnFailure_spec r s :
  exists s',
    mineOnFailure r s = (Return tt, s') /\
    capabilityCache s' =
      (if looksCapabilityRelated (JS.lowerOrEmpty (error r)) then None
       else capabilityCache s) /\
    core (ctx s') =
      (droneId (ctx s), accountAddress (ctx s), feePerBlock (ctx s),
       ownerAddress (ctx s), callbacks (ctx s),
       (if looksDepleted (JS.lowerOrEmpty (error r)) then false
        else running (ctx s),
        JS.orDefault (error r) "Unknown error",
        currentBattery (ctx s), maxBattery (ctx s)),
       (blocksDestroyed (stats (ctx s)),
        blocksAlreadyDestroyed (stats (ctx s)), errors (stats (ctx s)) + 1)) /\
    trace s' = trace s ++ failureEvents (callbacks (ctx s)) r.
Proof.
  unfold mineOnFailure, failureEvents. exec.
  destruct (onError (callbacks (ctx s))); exec;
    destruct (looksCapabilityRelated (JS.lowerOrEmpty (error r))); exec;
    destruct (looksDepleted (JS.lowerOrEmpty (error r))); exec;
    try destruct (onBatteryDepleted (callbacks (ctx s))); exec;
    eexists; (split; [reflexivity|]); (split; [reflexivity|]);
    (split; [reflexivity|]); extends.
Qed.

Lemma mineCatch_spec t s :
  exists s',
    mineCatch t s = (Return tt, s') /\
    capabilityCache s' =
      (if looksCapabilityRelated (JS.toLowerCase (messageOf t)) then None
       else capabilityCache s) /\
    core (ctx s') =
      (droneId (ctx s), accountAddress (ctx s), feePerBlock (ctx s),
       ownerAddress (ctx s), callbacks (ctx s),
       (running (ctx s), messageOf t,
        currentBattery (ctx s), maxBattery (ctx s)),
       (blocksDestroyed (stats (ctx s)),
        blocksAlreadyDestroyed (stats (ctx s)), errors (stats (ctx s)) + 1)) /\
    trace s' = trace s ++ catchEvents (callbacks (ctx s)) t.
Proof.
  unfold mineCatch, catchEvents. exec.
  destruct (onError (callbacks (ctx s))); exec;
    destruct (looksCapabilityRelated (JS.toLowerCase (messageOf t))); exec;
    eexists; (split; [reflexivity|]); (split; [reflexivity|]);
    (split; [reflexivity|]); extends.
Qed.

Lemma mineEpilogue_spec e s :
  exists s' tr,
    mineEpilogue e s = (Return tt, s') /\
    capabilityCache s' = capabilityCache s /\
    core (ctx s') = core (ctx s) /\
    trace s' = trace s ++ tr /\
    Forall (fun ev => quiet ev = true) tr.
Proof.
  unfold mineEpilogue. exec.
  destruct (gridIndex (ctx s) + 1 >=? 100); exec;
    (destruct (JS.rem (blocksDestroyed (stats (ctx s)) + errors (stats (ctx s))) 5
               =? 0); exec;
     [destruct (balanceResp e); exec;
      [destruct (unprocessedResp e); exec; destruct (cubeResp e); exec|]|]);
    destruct (onStats (callbacks (ctx s))); exec;
    do 2 eexists; (split; [reflexivity|]); (split; [reflexivity|]);
    (split; [reflexivity|]); (split; [extends | all_quiet]).
Qed.

Lemma bind_ok {A B} (m : M A) (k : A -> M B) s a s1 :
  m s = (Return a, s1) -> bind m k s = k a s1.
Proof. unfold bind. now intros ->. Qed.

Lemma bind_throw {A B} (m : M A) (k : A -> M B) s t s1 :
  m s = (Throw t, s1) -> bind m k s = (Throw t, s1).
Proof. unfold bind. now intros ->. Qed.

Lemma tryCatch_ok {A} (m : M A) (h : Thrown -> M A) s a s1 :
  m s = (Return a, s1) -> tryCatch m h s = (Return a, s1).
Proof. unfold tryCatch. now intros ->. Qed.

Lemma tryCatch_throw {A} (m : M A) (h : Thrown -> M A) s t s1 :
  m s = (Throw t, s1) -> tryCatch m h s = h t s1.
Proof. unfold tryCatch. now intros ->. Qed.

Lemma countEv_quiet_license tr :
  Forall (fun ev => quiet ev = true) tr -> countEv isGetLicense tr = 0%nat.
Proof. intros H. apply (quiet_count _ _ H). now intros []. Qed.

Lemma countEv_quiet_depleted tr :
  Forall (fun ev => quiet ev = true) tr ->
  countEv isCbBatteryDepleted tr = 0%nat.
Proof. intros H. apply (quiet_count _ _ H). now intros []. Qed.

Lemma countEv_quiet_error tr :
  Forall (fun ev => quiet ev = true) tr -> countEv isCbError tr = 0%nat.
Proof. intros H. apply (quiet_count _ _ H). now intros []. Qed.

Lemma acquires_cache e s s0 :
  capabilityCache s0 = capabilityCache s -> acquires e s0 <-> acquires e s.
Proof. unfold acquires. now intros ->. Qed.

(** An iteration whose [try] block throws. *)
Lemma mineOnce_raised e s :
  ~ acquires e s ->
  exists t s' tr,
    fetchResp e = Throw t /\
    mineOnce e s = (Return tt, s') /\
    capabilityCache s' =
      (if looksCapabilityRelated (JS.toLowerCase (messageOf t)) then None
       else capabilityCache s) /\
    core (ctx s') =
      (droneId (ctx s), accountAddress (ctx s), feePerBlock (ctx s),
       ownerAddress (ctx s), callbacks (ctx s),
       (running (ctx s), messageOf t,
        currentBattery (ctx s), maxBattery (ctx s)),
       (blocksDestroyed (stats (ctx s)),
        blocksAlreadyDestroyed (stats (ctx s)), errors (stats (ctx s)) + 1)) /\
    trace s' = trace s ++ tr /\
    countEv isCbError tr = (if onError (callbacks (ctx s)) then 1 else 0)%nat /\
    (onError (callbacks (ctx s)) = true -> In (CbError (messageOf t)) tr) /\
    countEv isGetLicense tr = 0%nat /\
    countEv isCbBatteryDepleted tr = 0%nat.
Proof.
  intros Hn.
  destruct (minePrologue_spec e s) as (c0 & Hp & Hc0).
  set (s0 := mkState (capabilityCache s) c0 (trace s)) in *.
  assert (Hn0 : ~ acquires e s0)
    by (intros H; apply Hn; revert H; now apply acquires_cache).
  destruct (mineAcquire_throw_iff e s0 Hn0) as (t & Hf & Ha).
  assert (Hmt := bind_throw _
    (fun cap =>
       c <- getCtx ;;
       result <- destroyBlock e (droneId c) (randomContainer e)
                   (randomBlock e) cap (feePerBlock c) ;;
       if success result
       then mineOnSuccess e (randomContainer e) (randomBlock e) result
       else if JS.truthy (alreadyDestroyed result)
            then mineOnAlreadyDestroyed (randomContainer e) (randomBlock e)
            else mineOnFailure result) _ _ _ Ha).
  fold (mineTry e (randomContainer e) (randomBlock e)) in Hmt.
  match type of Hmt with _ = (_, ?x) => set (s1 := x) in * end.
  destruct (mineCatch_spec t s1) as (s2 & Hc & Hcache2 & Hcore2 & Htr2).
  destruct (mineEpilogue_spec e s2) as (s3 & tr3 & He & Hcache3 & Hcore3 & Htr3 & Hq3).
  exists t, s3,
    ([FetchCapability (accountAddress c0) CAP_MODE_MINE (droneId c0)] ++
     catchEvents (callbacks c0) t ++ tr3).
  split; [exact Hf|]. split.
  { unfold mineOnce. rewrite (bind_ok _ _ _ _ _ Hp).
    erewrite bind_ok; [exact He|].
    rewrite (tryCatch_throw _ _ _ _ _ Hmt). exact Hc. }
  split; [now rewrite Hcache3, Hcache2|].
  split.
  { rewrite Hcore3, Hcore2. subst s1 s0. cbn [ctx]. use_core Hc0.
    reflexivity. }
  split.
  { rewrite Htr3, Htr2. subst s1 s0. cbn [ctx trace].
    now rewrite <- !app_assoc. }
  subst s1 s0. cbn [ctx] in *. use_core Hc0.
  rewrite !countEv_app, (countEv_quiet_error _ Hq3),
    (countEv_quiet_license _ Hq3), (countEv_quiet_depleted _ Hq3).
  unfold catchEvents.
  destruct (onError (callbacks (ctx s))); cbn; repeat split; auto;
    discriminate.
Qed.

(** An iteration that gets its capability runs the branch for the result
    of [destroyBlock], between steps that keep the core and are quiet. *)
Lemma mineOnce_finished e s :
  acquires e s ->
  exists s2 tr2,
    core (ctx s2) = core (ctx s) /\
    trace s2 = trace s ++ tr2 /\
    Forall (fun ev => quiet ev = true) tr2 /\
    forall s3,
      mineBranch e (destroyResultOf e) s2 = (Return tt, s3) ->
      exists s' tr3,
        mineOnce e s = (Return tt, s') /\
        capabilityCache s' = capabilityCache s3 /\
        core (ctx s') = core (ctx s3) /\
        trace s' = trace s3 ++ tr3 /\
        Forall (fun ev => quiet ev = true) tr3.
Proof.
  intros Hacq.
  destruct (minePrologue_spec e s) as (c0 & Hp & Hc0).
  set (s0 := mkState (capabilityCache s) c0 (trace s)) in *.
  assert (Hacq0 : acquires e s0) by now apply (acquires_cache e s s0).
  destruct (mineAcquire_ok e s0 Hacq0) as (cap & s1 & tr1 & Ha & Hc1 & Ht1 & Hq1).
  destruct (destroyBlock_spec e (droneId (ctx s1)) (randomContainer e)
              (randomBlock e) cap (feePerBlock (ctx s1)) s1)
    as (tr2 & Hd & Hq2).
  match type of Hd with _ = (_, ?x) => set (s2 := x) in * end.
  exists s2, (tr1 ++ tr2). split; [|split; [|split]].
  - subst s2. cbn [ctx]. rewrite Hc1. subst s0. exact Hc0.
  - subst s2. cbn [trace]. rewrite Ht1. subst s0. cbn [trace].
    now rewrite app_assoc.
  - apply Forall_app. now split.
  - intros s3 Hb.
    destruct (mineEpilogue_spec e s3) as (s4 & tr4 & He & Hcache4 & Hcore4 & Htr4 & Hq4).
    exists s4, tr4. split; [|now repeat split].
    unfold mineOnce. rewrite (bind_ok _ _ _ _ _ Hp).
    erewrite bind_ok; [exact He|].
    apply tryCatch_ok. unfold mineTry.
    rewrite (bind_ok _ _ _ _ _ Ha). unfold bind at 1. cbn [getCtx].
    rewrite (bind_ok _ _ _ _ _ Hd). exact Hb.
Qed.

(** A successful iteration. *)
Lemma mineOnce_success e s :
  acquires e s ->
  success (destroyResultOf e) = true ->
  exists s' tr,
    mineOnce e s = (Return tt, s') /\
    core (ctx s') =
      (droneId (ctx s), accountAddress (ctx s), feePerBlock (ctx s),
       ownerAddress (ctx s), callbacks (ctx s),
       (running (ctx s), lastError (ctx s),
        fst (batteryAfterSuccess e (blocksDestroyed (stats (ctx s)))
               (currentBattery (ctx s)) (maxBattery (ctx s))),
        snd (batteryAfterSuccess e (blocksDestroyed (stats (ctx s)))
               (currentBattery (ctx s)) (maxBattery (ctx s)))),
       (blocksDestroyed (stats (ctx s)) + 1,
        blocksAlreadyDestroyed (stats (ctx s)), errors (stats (ctx s)))) /\
    trace s' = trace s ++ tr /\
    countEv isGetLicense tr =
      (if resyncDue (blocksDestroyed (stats (ctx s))) then 1 else 0)%nat /\
    countEv isCbBatteryDepleted tr = 0%nat /\
    countEv isCbError tr = 0%nat.
Proof.
  intros Hacq Hs.
  destruct (mineOnce_finished e s Hacq) as (s2 & tr2 & Hc2 & Ht2 & Hq2 & K).
  destruct (mineOnSuccess_spec e (randomContainer e) (randomBlock e)
              (destroyResultOf e) s2)
    as (s3 & tr3 & Hb & _ & Hc3 & Ht3 & Hl & Hd & He).
  destruct (K s3) as (s' & tr4 & Hm & _ & Hc4 & Ht4 & Hq4);
    [unfold mineBranch; now rewrite Hs|].
  exists s', (tr2 ++ tr3 ++ tr4). split; [exact Hm|].
  use_core Hc2. split; [now rewrite Hc4|]. split.
  { rewrite Ht4, Ht3, Ht2. now rewrite <- !app_assoc. }
  rewrite !countEv_app, Hl, Hd, He,
    (countEv_quiet_license _ Hq2), (countEv_quiet_license _ Hq4),
    (countEv_quiet_depleted _ Hq2), (countEv_quiet_depleted _ Hq4),
    (countEv_quiet_error _ Hq2), (countEv_quiet_error _ Hq4).
  repeat split; lia.
Qed.

(** An iteration on a block that was already destroyed. *)
Lemma mineOnce_already e s :
  acquires e s ->
  success (destroyResultOf e) = false ->
  JS.truthy (alreadyDestroyed (destroyResultOf e)) = true ->
  exists s' tr,
    mineOnce e s = (Return tt, s') /\
    core (ctx s') =
      (droneId (ctx s), accountAddress (ctx s), feePerBlock (ctx s),
       ownerAddress (ctx s), callbacks (ctx s),
       (running (ctx s), lastError (ctx s),
        currentBattery (ctx s), maxBattery (ctx s)),
       (blocksDestroyed (stats (ctx s)),
        blocksAlreadyDestroyed (stats (ctx s)) + 1, errors (stats (ctx s)))) /\
    trace s' = trace s ++ tr /\
    Forall (fun ev => quiet ev = true) tr.
Proof.
  intros Hacq Hs Ha.
  destruct (mineOnce_finished e s Hacq) as (s2 & tr2 & Hc2 & Ht2 & Hq2 & K).
  destruct (mineOnAlreadyDestroyed_spec (randomContainer e) (randomBlock e) s2)
    as (s3 & tr3 & Hb & _ & Hc3 & Ht3 & Hq3).
  destruct (K s3) as (s' & tr4 & Hm & _ & Hc4 & Ht4 & Hq4);
    [unfold mineBranch; now rewrite Hs, Ha|].
  exists s', (tr2 ++ tr3 ++ tr4). split; [exact Hm|].
  use_core Hc2. split; [now rewrite Hc4|]. split.
  { rewrite Ht4, Ht3, Ht2. now rewrite <- !app_assoc. }
  repeat (apply Forall_app; split); assumption.
Qed.

(** An iteration whose destruction failed. *)
Lemma mineOnce_failure e s :
  acquires e s ->
  success (destroyResultOf e) = false ->
  JS.truthy (alreadyDestroyed (destroyResultOf e)) = false ->
  exists s' tr,
    mineOnce e s = (Return tt, s') /\
    core (ctx s') =
      (droneId (ctx s), accountAddress (ctx s), feePerBlock (ctx s),
       ownerAddress (ctx s), callbacks (ctx s),
       (if looksDepleted (JS.lowerOrEmpty (error (destroyResultOf e)))
        then false else running (ctx s),
        JS.orDefault (error (destroyResultOf e)) "Unknown error",
        currentBattery (ctx s), maxBattery (ctx s)),
       (blocksDestroyed (stats (ctx s)),
        blocksAlreadyDestroyed (stats (ctx s)), errors (stats (ctx s)) + 1)) /\
    trace s' = trace s ++ tr /\
    countEv isCbError tr = (if onError (callbacks (ctx s)) then 1 else 0)%nat /\
    countEv isCbBatteryDepleted tr =
      (if looksDepleted (JS.lowerOrEmpty (error (destroyResultOf e)))
          && onBatteryDepleted (callbacks (ctx s)) then 1 else 0)%nat /\
    countEv isGetLicense tr = 0%nat.
Proof.
  intros Hacq Hs Ha.
  destruct (mineOnce_finished e s Hacq) as (s2 & tr2 & Hc2 & Ht2 & Hq2 & K).
  destruct (mineOnFailure_spec (destroyResultOf e) s2)
    as (s3 & Hb & _ & Hc3 & Ht3).
  destruct (K s3) as (s' & tr4 & Hm & _ & Hc4 & Ht4 & Hq4);
    [unfold mineBranch; now rewrite Hs, Ha|].
  exists s', (tr2 ++ failureEvents (callbacks (ctx s)) (destroyResultOf e) ++ tr4).
  split; [exact Hm|].
  use_core Hc2. split; [now rewrite Hc4|]. split.
  { rewrite Ht4, Ht3, Ht2. now rewrite <- !app_assoc. }
  rewrite !countEv_app,
    (countEv_quiet_license _ Hq2), (countEv_quiet_license _ Hq4),
    (countEv_quiet_depleted _ Hq2), (countEv_quiet_depleted _ Hq4),
    (countEv_quiet_error _ Hq2), (countEv_quiet_error _ Hq4).
  unfold failureEvents.
  destruct (onError (callbacks (ctx s)));
    destruct (looksDepleted (JS.lowerOrEmpty (error (destroyResultOf e))));
    destruct (onBatteryDepleted (callbacks (ctx s))); cbn; repeat split.
Qed.

Lemma acquires_dec e s : acquires e s \/ ~ acquires e s.
Proof.
  unfold acquires.
  destruct (isCacheValid_pure (clockGet e) 1 s) as [[|] Hv].
  - left. left. now apply isCacheValid_true_iff.
  - apply isCacheValid_false_iff in Hv.
    destruct (fetchResp e) as [fresh|t].
    + left. right. eauto.
    + right. intros [H | (fresh & H)]; [auto | discriminate].
Qed.

(** [mineOnce] always returns to the loop. *)
Lemma mineOnce_returns e s : exists s', mineOnce e s = (Return tt, s').
Proof.
  destruct (acquires_dec e s) as [Hacq | Hn].
  - destruct (success (destroyResultOf e)) eqn:Hs.
    + destruct (mineOnce_success e s Hacq Hs) as (s' & _ & H & _). eauto.
    + destruct (JS.truthy (alreadyDestroyed (destroyResultOf e))) eqn:Ha.
      * destruct (mineOnce_already e s Hacq Hs Ha) as (s' & _ & H & _). eauto.
      * destruct (mineOnce_failure e s Hacq Hs Ha) as (s' & _ & H & _). eauto.
  - destruct (mineOnce_raised e s Hn) as (t & s' & _ & _ & H & _). eauto.
Qed.

Lemma miningLoop_stopped envs s :
  running (ctx s) = false -> miningLoop envs s = (Return tt, s).
Proof.
  intros H. destruct envs; [reflexivity|].
  cbn [miningLoop]. unfold bind at 1. cbn [getCtx]. now rewrite H.
Qed.

(** One turn of the loop, once [mineOnce] has returned. *)
Lemma miningLoop_unfold e rest s s' :
  running (ctx s) = true ->
  mineOnce e s = (Return tt, s') ->
  miningLoop (e :: rest) s =
    if JS.rem (blocksDestroyed (stats (ctx s'))) 10 =? 0 then
      match saveResp e with
      | Return _ =>
          miningLoop rest
            (mkState (capabilityCache s') (ctx s')
               ((trace s' ++ [SaveRuntimeState (stats (ctx s'))]) ++
                [Sleep MINE_DELAY_MS]))
      | Throw t =>
          (Throw t,
           mkState (capabilityCache s') (ctx s')
             (trace s' ++ [SaveRuntimeState (stats (ctx s'))]))
      end
    else
      miningLoop rest
        (mkState (capabilityCache s') (ctx s')
           (trace s' ++ [Sleep MINE_DELAY_MS])).
Proof.
  intros Hrun Hm. cbn [miningLoop]. unfold bind at 1. cbn [getCtx].
  rewrite Hrun. rewrite (bind_ok _ _ _ _ _ Hm).
  unfold bind at 1. cbn [getCtx]. unfold bind at 1, when.
  destruct (JS.rem (blocksDestroyed (stats (ctx s'))) 10 =? 0).
  - unfold external. destruct (saveResp e); [|reflexivity].
    unfold bind at 1. reflexivity.
  - cbn [ret]. unfold bind at 1. reflexivity.
Qed.

(** Once an iteration has cleared [running], whatever was to follow is not
    run. *)
Lemma miningLoop_last e rest s s' :
  running (ctx s) = true ->
  mineOnce e s = (Return tt, s') ->
  running (ctx s') = false ->
  miningLoop (e :: rest) s = miningLoop [e] s.
Proof.
  intros Hrun Hm Hstop.
  rewrite (miningLoop_unfold e rest s s' Hrun Hm),
    (miningLoop_unfold e [] s s' Hrun Hm).
  destruct (_ =? 0); [destruct (saveResp e)|];
    try reflexivity; now rewrite !miningLoop_stopped.
Qed.


(** The loop's next turn starts from the state that the iteration left,
    with the state file written when that was due and the pause slept,
    unless the write of the state file throws. *)
Lemma miningLoop_continues e rest s s' :
  running (ctx s) = true ->
  mineOnce e s = (Return tt, s') ->
  (saveDue (ctx s') = true -> saveResp e = Return tt) ->
  miningLoop (e :: rest) s = miningLoop rest (paused s').
Proof.
  intros Hrun Hm Hsave.
  rewrite (miningLoop_unfold e rest s s' Hrun Hm). unfold paused, saveDue in *.
  destruct (_ =? 0).
  - rewrite (Hsave eq_refl). now rewrite <- app_assoc.
  - reflexivity.
Qed.

(** A write of the state file that throws ends [miningLoop] with that
    throw, whatever was to follow. *)
Lemma miningLoop_save_throws e rest s s' t :
  running (ctx s) = true ->
  mineOnce e s = (Return tt, s') ->
  saveDue (ctx s') = true ->
  saveResp e = Throw t ->
  miningLoop (e :: rest) s = (Throw t, unsaved s').
Proof.
  intros Hrun Hm Hdue Hsave.
  rewrite (miningLoop_unfold e rest s s' Hrun Hm). unfold saveDue in Hdue.
  now rewrite Hdue, Hsave.
Qed.

(** After an iteration that cleared [running] the loop ends in the state
    that the iteration left, after its pause, or with the throw of the
    write of the state file. *)
Lemma miningLoop_ends e rest s s' :
  running (ctx s) = true ->
  mineOnce e s = (Return tt, s') ->
  running (ctx s') = false ->
  miningLoop (e :: rest) s = (Return tt, paused s') \/
  exists t,
    saveDue (ctx s') = true /\ saveResp e = Throw t /\
    miningLoop (e :: rest) s = (Throw t, unsaved s').
Proof.
  intros Hrun Hm Hstop.
  destruct (saveDue (ctx s')) eqn:Hdue.
  - destruct (saveResp e) as [[]|t] eqn:Hsave.
    + left. rewrite (miningLoop_continues e rest s s' Hrun Hm (fun _ => Hsave)).
      now apply miningLoop_stopped.
    + right. exists t. repeat split; try assumption.
      now apply miningLoop_save_throws.
  - left. rewrite (miningLoop_continues e rest s s' Hrun Hm)
      by (intros H; congruence).
    now apply miningLoop_stopped.
Qed.

(** While it runs and its state file can be written, the loop comes to
    its end without a throw. *)
Lemma miningLoop_returns envs :
  Forall (fun e => saveResp e = Return tt) envs ->
  forall s, exists s', miningLoop envs s = (Return tt, s').
Proof.
  intros Hall. induction Hall as [|x rest Hx Hrest IH]; intros s;
    [exists s; reflexivity|].
  destruct (running (ctx s)) eqn:Hrun.
  - destruct (mineOnce_returns x s) as (s1 & Hm).
    rewrite (miningLoop_continues x rest s s1 Hrun Hm (fun _ => Hx)).
    apply IH.
  - rewrite miningLoop_stopped by assumption. eauto.
Qed.

(** C5. In an iteration whose destruction failed (not successful, not
    already destroyed), the error counter goes up by exactly one. When the
    lowercased failure message contains battery depleted or shift ended,
    [running] becomes false, the depletion callback, if registered, is
    called once, and the loop runs nothing that was to follow this
    iteration: it ends in the state that the iteration left, after the
    pause or at a write of the state file that throws. For every other
    failure message [running] is untouched, the depletion callback is not
    called, and the loop takes its next turn from the state that the
    iteration left, after the pause, provided that the write of the state
    file, when one is due, does not throw. *)
Theorem depletion_ends_the_shift e s :
  acquires e s ->
  success (destroyResultOf e) = false ->
  JS.truthy (alreadyDestroyed (destroyResultOf e)) = false ->
  let lowerError := JS.lowerOrEmpty (error (destroyResultOf e)) in
  exists s' tr,
    mineOnce e s = (Return tt, s') /\
    trace s' = trace s ++ tr /\
    errors (stats (ctx s')) = errors (stats (ctx s)) + 1 /\
    (JS.includes lowerError "battery depleted" = true \/
     JS.includes lowerError "shift ended" = true ->
     running (ctx s') = false /\
     countEv isCbBatteryDepleted tr =
       (if onBatteryDepleted (callbacks (ctx s)) then 1 else 0)%nat /\
     forall rest,
       running (ctx s) = true ->
       miningLoop (e :: rest) s = miningLoop [e] s /\
       (snd (miningLoop (e :: rest) s) = paused s' \/
        snd (miningLoop (e :: rest) s) = unsaved s')) /\
    (JS.includes lowerError "battery depleted" = false ->
     JS.includes lowerError "shift ended" = false ->
     running (ctx s') = running (ctx s) /\
     countEv isCbBatteryDepleted tr = 0%nat /\
     forall rest,
       running (ctx s) = true ->
       (saveDue (ctx s') = true -> saveResp e = Return tt) ->
       running (ctx (paused s')) = true /\
       miningLoop (e :: rest) s = miningLoop rest (paused s')).
Proof.
  intros Hacq Hs Ha lowerError.
  destruct (mineOnce_failure e s Hacq Hs Ha)
    as (s' & tr & Hm & Hc & Ht & _ & Hd & _).
  fold lowerError in Hc, Hd.
  unfold core in Hc. injection Hc as _ _ _ _ _ Hrun _ _ _ _ _ Herr.
  exists s', tr. repeat (split; [assumption|]). split.
  - intros Hdep.
    assert (Hl : looksDepleted lowerError = true)
      by (unfold looksDepleted; destruct Hdep as [-> | ->];
          [reflexivity | apply orb_true_r]).
    rewrite Hl in Hrun, Hd. cbn [andb] in Hd.
    repeat split; try assumption.
    + now apply (miningLoop_last e rest s s').
    + destruct (miningLoop_ends e rest s s') as [-> | (t & _ & _ & ->)];
        try assumption; [now left | now right].
  - intros H1 H2.
    assert (Hl : looksDepleted lowerError = false)
      by (unfold looksDepleted; now rewrite H1, H2).
    rewrite Hl in Hrun, Hd. cbn [andb] in Hd.
    repeat split; try assumption.
    + cbn [paused ctx]. congruence.
    + now apply miningLoop_continues.
Qed.

Lemma depletion_ends_the_shift_witness :
  exists s',
    mineOnce Sample.envDepleted Sample.cold = (Return tt, s') /\
    errors (stats (ctx s')) = 1 /\
    running (ctx s') = false /\
    miningLoop [Sample.envDepleted; Sample.envOk] Sample.cold =
      miningLoop [Sample.envDepleted] Sample.cold.
Proof.
  destruct (depletion_ends_the_shift Sample.envDepleted Sample.cold)
    as (s' & tr & Hm & _ & Herr & Hdep & _).
  - right. exists Sample.cap1. reflexivity.
  - reflexivity.
  - reflexivity.
  - exists s'. split; [exact Hm|]. split; [exact Herr|].
    destruct Hdep as (Hrun & _ & Hloop); [left; reflexivity|].
    split; [exact Hrun|]. apply Hloop. reflexivity.
Defined.

(** C5, as the specification states it, fails: below, the simulation
    reverts with a message that says neither battery depleted nor shift
    ended, the iteration leaves [running] true, and yet no further
    iteration runs, because the write of the state file that [startMining]
    makes after the iteration throws and ends the session. *)
Lemma refused_iteration_with_failing_save_counterexample :
  success (destroyResultOf Sample.envRefusedDiskFull) = false /\
  JS.truthy (alreadyDestroyed (destroyResultOf Sample.envRefusedDiskFull))
    = false /\
  JS.includes
    (JS.lowerOrEmpty (error (destroyResultOf Sample.envRefusedDiskFull)))
    "battery depleted" = false /\
  JS.includes
    (JS.lowerOrEmpty (error (destroyResultOf Sample.envRefusedDiskFull)))
    "shift ended" = false /\
  running (ctx (snd (mineOnce Sample.envRefusedDiskFull Sample.cold))) = true /\
  startMining [Sample.envRefusedDiskFull; Sample.envOk] Sample.cold =
    (Throw (ErrorObj "ENOSPC: no space left on device"),
     unsaved (snd (mineOnce Sample.envRefusedDiskFull Sample.cold))) /\
  trace (snd (startMining [Sample.envRefusedDiskFull; Sample.envOk]
                Sample.cold)) =
    [FetchCapability "0xabc" 1 42; SimulateContract 42 1234567 17 0;
     SaveRuntimeState (mkStats 0 0 1 1000000 1)] /\
  ~ (exists s'',
        miningLoop [Sample.envRefusedDiskFull; Sample.envOk] Sample.cold =
          miningLoop [Sample.envOk] s'').
Proof.
  repeat (split; [vm_compute; reflexivity|]).
  intros (s'' & H).
  destruct (miningLoop_returns [Sample.envOk]
              ltac:(repeat constructor) s'') as (s3 & H3).
  rewrite H3 in H. vm_compute in H. discriminate H.
Qed.

(** Scenario C of the specification, run from a cold start with a second
    iteration waiting: one error, one depletion callback, [running] false,
    and nothing of the second iteration in the trace. *)
Example scenario_C :
  let final :=
    snd (startMining [Sample.envDepleted; Sample.envOk] Sample.cold) in
  errors (stats (ctx final)) = 1 /\
  running (ctx final) = false /\
  countEv isCbBatteryDepleted (trace final) = 1%nat /\
  trace final =
    [FetchCapability "0xabc" 1 42; SimulateContract 42 1234567 17 0;
     CbBatteryDepleted;
     SaveRuntimeState (mkStats 0 0 1 1000000 1); Sleep 100].
Proof. cbv zeta. repeat split; vm_compute; reflexivity. Qed.

Lemma mineBranch_returns e r s : exists s', mineBranch e r s = (Return tt, s').
Proof.
  unfold mineBranch. destruct (success r).
  - destruct (mineOnSuccess_spec e (randomContainer e) (randomBlock e) r s)
      as (s' & _ & H & _). eauto.
  - destruct (JS.truthy (alreadyDestroyed r)).
    + destruct (mineOnAlreadyDestroyed_spec (randomContainer e)
                  (randomBlock e) s) as (s' & _ & H & _). eauto.
    + destruct (mineOnFailure_spec r s) as (s' & H & _). eauto.
Qed.

(** The only statement of the [try] block that can throw is the fetch of
    a capability. *)
Lemma mineTry_throw e s0 t s1 :
  mineTry e (randomContainer e) (randomBlock e) s0 = (Throw t, s1) ->
  fetchResp e = Throw t /\ ~ acquires e s0.
Proof.
  unfold mineTry, bind at 1.
  destruct (mineAcquire e s0) as [[cap|t'] s'] eqn:Ha.
  - unfold bind at 1. cbn [getCtx].
    destruct (destroyBlock_spec e (droneId (ctx s')) (randomContainer e)
                (randomBlock e) cap (feePerBlock (ctx s')) s') as (tr & Hd & _).
    rewrite (bind_ok _ _ _ _ _ Hd).
    match goal with
    | |- ?m ?x = _ -> _ =>
        destruct (mineBranch_returns e (destroyResultOf e) x) as (s2 & Hb)
    end.
    unfold mineBranch in Hb. rewrite Hb. discriminate.
  - intros H. injection H as -> <-.
    destruct (mineAcquire_throw e s0 t s' Ha) as (Hf & Hn & _). now split.
Qed.

(** C6. Whatever is thrown inside the [try] block of an iteration,
    [mineOnce] still returns to the loop: it counts one error, records the
    message as the last error, calls the error callback (if registered)
    with it, clears the capability cache exactly when the lowercased
    message contains capability, budget or exhausted, and leaves [running]
    as it was. The loop then takes its next turn from the state that the
    iteration left, after the pause, provided that the write of the state
    file, when one is due, does not throw. *)
Theorem iteration_exception_is_contained e s t s1 :
  mineTry e (randomContainer e) (randomBlock e) (snd (minePrologue e s))
    = (Throw t, s1) ->
  let lower := JS.toLowerCase (messageOf t) in
  exists s' tr,
    mineOnce e s = (Return tt, s') /\
    trace s' = trace s ++ tr /\
    errors (stats (ctx s')) = errors (stats (ctx s)) + 1 /\
    lastError (ctx s') = messageOf t /\
    countEv isCbError tr = (if onError (callbacks (ctx s)) then 1 else 0)%nat /\
    (onError (callbacks (ctx s)) = true -> In (CbError (messageOf t)) tr) /\
    capabilityCache s' =
      (if JS.includes lower "capability" || JS.includes lower "budget"
          || JS.includes lower "exhausted"
       then None else capabilityCache s) /\
    running (ctx s') = running (ctx s) /\
    forall rest,
      running (ctx s) = true ->
      (saveDue (ctx s') = true -> saveResp e = Return tt) ->
      running (ctx (paused s')) = true /\
      miningLoop (e :: rest) s = miningLoop rest (paused s').
Proof.
  intros Hthrow lower.
  destruct (minePrologue_spec e s) as (c0 & Hp & _).
  rewrite Hp in Hthrow. cbn [snd] in Hthrow.
  apply mineTry_throw in Hthrow. destruct Hthrow as (Hf & Hn0).
  assert (Hn : ~ acquires e s).
  { intros H. apply Hn0. revert H. now apply acquires_cache. }
  destruct (mineOnce_raised e s Hn)
    as (t' & s' & tr & Hf' & Hm & Hcache & Hc & Ht & Hce & Hin & _).
  assert (t' = t) by congruence. subst t'.
  unfold core in Hc. injection Hc as _ _ _ _ _ Hrun Hlast _ _ _ _ Herr.
  exists s', tr. repeat (split; [assumption|]).
  intros rest Hr Hsave. split.
  - cbn [paused ctx]. congruence.
  - now apply miningLoop_continues.
Qed.

Lemma iteration_exception_is_contained_witness :
  exists s',
    mineOnce Sample.envNoCapability Sample.cold = (Return tt, s') /\
    errors (stats (ctx s')) = 1 /\
    lastError (ctx s') =
      "Identity validation failed: 503 - capability service down"%string /\
    capabilityCache s' = None /\
    running (ctx s') = true.
Proof.
  destruct (iteration_exception_is_contained Sample.envNoCapability Sample.cold
              (ErrorObj "Identity validation failed: 503 - capability service down")
              (mkState None
                 (ctx (snd (minePrologue Sample.envNoCapability Sample.cold)))
                 [FetchCapability "0xabc" 1 42]))
    as (s' & tr & Hm & _ & Herr & Hlast & _ & _ & Hcache & Hrun & _).
  - reflexivity.
  - exists s'. repeat split; assumption.
Defined.

(** C6, as the specification states it, fails: below, the fetch of the
    capability throws, [mineOnce] catches it and leaves [running] true, and
    yet the loop does not proceed to the next iteration, because the write
    of the state file that [startMining] makes after the iteration throws,
    and that throw ends the session. *)
Lemma caught_exception_with_failing_save_counterexample :
  fst (mineOnce Sample.envNoCapabilityDiskFull Sample.cold) = Return tt /\
  errors (stats (ctx (snd (mineOnce Sample.envNoCapabilityDiskFull
                             Sample.cold)))) = 1 /\
  running (ctx (snd (mineOnce Sample.envNoCapabilityDiskFull Sample.cold)))
    = true /\
  startMining [Sample.envNoCapabilityDiskFull; Sample.envOk] Sample.cold =
    (Throw (ErrorObj "ENOSPC: no space left on device"),
     unsaved (snd (mineOnce Sample.envNoCapabilityDiskFull Sample.cold))) /\
  trace (snd (startMining [Sample.envNoCapabilityDiskFull; Sample.envOk]
                Sample.cold)) =
    [FetchCapability "0xabc" 1 42;
     SaveRuntimeState (mkStats 0 0 1 1000000 0)] /\
  ~ (exists s'',
        miningLoop [Sample.envNoCapabilityDiskFull; Sample.envOk] Sample.cold =
          miningLoop [Sample.envOk] s'').
Proof.
  repeat (split; [vm_compute; reflexivity|]).
  intros (s'' & H).
  destruct (miningLoop_returns [Sample.envOk]
              ltac:(repeat constructor) s'') as (s3 & H3).
  rewrite H3 in H. vm_compute in H. discriminate H.
Qed.








(** Scenario D of the specification: of 49 consecutive successful
    operations only the 25th reads the battery from the chain. *)
Example scenario_D :
  let reads n :=
    countEv isGetLicense
      (trace (snd (startMining (repeat Sample.envOk n) Sample.cold))) in
  reads 24%nat = 0%nat /\ reads 25%nat = 1%nat /\ reads 49%nat = 1%nat /\
  reads 50%nat = 2%nat.
Proof. cbv zeta. repeat split; vm_compute; reflexivity. Qed.

(* ===================================================================== *)
(** ** Further properties of [destroyBlock] *)
(* ===================================================================== *)

Lemma simCatch_shape t :
  success (simCatch t) = false /\ txHash (simCatch t) = None /\
  exists msg, error (simCatch t) = Some msg.
Proof.
  unfold simCatch, failed.
  repeat match goal with
         | |- context [if ?b then _ else _] => destruct b
         end; cbn; eauto.
Qed.

Lemma submitCatch_shape t :
  success (submitCatch t) = false /\ txHash (submitCatch t) = None /\
  exists msg, error (submitCatch t) = Some msg.
Proof.
  unfold submitCatch, failed.
  repeat match goal with
         | |- context [if ?b then _ else _] => destruct b
         | |- context [match ?o with Some _ => _ | None => _ end] => destruct o
         end; cbn; eauto.
Qed.

Lemma destroyBlock_run e lic cid bid cap fee s :
  destroyBlock e lic cid bid cap fee s =
    (Return (destroyResultOf e),
     mkState (capabilityCache s) (ctx s)
             (trace s ++ destroyEvents e lic cid bid fee)).
Proof.
  unfold destroyBlock, destroyResultOf, destroyEvents. exec.
  destruct (simResp e) as [[]|t]; cbn; [|reflexivity].
  destruct (writeResp e) as [h|t]; cbn; rewrite <- ?app_assoc;
    [|reflexivity].
  destruct (receiptResp e) as [[]|t]; reflexivity.
Qed.

(** X1. [destroyBlock] never throws and touches neither the cache nor the
    context. Its result is successful exactly when the simulation passed,
    the submission returned a hash and the receipt reports success, and
    then it carries that hash and no error. Every other result carries an
    error text; it carries the hash only when the receipt came back
    reverted, so a submitted transaction whose receipt wait throws is
    reported without its hash. *)
Theorem destroyBlock_total_and_success_iff e lic cid bid cap fee s :
  exists r s',
    destroyBlock e lic cid bid cap fee s = (Return r, s') /\
    capabilityCache s' = capabilityCache s /\ ctx s' = ctx s /\
    (success r = true <->
     exists hash,
       simResp e = Return tt /\ writeResp e = Return hash /\
       receiptResp e = Return ReceiptSuccess) /\
    (forall hash,
        simResp e = Return tt -> writeResp e = Return hash ->
        receiptResp e = Return ReceiptSuccess ->
        r = mkResult true (Some hash) None None) /\
    (success r = false -> exists msg, error r = Some msg) /\
    (forall hash,
        txHash r = Some hash <->
        simResp e = Return tt /\ writeResp e = Return hash /\
        exists status, receiptResp e = Return status).
Proof.
  rewrite destroyBlock_run. do 2 eexists. split; [reflexivity|].
  cbn [capabilityCache ctx]. do 2 (split; [reflexivity|]).
  unfold destroyResultOf.
  destruct (simResp e) as [[]|t1].
  - destruct (writeResp e) as [h|t2].
    + destruct (receiptResp e) as [[]|t3].
      * split; [split; eauto|]. split; [now intros ? _ [= ->] _|].
        split; [discriminate|]. intros hash. cbn. split.
        -- intros [= ->]. eauto.
        -- now intros (_ & [= ->] & _).
      * split; [split; [discriminate | intros (? & _ & _ & [=])]|].
        split; [intros ? _ _ [=]|]. split; [cbn; eauto|].
        intros hash. cbn. split.
        -- intros [= ->]. eauto.
        -- now intros (_ & [= ->] & _).
      * destruct (submitCatch_shape t3) as (Hs & Hh & He).
        rewrite Hs, Hh.
        split; [split; [discriminate | intros (? & _ & _ & [=])]|].
        split; [intros ? _ _ [=]|]. split; [auto|].
        intros hash. split; [discriminate | intros (_ & _ & ? & [=])].
    + destruct (submitCatch_shape t2) as (Hs & Hh & He).
      rewrite Hs, Hh.
      split; [split; [discriminate | intros (? & _ & [=] & _)]|].
      split; [intros ? _ [=]|]. split; [auto|].
      intros hash. split; [discriminate | intros (_ & [=] & _)].
  - destruct (simCatch_shape t1) as (Hs & Hh & He).
    rewrite Hs, Hh.
    split; [split; [discriminate | intros (? & [=] & _)]|].
    split; [intros ? [=]|]. split; [auto|].
    intros hash. split; [discriminate | intros ([=] & _)].
Qed.

Lemma destroyBlock_total_and_success_iff_witness :
  fst (destroyBlock Sample.envOk 42 1234567 17 Sample.cap1 0 Sample.warm) =
    Return (mkResult true (Some "0xhash"%string) None None).
Proof.
  destruct (destroyBlock_total_and_success_iff
              Sample.envOk 42 1234567 17 Sample.cap1 0 Sample.warm)
    as (r & s' & Hrun & _ & _ & _ & Hok & _).
  rewrite Hrun. cbn [fst]. f_equal.
  apply Hok; reflexivity.
Defined.

(** X2. One call of [destroyBlock] simulates exactly once, submits at most
    once and waits for at most one receipt: it submits exactly when the
    simulation passed, with gas 500000 and the same arguments and value as
    the simulation, and it waits, 30 s at most, exactly when the submission
    returned a hash, for that hash. Nothing is retried. *)
Theorem destroyBlock_calls e lic cid bid cap fee s :
  exists tr,
    trace (snd (destroyBlock e lic cid bid cap fee s)) = trace s ++ tr /\
    countEv isSimulate tr = 1%nat /\
    (countEv isWrite tr = 1%nat \/ countEv isWrite tr = 0%nat) /\
    (countEv isWrite tr = 1%nat <-> simResp e = Return tt) /\
    (forall ev, In ev tr -> isWrite ev = true ->
                ev = WriteContract lic cid bid fee 500000) /\
    (forall ev, In ev tr -> isSimulate ev = true ->
                ev = SimulateContract lic cid bid fee) /\
    (countEv isWait tr = 1%nat \/ countEv isWait tr = 0%nat) /\
    (forall hash,
        In (WaitForTransactionReceipt hash 30000) tr <->
        simResp e = Return tt /\ writeResp e = Return hash) /\
    (forall ev, In ev tr ->
                isSimulate ev = true \/ isWrite ev = true \/ isWait ev = true).
Proof.
  rewrite destroyBlock_run. exists (destroyEvents e lic cid bid fee).
  split; [reflexivity|]. unfold destroyEvents, GAS_LIMIT, RECEIPT_TIMEOUT.
  destruct (simResp e) as [[]|t1]; [destruct (writeResp e) as [h|t2]|]; cbn.
  - split; [reflexivity|]. split; [auto|]. split; [tauto|].
    split; [each_event; cbn; try discriminate; auto|].
    split; [each_event; cbn; try discriminate; auto|].
    split; [auto|]. split.
    + intros hash. split.
      * intros [H|[H|[H|[]]]]; try discriminate. now injection H as ->.
      * intros (_ & [= ->]). auto.
    + each_event; cbn; auto.
  - split; [reflexivity|]. split; [auto|]. split; [tauto|].
    split; [each_event; cbn; try discriminate; auto|].
    split; [each_event; cbn; try discriminate; auto|].
    split; [auto|]. split.
    + intros hash. split.
      * intros [H|[H|[]]]; discriminate.
      * intros (_ & [=]).
    + each_event; cbn; auto.
  - split; [reflexivity|]. split; [auto|].
    split; [split; discriminate|].
    split; [each_event; cbn; try discriminate; auto|].
    split; [each_event; cbn; try discriminate; auto|].
    split; [auto|]. split.
    + intros hash. split.
      * intros [H|[]]; discriminate.
      * intros ([=] & _).
    + each_event; cbn; auto.
Qed.

(* ===================================================================== *)
(** ** Rules for what a computation keeps *)
(* ===================================================================== *)

Section Keeps.

Variable I : State -> Prop.
Hypothesis I_trace :
  forall s tr, I s -> I (mkState (capabilityCache s) (ctx s) tr).

Lemma keeps_ret {A} (a : A) : keeps I (ret a).
Proof. intros s H. exact H. Qed.

Lemma keeps_bind {A B} (m : M A) (k : A -> M B) :
  keeps I m -> (forall a, keeps I (k a)) -> keeps I (bind m k).
Proof.
  intros Hm Hk s H. unfold bind. specialize (Hm s H).
  destruct (m s) as [[a|t] s1]; cbn [snd] in *; [now apply Hk | exact Hm].
Qed.

Lemma keeps_tryCatch {A} (m : M A) (h : Thrown -> M A) :
  keeps I m -> (forall t, keeps I (h t)) -> keeps I (tryCatch m h).
Proof.
  intros Hm Hh s H. unfold tryCatch. specialize (Hm s H).
  destruct (m s) as [[a|t] s1]; cbn [snd] in *; [exact Hm | now apply Hh].
Qed.

Lemma keeps_when b (m : M unit) : keeps I m -> keeps I (when b m).
Proof. intros Hm. destruct b; [exact Hm | apply keeps_ret]. Qed.

Lemma keeps_getCtx : keeps I getCtx.
Proof. intros s H. exact H. Qed.

Lemma keeps_getCache : keeps I getCache.
Proof. intros s H. exact H. Qed.

Lemma keeps_emit ev : keeps I (emit ev).
Proof. intros s H. now apply I_trace. Qed.

Lemma keeps_external {A} ev (resp : Outcome A) : keeps I (external ev resp).
Proof. intros s H. now apply I_trace. Qed.

Lemma keeps_callback registered ev : keeps I (callback registered ev).
Proof.
  apply keeps_bind; [apply keeps_getCtx|]. intros c.
  destruct (registered (callbacks c)); [apply keeps_emit | apply keeps_ret].
Qed.

Lemma keeps_destroyBlock e lic cid bid cap fee :
  keeps I (destroyBlock e lic cid bid cap fee).
Proof. intros s H. rewrite destroyBlock_run. now apply I_trace. Qed.

Lemma keeps_isCacheValid dateNow cost : keeps I (isCacheValid dateNow cost).
Proof.
  intros s H. destruct (isCacheValid_pure dateNow cost s) as [b ->]. exact H.
Qed.

Lemma keeps_needsCapabilityRefresh dateNow cost :
  keeps I (needsCapabilityRefresh dateNow cost).
Proof.
  apply keeps_bind; [apply keeps_isCacheValid | intros; apply keeps_ret].
Qed.

End Keeps.

(** Takes a computation apart along its binds, catches and branches,
    leaving the writes to the context and to the cache. *)
Ltac keeps_step :=
  first
    [ apply keeps_ret | apply keeps_getCtx | apply keeps_getCache
    | apply keeps_emit | apply keeps_external | apply keeps_callback
    | apply keeps_destroyBlock | apply keeps_needsCapabilityRefresh
    | apply keeps_isCacheValid
    | apply keeps_when
    | apply keeps_bind; [|intros ?]
    | apply keeps_tryCatch; [|intros ?]
    | assumption
    | match goal with
      | |- keeps _ (if ?b then _ else _) => destruct b
      | |- keeps _ (match ?x with _ => _ end) => destruct x
      end ].

Ltac keeps_steps := repeat keeps_step.

Lemma keeps_modifyCtx (I : State -> Prop) f :
  (forall s, I s -> I (mkState (capabilityCache s) (f (ctx s)) (trace s))) ->
  keeps I (modifyCtx f).
Proof. intros H s Hs. now apply H. Qed.

Lemma keeps_putCache (I : State -> Prop) c :
  (forall s, I s -> I (mkState c (ctx s) (trace s))) ->
  keeps I (putCache c).
Proof. intros H s Hs. now apply H. Qed.

(* ===================================================================== *)
(** ** Rules for what a computation emits *)
(* ===================================================================== *)

Section Emits.

Variable Q : Event -> bool.

Lemma emitsOnly_silent {A} (m : M A) :
  (forall s, trace (snd (m s)) = trace s) -> emitsOnly Q m.
Proof.
  intros H s. exists []. rewrite H, app_nil_r. split; [reflexivity|constructor].
Qed.

Lemma emitsOnly_ret {A} (a : A) : emitsOnly Q (ret a).
Proof. now apply emitsOnly_silent. Qed.

Lemma emitsOnly_bind {A B} (m : M A) (k : A -> M B) :
  emitsOnly Q m -> (forall a, emitsOnly Q (k a)) -> emitsOnly Q (bind m k).
Proof.
  intros Hm Hk s. unfold bind. destruct (Hm s) as (tr1 & Ht1 & Hq1).
  destruct (m s) as [[a|t] s1]; cbn [snd] in *.
  - destruct (Hk a s1) as (tr2 & Ht2 & Hq2). exists (tr1 ++ tr2).
    rewrite Ht2, Ht1, app_assoc. split; [reflexivity|].
    apply Forall_app. now split.
  - now exists tr1.
Qed.

Lemma emitsOnly_tryCatch {A} (m : M A) (h : Thrown -> M A) :
  emitsOnly Q m -> (forall t, emitsOnly Q (h t)) -> emitsOnly Q (tryCatch m h).
Proof.
  intros Hm Hh s. unfold tryCatch. destruct (Hm s) as (tr1 & Ht1 & Hq1).
  destruct (m s) as [[a|t] s1]; cbn [snd] in *.
  - now exists tr1.
  - destruct (Hh t s1) as (tr2 & Ht2 & Hq2). exists (tr1 ++ tr2).
    rewrite Ht2, Ht1, app_assoc. split; [reflexivity|].
    apply Forall_app. now split.
Qed.

Lemma emitsOnly_when b (m : M unit) : emitsOnly Q m -> emitsOnly Q (when b m).
Proof. intros Hm. destruct b; [exact Hm | apply emitsOnly_ret]. Qed.

Lemma emitsOnly_getCtx : emitsOnly Q getCtx.
Proof. now apply emitsOnly_silent. Qed.

Lemma emitsOnly_getCache : emitsOnly Q getCache.
Proof. now apply emitsOnly_silent. Qed.

Lemma emitsOnly_modifyCtx f : emitsOnly Q (modifyCtx f).
Proof. now apply emitsOnly_silent. Qed.

Lemma emitsOnly_putCache c : emitsOnly Q (putCache c).
Proof. now apply emitsOnly_silent. Qed.

Lemma emitsOnly_emit ev : Q ev = true -> emitsOnly Q (emit ev).
Proof. intros H s. exists [ev]. split; [reflexivity|]. now constructor. Qed.

Lemma emitsOnly_external {A} ev (resp : Outcome A) :
  Q ev = true -> emitsOnly Q (external ev resp).
Proof. intros H s. exists [ev]. split; [reflexivity|]. now constructor. Qed.

Lemma emitsOnly_callback registered ev :
  Q ev = true -> emitsOnly Q (callback registered ev).
Proof.
  intros H. apply emitsOnly_bind; [apply emitsOnly_getCtx|]. intros c.
  destruct (registered (callbacks c));
    [now apply emitsOnly_emit | apply emitsOnly_ret].
Qed.

Lemma emitsOnly_isCacheValid dateNow cost :
  emitsOnly Q (isCacheValid dateNow cost).
Proof.
  apply emitsOnly_silent. intros s.
  now destruct (isCacheValid_pure dateNow cost s) as [b ->].
Qed.

Lemma emitsOnly_destroyBlock e lic cid bid cap fee :
  (forall ev, isSimulate ev = true \/ isWrite ev = true \/ isWait ev = true ->
              Q ev = true) ->
  emitsOnly Q (destroyBlock e lic cid bid cap fee).
Proof.
  intros H s. rewrite destroyBlock_run. eexists. split; [reflexivity|].
  unfold destroyEvents.
  destruct (simResp e); [destruct (writeResp e)|];
    repeat constructor; apply H; cbn; auto.
Qed.

End Emits.

Ltac emits_steps :=
  repeat first
    [ apply emitsOnly_ret | apply emitsOnly_getCtx | apply emitsOnly_getCache
    | apply emitsOnly_modifyCtx | apply emitsOnly_putCache
    | apply emitsOnly_isCacheValid
    | apply emitsOnly_emit; reflexivity
    | apply emitsOnly_external; reflexivity
    | apply emitsOnly_callback; reflexivity
    | apply emitsOnly_when
    | apply emitsOnly_bind; [|intros ?]
    | apply emitsOnly_tryCatch; [|intros ?]
    | assumption
    | match goal with
      | |- emitsOnly _ (if ?b then _ else _) => destruct b
      | |- emitsOnly _ (match ?x with _ => _ end) => destruct x
      end ].

Lemma notFetch_count tr :
  Forall (fun ev => notFetch ev = true) tr -> countEv isFetch tr = 0%nat.
Proof.
  induction 1 as [|ev tr Hev _ IH]; [reflexivity|].
  unfold countEv in *. cbn [filter]. unfold notFetch in Hev.
  destruct (isFetch ev); [discriminate | exact IH].
Qed.

Lemma emitsOnly_minePrologue e : emitsOnly notFetch (minePrologue e).
Proof. unfold minePrologue, markGrid. emits_steps. Qed.

Lemma emitsOnly_mineBranch e r : emitsOnly notFetch (mineBranch e r).
Proof.
  unfold mineBranch, mineOnSuccess, mineOnAlreadyDestroyed, mineOnFailure,
    markGrid, clearCapabilityCache, getLicenseStatus.
  cbv zeta. emits_steps.
Qed.

Lemma emitsOnly_mineCatch t : emitsOnly notFetch (mineCatch t).
Proof.
  unfold mineCatch, markGrid, clearCapabilityCache. cbv zeta. emits_steps.
Qed.

Lemma emitsOnly_mineEpilogue e : emitsOnly notFetch (mineEpilogue e).
Proof.
  unfold mineEpilogue, getBalance, getUnprocessedCubeBalance, getCubeBalance.
  emits_steps.
Qed.

Lemma mineTry_split e :
  mineTry e (randomContainer e) (randomBlock e) =
    bind (mineAcquire e) (mineWith e).
Proof. reflexivity. Qed.

Lemma emitsOnly_mineWith e cap : emitsOnly notFetch (mineWith e cap).
Proof.
  unfold mineWith. apply emitsOnly_bind; [apply emitsOnly_getCtx|]. intros c.
  apply emitsOnly_bind; [|intros r; apply emitsOnly_mineBranch].
  apply emitsOnly_destroyBlock. intros ev. destruct ev; cbn; intuition congruence.
Qed.

(** The fetches of the acquisition, by the validity of the cache at the
    clock reading of [getCapability]. *)
Lemma mineAcquire_fetches e s v :
  isCacheValid (clockGet e) 1 s = (Return v, s) ->
  exists tr,
    trace (snd (mineAcquire e s)) = trace s ++ tr /\
    countEv isFetch tr = (if v then 0 else 1)%nat.
Proof.
  intros Hv. unfold mineAcquire, bind at 1.
  unfold needsCapabilityRefresh, bind at 1.
  destruct (isCacheValid_pure (clockNeeds e) 1 s) as [v1 ->].
  cbn [ret]. unfold bind at 1. cbn [getCtx]. unfold bind at 1.
  destruct v.
  - pose proof Hv as Hhit. apply isCacheValid_true_iff in Hhit.
    destruct Hhit as (entry & Hc & _).
    rewrite (getCapability_hit _ _ _ _ _ _ Hc Hv).
    destruct v1; exec;
      [|destruct (onCapabilityRefresh (callbacks (ctx s)))]; exec;
      eexists; (split; [extends|]); reflexivity.
  - rewrite (getCapability_miss _ _ _ _ _ Hv).
    destruct (fetchResp e) as [fresh|t].
    + destruct v1; exec;
        [|destruct (onCapabilityRefresh (callbacks (ctx s)))]; exec;
        eexists; (split; [extends|]); reflexivity.
    + cbn. eexists. split; reflexivity.
Qed.

(** The fetches of one iteration, and the cache it leaves when nothing
    clears it. *)
Lemma mineOnce_fetch_count e s v :
  isCacheValid (clockGet e) 1 s = (Return v, s) ->
  exists tr,
    trace (snd (mineOnce e s)) = trace s ++ tr /\
    countEv isFetch tr = (if v then 0 else 1)%nat.
Proof.
  intros Hv.
  destruct (minePrologue_spec e s) as (c0 & Hp & _).
  set (s0 := mkState (capabilityCache s) c0 (trace s)) in *.
  assert (Hv0 : isCacheValid (clockGet e) 1 s0 = (Return v, s0)).
  { destruct (isCacheValid_pure (clockGet e) 1 s0) as [v0 Hv0].
    rewrite Hv0. f_equal. f_equal.
    destruct v0, v; try reflexivity.
    - apply isCacheValid_true_iff in Hv0. apply isCacheValid_false_iff in Hv.
      contradiction.
    - apply isCacheValid_false_iff in Hv0. apply isCacheValid_true_iff in Hv.
      contradiction. }
  destruct (mineAcquire_fetches e s0 v Hv0) as (tr1 & Ht1 & Hc1).
  assert (Hmid : exists tr2,
             trace (snd (tryCatch (mineTry e (randomContainer e) (randomBlock e))
                                  mineCatch s0)) = trace s0 ++ tr1 ++ tr2 /\
             Forall (fun ev => notFetch ev = true) tr2).
  { rewrite mineTry_split. unfold tryCatch at 1, bind at 1.
    destruct (mineAcquire e s0) as [[cap|t] s1]; cbn [snd] in Ht1.
    - assert (He : emitsOnly notFetch (tryCatch (mineWith e cap) mineCatch))
        by (apply emitsOnly_tryCatch;
            [apply emitsOnly_mineWith | intros; apply emitsOnly_mineCatch]).
      destruct (He s1) as (tr2 & Ht2 & Hq2). exists tr2.
      unfold tryCatch in Ht2. split; [|exact Hq2].
      destruct (mineWith e cap s1) as [[[]|t] s2]; cbn [snd] in *;
        rewrite Ht2, Ht1; now rewrite app_assoc.
    - destruct (emitsOnly_mineCatch t s1) as (tr2 & Ht2 & Hq2). exists tr2.
      split; [|exact Hq2]. rewrite Ht2, Ht1. now rewrite app_assoc. }
  destruct Hmid as (tr2 & Ht2 & Hq2).
  unfold mineOnce. rewrite (bind_ok _ _ _ _ _ Hp). unfold bind.
  destruct (tryCatch _ mineCatch s0) as [[[]|t] s2]; cbn [snd] in *.
  - destruct (emitsOnly_mineEpilogue e s2) as (tr3 & Ht3 & Hq3).
    exists (tr1 ++ tr2 ++ tr3). split.
    + rewrite Ht3, Ht2. subst s0. cbn [trace]. now rewrite <- !app_assoc.
    + rewrite !countEv_app, Hc1, (notFetch_count _ Hq2), (notFetch_count _ Hq3).
      lia.
  - exists (tr1 ++ tr2). split.
    + rewrite Ht2. subst s0. reflexivity.
    + rewrite !countEv_app, Hc1, (notFetch_count _ Hq2). lia.
Qed.

(* ===================================================================== *)
(** ** Further properties of the mining loop *)
(* ===================================================================== *)

(** The counters after one iteration. *)
Lemma mineOnce_counters e s :
  exists s',
    mineOnce e s = (Return tt, s') /\
    ((succeeds e s /\
      blocksDestroyed (stats (ctx s')) = blocksDestroyed (stats (ctx s)) + 1 /\
      blocksAlreadyDestroyed (stats (ctx s')) =
        blocksAlreadyDestroyed (stats (ctx s)) /\
      errors (stats (ctx s')) = errors (stats (ctx s))) \/
     (~ succeeds e s /\
      blocksDestroyed (stats (ctx s')) = blocksDestroyed (stats (ctx s)) /\
      blocksAlreadyDestroyed (stats (ctx s')) =
        blocksAlreadyDestroyed (stats (ctx s)) + 1 /\
      errors (stats (ctx s')) = errors (stats (ctx s))) \/
     (~ succeeds e s /\
      blocksDestroyed (stats (ctx s')) = blocksDestroyed (stats (ctx s)) /\
      blocksAlreadyDestroyed (stats (ctx s')) =
        blocksAlreadyDestroyed (stats (ctx s)) /\
      errors (stats (ctx s')) = errors (stats (ctx s)) + 1)).
Proof.
  unfold succeeds.
  destruct (acquires_dec e s) as [Hacq | Hn].
  - destruct (success (destroyResultOf e)) eqn:Hs.
    + destruct (mineOnce_success e s Hacq Hs) as (s' & tr & Hm & Hc & _).
      unfold core in Hc. injection Hc as _ _ _ _ _ _ _ _ _ Hd Ha He.
      exists s'. split; [exact Hm|]. left. auto.
    + destruct (JS.truthy (alreadyDestroyed (destroyResultOf e))) eqn:Ha.
      * destruct (mineOnce_already e s Hacq Hs Ha) as (s' & tr & Hm & Hc & _).
        unfold core in Hc. injection Hc as _ _ _ _ _ _ _ _ _ Hd Hal He.
        exists s'. split; [exact Hm|]. right. left.
        repeat split; try assumption. now intros [_ [=]].
      * destruct (mineOnce_failure e s Hacq Hs Ha) as (s' & tr & Hm & Hc & _).
        unfold core in Hc. injection Hc as _ _ _ _ _ _ _ _ _ Hd Hal He.
        exists s'. split; [exact Hm|]. right. right.
        repeat split; try assumption. now intros [_ [=]].
  - destruct (mineOnce_raised e s Hn)
      as (t & s' & tr & _ & Hm & _ & Hc & _).
    unfold core in Hc. injection Hc as _ _ _ _ _ _ _ _ _ Hd Hal He.
    exists s'. split; [exact Hm|]. right. right.
    repeat split; try assumption. now intros [? _].
Qed.

Lemma miningLoop_counters envs :
  forall s,
    blocksDestroyed (stats (ctx s))
      <= blocksDestroyed (stats (ctx (snd (miningLoop envs s)))) /\
    blocksAlreadyDestroyed (stats (ctx s))
      <= blocksAlreadyDestroyed (stats (ctx (snd (miningLoop envs s)))) /\
    errors (stats (ctx s)) <= errors (stats (ctx (snd (miningLoop envs s)))) /\
    operations (ctx s) <= operations (ctx (snd (miningLoop envs s)))
      <= operations (ctx s) + Z.of_nat (List.length envs).
Proof.
  induction envs as [|e rest IH]; intros s.
  - cbn. lia.
  - destruct (running (ctx s)) eqn:Hrun.
    + destruct (mineOnce_counters e s) as (s' & Hm & Hcases).
      rewrite (miningLoop_unfold e rest s s' Hrun Hm).
      assert (Hone :
        blocksDestroyed (stats (ctx s)) <= blocksDestroyed (stats (ctx s')) /\
        blocksAlreadyDestroyed (stats (ctx s))
          <= blocksAlreadyDestroyed (stats (ctx s')) /\
        errors (stats (ctx s)) <= errors (stats (ctx s')) /\
        operations (ctx s') = operations (ctx s) + 1)
        by (unfold operations;
            destruct Hcases as [(_ & -> & -> & ->) | [(_ & -> & -> & ->)
                                                     | (_ & -> & -> & ->)]];
            lia).
      cbn [List.length]. rewrite Nat2Z.inj_succ.
      destruct (_ =? 0); [destruct (saveResp e)|];
        try (match goal with
             | |- context [miningLoop rest ?x] => specialize (IH x)
             end; cbn [ctx] in IH);
        cbn [snd ctx]; lia.
    + rewrite miningLoop_stopped by assumption. cbn [snd]. lia.
Qed.

(** X3. Every iteration of the loop counts exactly one operation: it adds
    one to exactly one of blocksDestroyed, blocksAlreadyDestroyed and
    errors and leaves the other two alone, and it is blocksDestroyed
    exactly when the operation succeeded. Over a whole run no counter ever
    goes down, and their sum grows by at most the number of iterations
    offered. *)
Theorem every_iteration_counts_one_operation :
  (forall e s, exists s',
      mineOnce e s = (Return tt, s') /\
      operations (ctx s') = operations (ctx s) + 1 /\
      blocksDestroyed (stats (ctx s))
        <= blocksDestroyed (stats (ctx s'))
        <= blocksDestroyed (stats (ctx s)) + 1 /\
      blocksAlreadyDestroyed (stats (ctx s))
        <= blocksAlreadyDestroyed (stats (ctx s'))
        <= blocksAlreadyDestroyed (stats (ctx s)) + 1 /\
      errors (stats (ctx s)) <= errors (stats (ctx s'))
        <= errors (stats (ctx s)) + 1 /\
      (blocksDestroyed (stats (ctx s')) = blocksDestroyed (stats (ctx s)) + 1
       <-> succeeds e s)) /\
  (forall envs s,
      blocksDestroyed (stats (ctx s))
        <= blocksDestroyed (stats (ctx (snd (miningLoop envs s)))) /\
      blocksAlreadyDestroyed (stats (ctx s))
        <= blocksAlreadyDestroyed (stats (ctx (snd (miningLoop envs s)))) /\
      errors (stats (ctx s))
        <= errors (stats (ctx (snd (miningLoop envs s)))) /\
      operations (ctx s) <= operations (ctx (snd (miningLoop envs s)))
        <= operations (ctx s) + Z.of_nat (List.length envs)).
Proof.
  split; [|intros envs s; apply miningLoop_counters].
  intros e s. destruct (mineOnce_counters e s) as (s' & Hm & Hcases).
  exists s'. split; [exact Hm|]. unfold operations.
  destruct Hcases as [(Hs & Hd & Ha & He) | [(Hs & Hd & Ha & He)
                                            | (Hs & Hd & Ha & He)]];
    rewrite Hd, Ha, He; repeat split; try lia; try (intros; assumption);
    intros; try contradiction; try lia; try (now destruct Hs);
    exfalso; lia.
Qed.

(** X4. An iteration fetches a capability at most once: not at all when
    the cache is valid for cost 1 at the clock reading of [getCapability],
    and exactly once otherwise, whatever else happens in the iteration. *)
Theorem iteration_fetches_at_most_once e s :
  exists tr,
    trace (snd (mineOnce e s)) = trace s ++ tr /\
    (cacheHit (clockGet e) 1 (capabilityCache s) ->
     countEv isFetch tr = 0%nat) /\
    (~ cacheHit (clockGet e) 1 (capabilityCache s) ->
     countEv isFetch tr = 1%nat).
Proof.
  destruct (isCacheValid_pure (clockGet e) 1 s) as [v Hv].
  destruct (mineOnce_fetch_count e s v Hv) as (tr & Ht & Hc).
  exists tr. split; [exact Ht|].
  destruct v.
  - apply isCacheValid_true_iff in Hv. split; [auto | contradiction].
  - apply isCacheValid_false_iff in Hv. split; [contradiction | auto].
Qed.

(** The cache after an iteration whose failure looks capability-related. *)
Lemma mineOnce_failure_clears e s :
  acquires e s ->
  success (destroyResultOf e) = false ->
  JS.truthy (alreadyDestroyed (destroyResultOf e)) = false ->
  looksCapabilityRelated (JS.lowerOrEmpty (error (destroyResultOf e))) = true ->
  capabilityCache (snd (mineOnce e s)) = None.
Proof.
  intros Hacq Hs Ha Hl.
  destruct (mineOnce_finished e s Hacq) as (s2 & tr2 & _ & _ & _ & K).
  destruct (mineOnFailure_spec (destroyResultOf e) s2) as (s3 & Hb & Hc3 & _).
  destruct (K s3) as (s' & tr4 & Hm & Hc4 & _);
    [unfold mineBranch; now rewrite Hs, Ha|].
  rewrite Hm. cbn [snd]. rewrite Hc4, Hc3, Hl. reflexivity.
Qed.

Lemma mineOnce_fetches_on_empty_cache e s :
  capabilityCache s = None ->
  exists tr,
    trace (snd (mineOnce e s)) = trace s ++ tr /\
    countEv isFetch tr = 1%nat.
Proof.
  intros Hc. apply (mineOnce_fetch_count e s false).
  apply isCacheValid_false_iff. rewrite Hc. intros (entry & [=] & _).
Qed.

(** X5. When the destruction of an iteration failed and the lowercased
    failure text contains capability, budget or exhausted, the iteration
    leaves the capability cache empty, and the next iteration, whatever its
    clock reads, fetches a capability exactly once. *)
Theorem capability_failure_forces_refetch e s :
  acquires e s ->
  success (destroyResultOf e) = false ->
  JS.truthy (alreadyDestroyed (destroyResultOf e)) = false ->
  JS.includes (JS.lowerOrEmpty (error (destroyResultOf e))) "capability"
  || JS.includes (JS.lowerOrEmpty (error (destroyResultOf e))) "budget"
  || JS.includes (JS.lowerOrEmpty (error (destroyResultOf e))) "exhausted"
  = true ->
  capabilityCache (snd (mineOnce e s)) = None /\
  forall next, exists tr,
    trace (snd (mineOnce next (snd (mineOnce e s)))) =
      trace (snd (mineOnce e s)) ++ tr /\
    countEv isFetch tr = 1%nat.
Proof.
  intros Hacq Hs Ha Hl.
  pose proof (mineOnce_failure_clears e s Hacq Hs Ha Hl) as Hnone.
  split; [exact Hnone|]. intros next.
  now apply mineOnce_fetches_on_empty_cache.
Qed.

Lemma capability_failure_forces_refetch_witness :
  capabilityCache
    (snd (mineOnce
            (Sample.withSim (Throw (ErrorObj "execution reverted: Capability expired"))
                            Sample.envOk)
            Sample.warm)) = None.
Proof.
  apply (capability_failure_forces_refetch
           (Sample.withSim (Throw (ErrorObj "execution reverted: Capability expired"))
                           Sample.envOk)
           Sample.warm).
  - right. exists Sample.cap1. reflexivity.
  - reflexivity.
  - reflexivity.
  - reflexivity.
Defined.

(** An iteration that gets its capability holds one in the cache when the
    branch on the result starts. *)
Lemma mineOnce_finished_cached e s :
  acquires e s ->
  exists s2,
    capabilityCache s2 <> None /\
    forall s3,
      mineBranch e (destroyResultOf e) s2 = (Return tt, s3) ->
      exists s',
        mineOnce e s = (Return tt, s') /\
        capabilityCache s' = capabilityCache s3.
Proof.
  intros Hacq.
  destruct (minePrologue_spec e s) as (c0 & Hp & _).
  set (s0 := mkState (capabilityCache s) c0 (trace s)) in *.
  assert (Hacq0 : acquires e s0) by now apply (acquires_cache e s s0).
  assert (Ha : exists cap s1,
             mineAcquire e s0 = (Return cap, s1) /\ capabilityCache s1 <> None).
  { unfold mineAcquire, bind at 1.
    unfold needsCapabilityRefresh, bind at 1.
    destruct (isCacheValid_pure (clockNeeds e) 1 s0) as [v1 ->].
    cbn [ret]. unfold bind at 1. cbn [getCtx]. unfold bind at 1.
    destruct (isCacheValid_pure (clockGet e) 1 s0) as [[|] Hv].
    - pose proof Hv as Hhit. apply isCacheValid_true_iff in Hhit.
      destruct Hhit as (entry & Hc & _).
      rewrite (getCapability_hit _ _ _ _ _ _ Hc Hv).
      destruct v1; exec;
        [|destruct (onCapabilityRefresh (callbacks c0))]; exec;
        do 2 eexists; (split; [reflexivity|]); discriminate.
    - rewrite (getCapability_miss _ _ _ _ _ Hv).
      destruct Hacq0 as [Hhit | (fresh & Hf)].
      + apply isCacheValid_true_iff in Hhit. congruence.
      + rewrite Hf.
        destruct v1; exec;
          [|destruct (onCapabilityRefresh (callbacks c0))]; exec;
          do 2 eexists; (split; [reflexivity|]); discriminate. }
  destruct Ha as (cap & s1 & Ha & Hsome).
  pose proof (destroyBlock_run e (droneId (ctx s1)) (randomContainer e)
                (randomBlock e) cap (feePerBlock (ctx s1)) s1) as Hd.
  match type of Hd with _ = (_, ?x) => set (s2 := x) in * end.
  exists s2. split; [exact Hsome|]. intros s3 Hb.
  destruct (mineEpilogue_spec e s3) as (s4 & tr4 & He & Hcache4 & _).
  exists s4. split; [|exact Hcache4].
  unfold mineOnce. rewrite (bind_ok _ _ _ _ _ Hp).
  erewrite bind_ok; [exact He|].
  apply tryCatch_ok. rewrite mineTry_split.
  rewrite (bind_ok _ _ _ _ _ Ha). unfold mineWith, bind at 1. cbn [getCtx].
  rewrite (bind_ok _ _ _ _ _ Hd). exact Hb.
Qed.

(** What the loop does with a failure text of [destroyBlock]. *)
Lemma mineOnce_on_failure_text e s msg :
  acquires e s ->
  destroyResultOf e = failed msg ->
  exists s',
    mineOnce e s = (Return tt, s') /\
    errors (stats (ctx s')) = errors (stats (ctx s)) + 1 /\
    blocksAlreadyDestroyed (stats (ctx s')) =
      blocksAlreadyDestroyed (stats (ctx s)) /\
    lastError (ctx s') = JS.orDefault (Some msg) "Unknown error" /\
    running (ctx s') =
      (if looksDepleted (JS.toLowerCase msg) then false else running (ctx s)) /\
    (if looksCapabilityRelated (JS.toLowerCase msg)
     then capabilityCache s' = None else capabilityCache s' <> None).
Proof.
  intros Hacq Hr.
  assert (Hs : success (destroyResultOf e) = false) by now rewrite Hr.
  assert (Ha : JS.truthy (alreadyDestroyed (destroyResultOf e)) = false)
    by now rewrite Hr.
  destruct (mineOnce_failure e s Hacq Hs Ha) as (s' & tr & Hm & Hc & _).
  rewrite Hr in Hc. cbn [error failed JS.lowerOrEmpty] in Hc.
  unfold core in Hc. injection Hc as _ _ _ _ _ Hrun Hlast _ _ _ Hal Herr.
  exists s'. repeat (split; [assumption|]).
  destruct (mineOnce_finished_cached e s Hacq) as (s2 & Hsome & K).
  destruct (mineOnFailure_spec (destroyResultOf e) s2) as (s3 & Hb & Hc3 & _).
  destruct (K s3) as (s'' & Hm' & Hc4);
    [unfold mineBranch; now rewrite Hs, Ha|].
  assert (s'' = s') by congruence. subst s''.
  rewrite Hr in Hc3. cbn [error failed JS.lowerOrEmpty] in Hc3.
  rewrite Hc4, Hc3.
  destruct (looksCapabilityRelated (JS.toLowerCase msg)); [reflexivity|exact Hsome].
Qed.

Lemma absent_cons l k keys :
  absent l (k :: keys) = true ->
  JS.includes l k = false /\ absent l keys = true.
Proof.
  unfold absent. cbn [forallb]. intros H.
  apply andb_true_iff in H. destruct H as [H1 H2].
  apply negb_true_iff in H1. now split.
Qed.

(** Reads the rows that did not match off an [absent] hypothesis. *)
Ltac rows H :=
  repeat (let H1 := fresh "Hrow" in
          apply absent_cons in H; destruct H as [H1 H]; try rewrite H1).

(** X6. What an iteration does with a message thrown by the simulation,
    row by row of the simulation's table (each row under the absence of the
    keys of the rows before it). Already destroyed: counted as already
    destroyed, no error, [running] untouched. Capability expired,
    capability exhausted, budget too low, invalid capability signature: one
    error, the row's text as last error, the cache cleared, [running]
    untouched. Not authorized: one error, the cache kept, [running]
    untouched, also when battery depleted occurs in the message. Battery
    depleted: one error, the cache kept, [running] cleared. *)
Theorem simulation_message_decides_the_iteration e s t :
  acquires e s ->
  simResp e = Throw t ->
  exists s',
    mineOnce e s = (Return tt, s') /\
    (JS.includes (JS.toLowerCase (messageOf t)) "already destroyed" = true ->
     blocksAlreadyDestroyed (stats (ctx s')) =
       blocksAlreadyDestroyed (stats (ctx s)) + 1 /\
     errors (stats (ctx s')) = errors (stats (ctx s)) /\
     running (ctx s') = running (ctx s)) /\
    (forall before key text,
        In (before, key, text)
           [ (["already destroyed"], "capability expired",
              "Capability expired");
             (["already destroyed"; "capability expired"],
              "capability exhausted", "Capability exhausted (on-chain)");
             (["already destroyed"; "capability expired";
               "capability exhausted"],
              "budget too low",
              "Capability budget too low (cap.budget < cost)");
             (["already destroyed"; "capability expired";
               "capability exhausted"; "budget too low"; "not authorized"],
              "invalid capability signature",
              "Invalid capability signature") ]%string ->
        absent (JS.toLowerCase (messageOf t)) before = true ->
        JS.includes (JS.toLowerCase (messageOf t)) key = true ->
        errors (stats (ctx s')) = errors (stats (ctx s)) + 1 /\
        lastError (ctx s') = text /\
        capabilityCache s' = None /\
        running (ctx s') = running (ctx s)) /\
    (absent (JS.toLowerCase (messageOf t))
       ["already destroyed"; "capability expired"; "capability exhausted";
        "budget too low"]%string = true ->
     JS.includes (JS.toLowerCase (messageOf t)) "not authorized" = true ->
     errors (stats (ctx s')) = errors (stats (ctx s)) + 1 /\
     lastError (ctx s') = "Not authorized for license"%string /\
     capabilityCache s' <> None /\
     running (ctx s') = running (ctx s)) /\
    (absent (JS.toLowerCase (messageOf t))
       ["already destroyed"; "capability expired"; "capability exhausted";
        "budget too low"; "not authorized";
        "invalid capability signature"]%string = true ->
     JS.includes (JS.toLowerCase (messageOf t)) "battery depleted" = true ->
     errors (stats (ctx s')) = errors (stats (ctx s)) + 1 /\
     lastError (ctx s') = "Battery depleted - shift ended"%string /\
     capabilityCache s' <> None /\
     running (ctx s') = false).
Proof.
  intros Hacq Hsim.
  destruct (mineOnce_returns e s) as (s' & Hm). exists s'.
  split; [exact Hm|].
  assert (Hr : destroyResultOf e = simCatch t)
    by (unfold destroyResultOf; now rewrite Hsim).
  assert (Htext : forall msg,
             simCatch t = failed msg ->
             errors (stats (ctx s')) = errors (stats (ctx s)) + 1 /\
             lastError (ctx s') = JS.orDefault (Some msg) "Unknown error" /\
             running (ctx s') =
               (if looksDepleted (JS.toLowerCase msg) then false
                else running (ctx s)) /\
             (if looksCapabilityRelated (JS.toLowerCase msg)
              then capabilityCache s' = None else capabilityCache s' <> None)).
  { intros msg Hmsg. rewrite Hmsg in Hr.
    destruct (mineOnce_on_failure_text e s msg Hacq Hr)
      as (s'' & Hm' & He & _ & Hl & Hrun & Hcache).
    assert (s'' = s') by congruence. subst s''. auto. }
  split; [|split; [|split]].
  - intros Hrow.
    assert (Hres : destroyResultOf e =
                   mkResult false None (Some "Already destroyed"%string)
                            (Some true))
      by (rewrite Hr; unfold simCatch; now rewrite Hrow).
    destruct (mineOnce_already e s Hacq) as (s'' & tr & Hm' & Hc & _);
      [now rewrite Hres | now rewrite Hres|].
    assert (s'' = s') by congruence. subst s''.
    unfold core in Hc. injection Hc as _ _ _ _ _ Hrun _ _ _ _ Hal Herr.
    auto.
  - intros before key text Hin Habs Hkey.
    cbn [In] in Hin.
    destruct Hin as [Hin|[Hin|[Hin|[Hin|[]]]]]; injection Hin as <- <- <-;
      rows Habs;
      match goal with
      | |- _ /\ lastError _ = ?text /\ _ =>
          destruct (Htext text) as (He & Hl & Hrun & Hcache);
            [unfold simCatch; rewrite ?Hrow, ?Hrow0, ?Hrow1, ?Hrow2, ?Hrow3,
               ?Hkey; reflexivity|]
      end; repeat split; assumption.
  - intros Habs Hkey. rows Habs.
    destruct (Htext "Not authorized for license"%string)
      as (He & Hl & Hrun & Hcache);
      [unfold simCatch; rewrite ?Hrow, ?Hrow0, ?Hrow1, ?Hrow2, ?Hkey;
       reflexivity|].
    repeat split; assumption.
  - intros Habs Hkey. rows Habs.
    destruct (Htext "Battery depleted - shift ended"%string)
      as (He & Hl & Hrun & Hcache);
      [unfold simCatch;
       rewrite ?Hrow, ?Hrow0, ?Hrow1, ?Hrow2, ?Hrow3, ?Hrow4, ?Hkey;
       reflexivity|].
    repeat split; assumption.
Qed.

Lemma simulation_message_decides_the_iteration_witness :
  exists s',
    mineOnce Sample.envDepleted Sample.cold = (Return tt, s') /\
    running (ctx s') = false /\ capabilityCache s' <> None.
Proof.
  destruct (simulation_message_decides_the_iteration
              Sample.envDepleted Sample.cold
              (ErrorObj "execution reverted: Battery depleted - shift ended"))
    as (s' & Hm & _ & _ & _ & Hrow).
  - right. exists Sample.cap1. reflexivity.
  - reflexivity.
  - exists s'. split; [exact Hm|].
    destruct Hrow as (_ & _ & Hcache & Hrun); [reflexivity | reflexivity|].
    now split.
Defined.

(* ===================================================================== *)
(** ** Further properties of the capability cache *)
(* ===================================================================== *)

Lemma getCapability_cases e w d cost s :
  (exists entry,
      capabilityCache s = Some entry /\
      remainingBudget entry >= cost /\
      JS.floorDiv (clockGet e) 1000 < expiresAt (capability (bundle entry)) - 30 /\
      getCapability e w d cost s =
        (Return (bundle entry),
         mkState (Some (mkCached (bundle entry) (remainingBudget entry - cost)
                                 (fetchedAt entry)))
                 (ctx s) (trace s))) \/
  (~ cacheHit (clockGet e) cost (capabilityCache s) /\
   exists fresh,
      fetchResp e = Return fresh /\
      getCapability e w d cost s =
        (Return fresh,
         mkState (Some (mkCached fresh (budget (capability fresh) - cost)
                                 (clockFetched e)))
                 (ctx s) (trace s ++ [FetchCapability w CAP_MODE_MINE d]))) \/
  (~ cacheHit (clockGet e) cost (capabilityCache s) /\
   exists t,
      fetchResp e = Throw t /\
      getCapability e w d cost s =
        (Throw t,
         mkState (capabilityCache s) (ctx s)
                 (trace s ++ [FetchCapability w CAP_MODE_MINE d]))).
Proof.
  destruct (isCacheValid_pure (clockGet e) cost s) as [[|] Hv].
  - left. pose proof Hv as Hhit. apply isCacheValid_true_iff in Hhit.
    destruct Hhit as (entry & Hc & Hnow & Hb). exists entry.
    repeat (split; [assumption|]). now apply getCapability_hit.
  - right. rewrite (getCapability_miss _ _ _ _ _ Hv).
    apply isCacheValid_false_iff in Hv.
    destruct (fetchResp e) as [fresh|t]; [left | right]; eauto.
Qed.

Lemma keeps_getCapability_budgetOk e w d cost :
  0 <= cost ->
  keeps (fun s => budgetOk (capabilityCache s)) (getCapability e w d cost).
Proof.
  intros Hcost s H.
  destruct (getCapability_cases e w d cost s)
    as [(entry & Hc & _ & _ & ->) | [(_ & fresh & _ & ->) | (_ & t & _ & ->)]];
    cbn [snd capabilityCache]; [| |exact H].
  - intros x [= <-]. cbn. specialize (H entry Hc). lia.
  - intros x [= <-]. cbn. lia.
Qed.

Lemma keeps_getCapability_budgetNonneg e w d :
  issuesBudget e ->
  keeps (fun s => budgetNonneg (capabilityCache s)) (getCapability e w d 1).
Proof.
  intros Hissue s H.
  destruct (getCapability_cases e w d 1 s)
    as [(entry & Hc & Hb & _ & ->) | [(_ & fresh & Hf & ->) | (_ & t & _ & ->)]];
    cbn [snd capabilityCache]; [| |exact H].
  - intros x [= <-]. cbn. lia.
  - intros x [= <-]. cbn. specialize (Hissue fresh Hf). lia.
Qed.

(** An iteration keeps a property of the cache that the acquisition keeps
    and that holds of the empty cache. *)
Lemma keeps_mineOnce_cache (P : option CachedCapability -> Prop) e :
  P None ->
  (forall w d, keeps (fun s => P (capabilityCache s)) (getCapability e w d 1)) ->
  keeps (fun s => P (capabilityCache s)) (mineOnce e).
Proof.
  intros Hnone Hget.
  assert (Htr : forall s tr,
             P (capabilityCache s) ->
             P (capabilityCache (mkState (capabilityCache s) (ctx s) tr)))
    by (intros; assumption).
  unfold mineOnce, minePrologue, mineTry, mineAcquire, mineOnSuccess,
    mineOnAlreadyDestroyed, mineOnFailure, mineCatch, mineEpilogue, markGrid,
    clearCapabilityCache, getLicenseStatus, getBalance,
    getUnprocessedCubeBalance, getCubeBalance.
  cbv zeta.
  repeat first
    [ apply Hget
    | apply keeps_modifyCtx; intros ? ?; assumption
    | apply keeps_putCache; intros ? ?; exact Hnone
    | keeps_step ].
Qed.

Lemma keeps_miningLoop_cache (P : option CachedCapability -> Prop) envs :
  P None ->
  Forall (fun e => forall w d,
              keeps (fun s => P (capabilityCache s)) (getCapability e w d 1))
         envs ->
  keeps (fun s => P (capabilityCache s)) (miningLoop envs).
Proof.
  intros Hnone. induction 1 as [|e rest He _ IH]; [apply keeps_ret; auto|].
  assert (Htr : forall s tr,
             P (capabilityCache s) ->
             P (capabilityCache (mkState (capabilityCache s) (ctx s) tr)))
    by (intros; assumption).
  cbn [miningLoop].
  repeat first
    [ apply keeps_mineOnce_cache; assumption
    | exact IH
    | keeps_step ].
Qed.

(** X7. The local budget counter never exceeds the budget of the cached
    capability: one [getCapability] of non-negative cost keeps that bound,
    and so does a whole mining session. When the endpoint only issues
    capabilities with a budget of at least 1, the counter of a session also
    never goes below 0. *)
Theorem local_budget_stays_within_the_capability s :
  budgetOk (capabilityCache s) ->
  (forall e w d cost,
      0 <= cost ->
      budgetOk (capabilityCache (snd (getCapability e w d cost s)))) /\
  (forall envs,
      budgetOk (capabilityCache (snd (startMining envs s)))) /\
  (forall envs,
      budgetNonneg (capabilityCache s) ->
      Forall issuesBudget envs ->
      budgetNonneg (capabilityCache (snd (startMining envs s)))).
Proof.
  intros Hok. split; [|split].
  - intros e w d cost Hcost.
    now apply (keeps_getCapability_budgetOk e w d cost Hcost s).
  - intros envs. unfold startMining, bind, modifyCtx.
    apply (keeps_miningLoop_cache budgetOk envs).
    + intros x [=].
    + apply Forall_forall. intros e _ w d.
      apply keeps_getCapability_budgetOk. lia.
    + exact Hok.
  - intros envs Hnn Hissue. unfold startMining, bind, modifyCtx.
    apply (keeps_miningLoop_cache budgetNonneg envs).
    + intros x [=].
    + eapply Forall_impl; [|exact Hissue]. intros e He w d.
      now apply keeps_getCapability_budgetNonneg.
    + exact Hnn.
Qed.

Lemma local_budget_stays_within_the_capability_witness :
  budgetOk
    (capabilityCache (snd (startMining (repeat Sample.envOk 60) Sample.warm))).
Proof.
  apply (local_budget_stays_within_the_capability Sample.warm).
  intros entry [= <-]. vm_compute. discriminate.
Defined.

Lemma acquireEach_spends envs :
  forall w d s entry,
    capabilityCache s = Some entry ->
    remainingBudget entry >= Z.of_nat (List.length envs) ->
    Forall (fun e => JS.floorDiv (clockGet e) 1000
                     < expiresAt (capability (bundle entry)) - 30) envs ->
    acquireEach envs w d s =
      (Return tt,
       mkState (Some (mkCached (bundle entry)
                        (remainingBudget entry - Z.of_nat (List.length envs))
                        (fetchedAt entry)))
               (ctx s) (trace s)).
Proof.
  induction envs as [|e rest IH]; intros w d s entry Hc Hb Hnow.
  - cbn. rewrite Z.sub_0_r. destruct s as [c x t], entry as [b r f].
    cbn in *. now subst c.
  - assert (He : JS.floorDiv (clockGet e) 1000
                 < expiresAt (capability (bundle entry)) - 30)
      by now inversion Hnow.
    assert (Hrest : Forall (fun e => JS.floorDiv (clockGet e) 1000
                       < expiresAt (capability (bundle entry)) - 30) rest)
      by now inversion Hnow.
    cbn [List.length] in Hb. rewrite Nat2Z.inj_succ in Hb.
    cbn [acquireEach].
    erewrite bind_ok.
    2:{ apply getCapability_hit; [exact Hc|].
        apply isCacheValid_true_iff. exists entry. repeat split; auto; lia. }
    erewrite (IH w d _ (mkCached (bundle entry) (remainingBudget entry - 1)
                                 (fetchedAt entry)));
      [|reflexivity | cbn; lia | exact Hrest].
    cbn [bundle remainingBudget fetchedAt ctx trace List.length].
    rewrite Nat2Z.inj_succ. do 4 f_equal. lia.
Qed.

(** X8. A cached capability with n units left serves exactly n
    acquisitions of cost 1 made before its expiry margin: none of them
    fetches, the bundle stays the same and the counter ends at 0; the
    acquisition after them fetches, whatever the clock reads. *)
Theorem cached_capability_serves_its_budget envs w d s entry :
  capabilityCache s = Some entry ->
  remainingBudget entry = Z.of_nat (List.length envs) ->
  Forall (fun e => JS.floorDiv (clockGet e) 1000
                   < expiresAt (capability (bundle entry)) - 30) envs ->
  acquireEach envs w d s =
    (Return tt,
     mkState (Some (mkCached (bundle entry) 0 (fetchedAt entry)))
             (ctx s) (trace s)) /\
  forall next,
    trace (snd (getCapability next w d 1 (snd (acquireEach envs w d s)))) =
      trace s ++ [FetchCapability w CAP_MODE_MINE d].
Proof.
  intros Hc Hb Hnow.
  assert (Hrun := acquireEach_spends envs w d s entry Hc
                    ltac:(lia) Hnow).
  rewrite Hb, Z.sub_diag in Hrun. split; [exact Hrun|].
  intros next. rewrite Hrun. cbn [snd].
  rewrite getCapability_miss.
  - now destruct (fetchResp next).
  - apply isCacheValid_false_iff. intros (x & [= <-] & _ & Hbud).
    cbn in Hbud. lia.
Qed.

Lemma cached_capability_serves_its_budget_witness :
  acquireEach (repeat Sample.envOk 49) "0xabc" 42 Sample.warm =
    (Return tt,
     mkState (Some (mkCached Sample.cap1 0 1000000)) Sample.ctx0 []).
Proof.
  apply (cached_capability_serves_its_budget
           (repeat Sample.envOk 49) "0xabc" 42 Sample.warm
           (mkCached Sample.cap1 49 1000000)).
  - reflexivity.
  - reflexivity.
  - apply Forall_forall. intros e He. apply repeat_spec in He. subst e.
    vm_compute. reflexivity.
Defined.

(* ===================================================================== *)
(** ** The grid, the refresh counter and the location *)
(* ===================================================================== *)

Lemma gridSet_length i v g : List.length (gridSet i v g) = List.length g.
Proof.
  revert i. induction g as [|c g IH]; intros [|i]; cbn; auto.
Qed.

(** Takes a computation apart for a property of the context that the
    cache does not touch; [tac] settles each write to the context. *)
Ltac keeps_ctx tac :=
  repeat first
    [ apply keeps_modifyCtx; tac
    | apply keeps_putCache; let H := fresh in intros ? H; exact H
    | keeps_step
    | unfold keeps; let H := fresh in intros ? H; exact H ].

Ltac unfold_mine :=
  unfold minePrologue, mineTry, mineAcquire, mineWith, mineBranch,
    mineOnSuccess, mineOnAlreadyDestroyed, mineOnFailure, mineCatch,
    mineEpilogue, markGrid, clearCapabilityCache, getLicenseStatus,
    getBalance, getUnprocessedCubeBalance, getCubeBalance, getCapability,
    fetchCapability;
  cbv zeta.

Lemma keeps_grid_before_epilogue e g :
  keeps (fun s => List.length (grid (ctx s)) = 100%nat /\ gridIndex (ctx s) = g)
        (minePrologue e) /\
  keeps (fun s => List.length (grid (ctx s)) = 100%nat /\ gridIndex (ctx s) = g)
        (tryCatch (mineTry e (randomContainer e) (randomBlock e)) mineCatch).
Proof.
  assert (Htr : forall s tr,
             List.length (grid (ctx s)) = 100%nat /\ gridIndex (ctx s) = g ->
             List.length (grid (ctx (mkState (capabilityCache s) (ctx s) tr)))
               = 100%nat /\
             gridIndex (ctx (mkState (capabilityCache s) (ctx s) tr)) = g)
    by (intros; assumption).
  split; unfold_mine;
    keeps_ctx ltac:(intros ? [? ?]; cbn; rewrite ?gridSet_length; now split).
Qed.

Lemma mineEpilogue_grid e s :
  List.length (grid (ctx s)) = 100%nat ->
  0 <= gridIndex (ctx s) < 100 ->
  List.length (grid (ctx (snd (mineEpilogue e s)))) = 100%nat /\
  gridIndex (ctx (snd (mineEpilogue e s))) = (gridIndex (ctx s) + 1) mod 100 /\
  (gridIndex (ctx s) = 99 -> grid (ctx (snd (mineEpilogue e s))) = emptyGrid) /\
  (gridIndex (ctx s) < 99 -> grid (ctx (snd (mineEpilogue e s))) = grid (ctx s)).
Proof.
  intros Hlen Hidx. unfold mineEpilogue. exec.
  destruct (Z.geb_spec (gridIndex (ctx s) + 1) 100) as [Hge|Hlt]; exec;
    (destruct (JS.rem (blocksDestroyed (stats (ctx s)) + errors (stats (ctx s))) 5
               =? 0); exec;
     [destruct (balanceResp e); exec;
      [destruct (unprocessedResp e); exec; destruct (cubeResp e); exec|]|]);
    destruct (onStats (callbacks (ctx s))); exec;
    repeat split; try (intros; lia); try reflexivity; try assumption;
    try (replace (gridIndex (ctx s)) with 99 by lia; reflexivity);
    try (rewrite Z.mod_small by lia; reflexivity).
Qed.

Lemma mineOnce_grid e s :
  gridOk (ctx s) ->
  gridOk (ctx (snd (mineOnce e s))) /\
  gridIndex (ctx (snd (mineOnce e s))) = (gridIndex (ctx s) + 1) mod 100 /\
  (gridIndex (ctx s) = 99 -> grid (ctx (snd (mineOnce e s))) = emptyGrid).
Proof.
  intros [Hlen Hidx].
  destruct (keeps_grid_before_epilogue e (gridIndex (ctx s))) as [Kp Kt].
  destruct (mineOnce_returns e s) as (s' & Hm).
  unfold mineOnce, bind in *.
  specialize (Kp s (conj Hlen eq_refl)).
  destruct (minePrologue e s) as [[[]|t0] s0]; [|discriminate Hm].
  cbn [snd] in Kp. specialize (Kt s0 Kp).
  destruct (tryCatch _ mineCatch s0) as [[[]|t1] s1]; [|discriminate Hm].
  cbn [snd] in Kt. destruct Kt as [Hlen1 Hidx1].
  destruct (mineEpilogue_grid e s1 Hlen1) as (Hl & Hi & He & _);
    [rewrite Hidx1; exact Hidx|].
  rewrite Hidx1 in Hi, He. split; [|split; assumption].
  split; [exact Hl|]. rewrite Hi. apply Z.mod_pos_bound. lia.
Qed.

Lemma miningLoop_grid envs :
  forall s, gridOk (ctx s) -> gridOk (ctx (snd (miningLoop envs s))).
Proof.
  induction envs as [|e rest IH]; intros s Hok; [exact Hok|].
  destruct (running (ctx s)) eqn:Hrun; [|now rewrite miningLoop_stopped].
  destruct (mineOnce_returns e s) as (s' & Hm).
  pose proof (mineOnce_grid e s Hok) as (Hok' & _). rewrite Hm in Hok'.
  cbn [snd] in Hok'.
  rewrite (miningLoop_unfold e rest s s' Hrun Hm).
  destruct (_ =? 0); [destruct (saveResp e)|]; try apply IH; assumption.
Qed.

(** X9. The grid of a fresh context has its 100 cells with the cursor on
    the first. Every iteration keeps the grid at 100 cells and moves the
    cursor to the next cell, back to the first after the last, where the
    grid is wiped; so through a whole session started on a fresh context
    the cursor is always on a cell of the grid. *)
Theorem grid_cursor_stays_on_the_grid :
  (forall e s,
      gridOk (ctx s) ->
      gridOk (ctx (snd (mineOnce e s))) /\
      gridIndex (ctx (snd (mineOnce e s))) = (gridIndex (ctx s) + 1) mod 100 /\
      (gridIndex (ctx s) = 99 ->
       grid (ctx (snd (mineOnce e s))) = emptyGrid)) /\
  (forall droneId account fee balance cube unprocessed owner battery mx cbs
          statsNow batteryNow cache tr envs,
      gridOk
        (ctx (snd (startMining envs
                     (mkState cache
                        (createMinerContext droneId account fee balance cube
                           unprocessed owner battery mx cbs statsNow batteryNow)
                        tr))))).
Proof.
  split; [exact mineOnce_grid|].
  intros. unfold startMining, bind, modifyCtx. apply miningLoop_grid.
  unfold gridOk, createMinerContext, set_running. cbn [snd ctx grid gridIndex].
  split; [reflexivity | lia].
Qed.

Lemma keeps_refreshes_outside_acquire e n :
  keeps (fun s => capabilityRefreshes (stats (ctx s)) = n) (minePrologue e) /\
  (forall cap,
      keeps (fun s => capabilityRefreshes (stats (ctx s)) = n)
            (tryCatch (mineWith e cap) mineCatch)) /\
  (forall t,
      keeps (fun s => capabilityRefreshes (stats (ctx s)) = n) (mineCatch t)) /\
  keeps (fun s => capabilityRefreshes (stats (ctx s)) = n) (mineEpilogue e).
Proof.
  assert (Htr : forall s tr,
             capabilityRefreshes (stats (ctx s)) = n ->
             capabilityRefreshes
               (stats (ctx (mkState (capabilityCache s) (ctx s) tr))) = n)
    by (intros; assumption).
  repeat split; intros; unfold_mine;
    keeps_ctx ltac:(let H := fresh in intros ? H; cbn; exact H).
Qed.

(** X11. When the probe and the acquisition of an iteration read the same
    clock, the refresh counter goes up by one exactly when the iteration
    fetched a capability and the endpoint answered; a valid cache and a
    failed fetch both leave it as it was. *)
Theorem refresh_counter_counts_answered_fetches e s :
  clockNeeds e = clockGet e ->
  (cacheHit (clockGet e) 1 (capabilityCache s) ->
   capabilityRefreshes (stats (ctx (snd (mineOnce e s)))) =
     capabilityRefreshes (stats (ctx s))) /\
  (~ cacheHit (clockGet e) 1 (capabilityCache s) ->
   (forall fresh,
       fetchResp e = Return fresh ->
       capabilityRefreshes (stats (ctx (snd (mineOnce e s)))) =
         capabilityRefreshes (stats (ctx s)) + 1) /\
   (forall t,
       fetchResp e = Throw t ->
       capabilityRefreshes (stats (ctx (snd (mineOnce e s)))) =
         capabilityRefreshes (stats (ctx s)))).
Proof.
  intros Hclock.
  set (n := capabilityRefreshes (stats (ctx s))).
  pose proof (keeps_refreshes_outside_acquire e n) as (Kp & _ & _ & _).
  specialize (Kp s eq_refl).
  destruct (minePrologue_spec e s) as (c0 & Hp & _).
  rewrite Hp in Kp. cbn [snd ctx] in Kp.
  set (s0 := mkState (capabilityCache s) c0 (trace s)) in *.
  assert (Hacq : forall v,
             isCacheValid (clockGet e) 1 s0 = (Return v, s0) ->
             exists o s1,
               mineAcquire e s0 = (o, s1) /\
               match o with
               | Return _ =>
                   capabilityRefreshes (stats (ctx s1)) =
                     n + (if v then 0 else 1)
               | Throw _ =>
                   v = false /\ (exists t, fetchResp e = Throw t) /\
                   capabilityRefreshes (stats (ctx s1)) = n
               end /\
               (v = false ->
                forall fresh, fetchResp e = Return fresh ->
                              exists cap, o = Return cap)).
  { intros v Hv. unfold mineAcquire, bind at 1.
    unfold needsCapabilityRefresh, bind at 1. rewrite Hclock, Hv.
    cbn [ret]. unfold bind at 1. cbn [getCtx]. unfold bind at 1.
    destruct v.
    - pose proof Hv as Hhit. apply isCacheValid_true_iff in Hhit.
      destruct Hhit as (entry & Hc & _).
      rewrite (getCapability_hit _ _ _ _ _ _ Hc Hv). exec.
      do 2 eexists. split; [reflexivity|]. split; [cbn; lia | discriminate].
    - rewrite (getCapability_miss _ _ _ _ _ Hv).
      destruct (fetchResp e) as [fresh|t].
      + exec. destruct (onCapabilityRefresh (callbacks c0)); exec;
          do 2 eexists; (split; [reflexivity|]);
          (split; [cbn; lia | eauto]).
      + cbn. do 2 eexists. split; [reflexivity|].
        split; [eauto | discriminate]. }
  assert (Hrun : forall (v : bool) (o : Outcome CapabilityBundle) s1,
             mineAcquire e s0 = (o, s1) ->
             capabilityRefreshes (stats (ctx s1)) =
               n + (match o with Return _ => if v then 0 else 1 | Throw _ => 0 end) ->
             capabilityRefreshes (stats (ctx (snd (mineOnce e s)))) =
               n + (match o with Return _ => if v then 0 else 1 | Throw _ => 0 end)).
  { intros v o s1 Ha Hn.
    pose proof (keeps_refreshes_outside_acquire e
                  (n + match o with
                       | Return _ => if v then 0 else 1
                       | Throw _ => 0
                       end)) as (_ & Kw & Kc & Ke).
    unfold mineOnce. rewrite (bind_ok _ _ _ _ _ Hp).
    rewrite mineTry_split. unfold bind at 1, tryCatch at 1, bind at 1.
    rewrite Ha.
    destruct o as [cap|t].
    - specialize (Kw cap s1 Hn). unfold tryCatch in Kw.
      destruct (mineWith e cap s1) as [[[]|t] s2]; cbn [snd] in Kw.
      + now apply Ke.
      + specialize (Ke (snd (mineCatch t s2)) Kw).
        destruct (mineCatch t s2) as [[[]|t'] s3]; cbn [snd] in *;
          [exact Ke | exact Kw].
    - specialize (Kc t s1 Hn).
      destruct (mineCatch t s1) as [[[]|t'] s2]; cbn [snd] in *;
        [now apply Ke | exact Kc]. }
  assert (Hsame : forall v,
             isCacheValid (clockGet e) 1 s = (Return v, s) ->
             isCacheValid (clockGet e) 1 s0 = (Return v, s0)).
  { intros v Hv. destruct (isCacheValid_pure (clockGet e) 1 s0) as [v0 Hv0].
    rewrite Hv0. f_equal. f_equal. destruct v0, v; try reflexivity.
    - apply isCacheValid_true_iff in Hv0. apply isCacheValid_false_iff in Hv.
      contradiction.
    - apply isCacheValid_false_iff in Hv0. apply isCacheValid_true_iff in Hv.
      contradiction. }
  split.
  - intros Hhit. apply isCacheValid_true_iff in Hhit. apply Hsame in Hhit.
    destruct (Hacq true Hhit) as (o & s1 & Ha & Ho & _).
    destruct o as [cap|t]; [|destruct Ho as ([=] & _)].
    rewrite (Hrun true _ _ Ha); [lia | rewrite Ho; lia].
  - intros Hmiss. apply isCacheValid_false_iff in Hmiss. apply Hsame in Hmiss.
    destruct (Hacq false Hmiss) as (o & s1 & Ha & Ho & Hans).
    split.
    + intros fresh Hf. destruct (Hans eq_refl fresh Hf) as (cap & ->).
      rewrite (Hrun false _ _ Ha); [lia | rewrite Ho; lia].
    + intros t Hf. destruct o as [cap|t'].
      * exfalso. clear Hrun. revert Ha. unfold mineAcquire, bind at 1.
        unfold needsCapabilityRefresh, bind at 1. rewrite Hclock, Hmiss.
        cbn [ret]. unfold bind at 1. cbn [getCtx]. unfold bind at 1.
        rewrite (getCapability_miss _ _ _ _ _ Hmiss), Hf. discriminate.
      * destruct Ho as (_ & _ & Ho).
        rewrite (Hrun false _ _ Ha); [lia | rewrite Ho; lia].
Qed.

Lemma refresh_counter_counts_answered_fetches_witness :
  capabilityRefreshes (stats (ctx (snd (mineOnce Sample.envOk Sample.cold)))) =
    capabilityRefreshes (stats (ctx Sample.cold)) + 1.
Proof.
  destruct (refresh_counter_counts_answered_fetches Sample.envOk Sample.cold)
    as (_ & Hmiss); [reflexivity|].
  destruct Hmiss as (Hok & _).
  - intros (entry & H & _). discriminate H.
  - apply (Hok Sample.cap1). reflexivity.
Defined.

(** X10. For a container id of the layer the location has a face from 0 to
    5, a sector and a region from 0 to 255 and a container from 0 to 3, so
    the dashboard always finds the name of the face; and two ids of the
    layer with the same location are the same id. *)
Theorem decomposeContainer_names_a_unique_location id1 id2 :
  0 <= id1 < CONTAINERS_PER_LAYER ->
  0 <= id2 < CONTAINERS_PER_LAYER ->
  (0 <= face (decomposeContainer id1) < 6 /\
   0 <= sector (decomposeContainer id1) < 256 /\
   0 <= region (decomposeContainer id1) < 256 /\
   0 <= container (decomposeContainer id1) < 4) /\
  (exists name, faceName (face (decomposeContainer id1)) = Some name) /\
  (decomposeContainer id1 = decomposeContainer id2 -> id1 = id2).
Proof.
  intros H1 H2.
  pose proof (decomposeContainer_ranges id1 H1) as R1. cbv zeta in R1.
  split; [exact R1|]. split.
  - destruct R1 as ((Hlo & Hhi) & _). unfold faceName.
    destruct (Z.ltb_spec (face (decomposeContainer id1)) 0); [lia|].
    destruct (nth_error FACE_NAMES (Z.to_nat (face (decomposeContainer id1))))
      as [name|] eqn:E; [eauto|].
    apply nth_error_None in E. unfold FACE_NAMES in E.
    cbn [List.length] in E. lia.
  - assert (Hinv : forall i, 0 <= i < CONTAINERS_PER_LAYER ->
                             recompose (decomposeContainer i) = i).
    { intros i Hi. unfold CONTAINERS_PER_LAYER in Hi.
      unfold recompose, decomposeContainer, JS.rem, JS.floorDiv.
      cbn [face sector region container].
      assert (0 <= i / 4) by (apply Z.div_pos; lia).
      assert (0 <= i / 4 / 256) by (apply Z.div_pos; lia).
      rewrite !Z.rem_mod_nonneg by lia.
      pose proof (Z.div_mod i 4). pose proof (Z.div_mod (i / 4) 256).
      pose proof (Z.div_mod (i / 4 / 256) 256). lia. }
    intros E. rewrite <- (Hinv id1 H1), <- (Hinv id2 H2). now rewrite E.
Qed.

Lemma decomposeContainer_names_a_unique_location_witness :
  faceName (face (decomposeContainer 1234567)) = Some "EAST"%string.
Proof.
  destruct (decomposeContainer_names_a_unique_location 1234567 1572863)
    as (_ & (name & Hname) & _).
  - unfold CONTAINERS_PER_LAYER. lia.
  - unfold CONTAINERS_PER_LAYER. lia.
  - reflexivity.
Defined.

(** X12. For a duration that is not negative, [formatDuration] shows
    hours, minutes and seconds that add up to the whole seconds of the
    duration, with minutes and seconds below 60; it leaves out the hours
    when there is none, and the minutes too when there is neither. A
    negative duration is shown as its whole seconds alone. *)
Theorem formatDuration_shows_the_whole_seconds :
  (forall ms,
      0 <= ms ->
      exists h m s,
        h * 3600 + m * 60 + s = ms / 1000 /\
        0 <= h /\ 0 <= m < 60 /\ 0 <= s < 60 /\
        formatDuration ms =
          if h >? 0 then
            (showZ h ++ "h " ++ showZ m ++ "m " ++ showZ s ++ "s")%string
          else if m >? 0 then (showZ m ++ "m " ++ showZ s ++ "s")%string
          else (showZ s ++ "s")%string) /\
  (forall ms, ms < 0 -> formatDuration ms = (showZ (ms / 1000) ++ "s")%string).
Proof.
  split.
  - intros ms Hms.
    set (sec := ms / 1000).
    assert (Hsec : 0 <= sec) by (apply Z.div_pos; lia).
    assert (Hmin : 0 <= sec / 60) by (apply Z.div_pos; lia).
    exists (sec / 60 / 60), ((sec / 60) mod 60), (sec mod 60).
    pose proof (Z.div_mod sec 60 ltac:(lia)) as D1.
    pose proof (Z.div_mod (sec / 60) 60 ltac:(lia)) as D2.
    pose proof (Z.mod_pos_bound sec 60 ltac:(lia)) as B1.
    pose proof (Z.mod_pos_bound (sec / 60) 60 ltac:(lia)) as B2.
    assert (Hh : 0 <= sec / 60 / 60) by (apply Z.div_pos; lia).
    repeat (split; [lia|]).
    unfold formatDuration, JS.floorDiv, JS.rem. fold sec. cbv zeta.
    rewrite !Z.rem_mod_nonneg by lia.
    destruct (Z.gtb_spec (sec / 60 / 60) 0) as [Hp|Hz]; [reflexivity|].
    assert (E2 : (sec / 60) mod 60 = sec / 60) by lia. rewrite E2.
    destruct (Z.gtb_spec (sec / 60) 0) as [Hp2|Hz2]; [reflexivity|].
    assert (E1 : sec mod 60 = sec) by lia. now rewrite E1.
  - intros ms Hms. unfold formatDuration, JS.floorDiv. cbv zeta.
    assert (ms / 1000 < 0) by (apply Z.div_lt_upper_bound; lia).
    assert (ms / 1000 / 60 < 0) by (apply Z.div_lt_upper_bound; lia).
    assert (ms / 1000 / 60 / 60 < 0) by (apply Z.div_lt_upper_bound; lia).
    destruct (Z.gtb_spec (ms / 1000 / 60 / 60) 0); [lia|].
    destruct (Z.gtb_spec (ms / 1000 / 60) 0); [lia|]. reflexivity.
Qed.

Example formatDuration_samples :
  formatDuration 3725000 = "1h 2m 5s"%string /\
  formatDuration 125999 = "2m 5s"%string /\
  formatDuration 59999 = "59s"%string /\
  formatDuration 0 = "0s"%string.
Proof. repeat split; reflexivity. Qed.

(* ===================================================================== *)
(** ** Properties of [findDronesForSessionKey] *)
(* ===================================================================== *)

Lemma idsFrom_app a n m :
  idsFrom a (n + m) = idsFrom a n ++ idsFrom (a + Z.of_nat n) m.
Proof.
  revert a. induction n as [|n IH]; intros a.
  - cbn. now rewrite Z.add_0_r.
  - cbn [Nat.add idsFrom app]. rewrite IH. do 3 f_equal. lia.
Qed.

Lemma idsFrom_In a n id : In id (idsFrom a n) <-> a <= id < a + Z.of_nat n.
Proof.
  revert a. induction n as [|n IH]; intros a.
  - cbn. lia.
  - cbn [idsFrom In]. rewrite IH. lia.
Qed.

Lemma idsFrom_length a n : List.length (idsFrom a n) = n.
Proof. revert a. induction n; intros; cbn; auto. Qed.

Lemma checksFrom_ids env a n :
  checksFrom env a n = map (checkToken env) (idsFrom a n).
Proof. revert a. induction n as [|n IH]; intros; cbn; [|rewrite IH]; auto. Qed.

Lemma checkToken_fst env : forall l, map fst (map (checkToken env) l) = l.
Proof.
  induction l as [|id l IH]; cbn; [reflexivity|]. rewrite IH. f_equal.
  unfold checkToken. now destruct (sessionKeyResp env id).
Qed.

Lemma found_in_ids env norm l :
  map fst (filter (isSessionOf norm) (map (checkToken env) l)) =
  filter (fun id => isSessionOf norm (checkToken env id)) l.
Proof.
  induction l as [|id l IH]; cbn; [reflexivity|].
  destruct (isSessionOf norm (checkToken env id)) eqn:E; cbn; rewrite IH;
    [|reflexivity].
  f_equal. unfold checkToken. now destruct (sessionKeyResp env id).
Qed.

(** With fuel for every batch the two loops do what one pass over the
    token ids from [start] up to [maxToCheck] does. *)
Lemma scanBatches_one_pass env norm mx fuel :
  forall start acc,
    mx - start <= 50 * Z.of_nat fuel ->
    scanBatches fuel env norm mx start acc =
      (fst acc ++ filter (fun id => isSessionOf norm (checkToken env id))
                         (idsFrom start (Z.to_nat (mx - start))),
       snd acc ++ map ReadSessionKey (idsFrom start (Z.to_nat (mx - start)))).
Proof.
  induction fuel as [|fuel IH]; intros start acc Hfuel.
  - cbn [scanBatches]. replace (Z.to_nat (mx - start)) with 0%nat by lia.
    cbn. rewrite !app_nil_r. now destruct acc.
  - cbn [scanBatches]. destruct (Z.ltb_spec start mx) as [Hlt|Hge].
    + cbv zeta. unfold BATCH_SIZE. rewrite IH by lia. cbn [fst snd].
      rewrite checksFrom_ids, found_in_ids, map_map. cbn [fst].
      rewrite <- !app_assoc.
      assert (Hmap : forall l,
                 map (fun r => ReadSessionKey (fst (checkToken env r))) l =
                 map ReadSessionKey l).
      { induction l as [|x l IHl]; cbn; [reflexivity|]. rewrite IHl.
        f_equal. unfold checkToken. now destruct (sessionKeyResp env x). }
      rewrite Hmap.
      assert (Hsplit :
        idsFrom start (Z.to_nat (mx - start)) =
        idsFrom start (Z.to_nat (Z.min (start + 50) mx - start)) ++
        idsFrom (start + 50) (Z.to_nat (mx - (start + 50)))).
      { destruct (Z.le_gt_cases (start + 50) mx) as [Hle|Hgt].
        - rewrite Z.min_l by lia.
          replace (Z.to_nat (mx - start))
            with (Z.to_nat (start + 50 - start)
                  + Z.to_nat (mx - (start + 50)))%nat by lia.
          rewrite idsFrom_app. do 2 f_equal. lia.
        - rewrite Z.min_r by lia.
          replace (Z.to_nat (mx - (start + 50))) with 0%nat by lia.
          cbn. now rewrite app_nil_r. }
      rewrite Hsplit, filter_app, map_app. reflexivity.
    + replace (Z.to_nat (mx - start)) with 0%nat by lia.
      cbn. rewrite !app_nil_r. now destruct acc.
Qed.

Lemma maxToCheckOf_bound env : maxToCheckOf env <= 5000.
Proof. unfold maxToCheckOf. cbv zeta. lia. Qed.

Lemma findDronesForSessionKey_one_pass env addr :
  findDronesForSessionKey env addr =
    (filter (fun id => isSessionOf (JS.toLowerCase addr) (checkToken env id))
            (idsFrom 0 (Z.to_nat (maxToCheckOf env))),
     ReadTotalSupply ::
       map ReadSessionKey (idsFrom 0 (Z.to_nat (maxToCheckOf env)))).
Proof.
  unfold findDronesForSessionKey.
  pose proof (maxToCheckOf_bound env).
  rewrite scanBatches_one_pass by (cbn; lia).
  cbn [fst snd app]. now rewrite Z.sub_0_r.
Qed.

Lemma isSessionOf_iff env norm id :
  isSessionOf norm (checkToken env id) = true <->
  exists key,
    sessionKeyResp env id = Return key /\
    key <> ""%string /\ key <> ZERO_ADDRESS /\ JS.toLowerCase key = norm.
Proof.
  unfold isSessionOf, checkToken.
  destruct (sessionKeyResp env id) as [key|t]; cbn [snd].
  - rewrite !andb_true_iff, !negb_true_iff, !String.eqb_neq, String.eqb_eq.
    split.
    + intros ((H1 & H2) & H3). exists key. auto.
    + intros (k & [= <-] & H1 & H2 & H3). auto.
  - split; [discriminate|]. intros (k & [=] & _).
Qed.

Lemma filter_idsFrom_increasing f a n :
  StronglySorted Z.lt (filter f (idsFrom a n)).
Proof.
  revert a. induction n as [|n IH]; intros a; cbn; [constructor|].
  destruct (f a); [|apply IH]. constructor; [apply IH|].
  apply Forall_forall. intros id Hin. apply filter_In in Hin.
  destruct Hin as [Hin _]. apply idsFrom_In in Hin. lia.
Qed.

(** X13. [findDronesForSessionKey] finds exactly the tokens below
    [maxToCheck] (the supply plus ten, 5000 at most; 1010 when the supply
    cannot be read) whose session key could be read, is neither empty nor
    the zero address, and equals the session address up to case. A read
    that fails hides its own token only. The result is in strictly
    increasing order of token id. *)
Theorem findDronesForSessionKey_finds_exactly_the_matches env addr :
  (forall id,
      In id (fst (findDronesForSessionKey env addr)) <->
      0 <= id < maxToCheckOf env /\
      exists key,
        sessionKeyResp env id = Return key /\
        key <> ""%string /\ key <> ZERO_ADDRESS /\
        JS.toLowerCase key = JS.toLowerCase addr) /\
  StronglySorted Z.lt (fst (findDronesForSessionKey env addr)) /\
  (forall n, totalSupplyResp env = Return n ->
             maxToCheckOf env = Z.min (n + 10) 5000) /\
  (forall t, totalSupplyResp env = Throw t -> maxToCheckOf env = 1010).
Proof.
  rewrite findDronesForSessionKey_one_pass. cbn [fst].
  split; [|split; [apply filter_idsFrom_increasing|split]].
  - intros id. rewrite filter_In, idsFrom_In, isSessionOf_iff.
    pose proof (maxToCheckOf_bound env).
    split; intros [Hr Hk]; (split; [lia | exact Hk]).
  - intros n Hn. unfold maxToCheckOf. now rewrite Hn.
  - intros t Ht. unfold maxToCheckOf. now rewrite Ht.
Qed.

(** X14. [findDronesForSessionKey] reads the supply once, first, and then
    the session key of every token from 0 up to [maxToCheck], each once and
    in order, whatever the reads answer: at most 5000 session keys, and
    never that of a token numbered 5000 or more. *)
Theorem findDronesForSessionKey_reads_each_token_once env addr :
  snd (findDronesForSessionKey env addr) =
    ReadTotalSupply ::
      map ReadSessionKey (idsFrom 0 (Z.to_nat (maxToCheckOf env))) /\
  Z.of_nat (List.length (snd (findDronesForSessionKey env addr))) <= 5001 /\
  (forall id,
      In (ReadSessionKey id) (snd (findDronesForSessionKey env addr)) <->
      0 <= id < maxToCheckOf env) /\
  (forall id,
      5000 <= id ->
      ~ In (ReadSessionKey id) (snd (findDronesForSessionKey env addr))) /\
  NoDup (snd (findDronesForSessionKey env addr)).
Proof.
  rewrite findDronesForSessionKey_one_pass. cbn [snd].
  pose proof (maxToCheckOf_bound env) as Hb.
  assert (Hin : forall id,
             In (ReadSessionKey id)
                (ReadTotalSupply ::
                   map ReadSessionKey (idsFrom 0 (Z.to_nat (maxToCheckOf env))))
             <-> 0 <= id < maxToCheckOf env).
  { intros id. cbn [In]. rewrite in_map_iff. split.
    - intros [H|(x & [= ->] & Hx)]; [discriminate|].
      apply idsFrom_In in Hx. lia.
    - intros H. right. exists id. split; [reflexivity|].
      apply idsFrom_In. lia. }
  split; [reflexivity|]. split; [|split; [exact Hin|split]].
  - cbn [List.length]. rewrite length_map, idsFrom_length. lia.
  - intros id Hid H. apply Hin in H. lia.
  - constructor.
    + rewrite in_map_iff. intros (x & [=] & _).
    + apply Injective_map_NoDup; [intros x y [=]; assumption|].
      generalize 0 at 1. generalize (Z.to_nat (maxToCheckOf env)).
      induction n as [|n IH]; intros a; cbn; constructor; [|apply IH].
      rewrite idsFrom_In. lia.
Qed.

(* ===================================================================== *)
(** ** Properties of [validateMiningSetup] *)
(* ===================================================================== *)

(** The end of the validation, from the acquisition of the capability on. *)
Lemma validation_tail e w d s (v : Validation) :
  (cacheHit (clockGet e) 0 (capabilityCache s) \/
   exists fresh, fetchResp e = Return fresh) ->
  exists tr,
    (getCapability e w d 0 ;; clearCapabilityCache ;; ret v) s =
      (Return v, mkState None (ctx s) (trace s ++ tr)) /\
    (countEv isFetch tr <= 1)%nat.
Proof.
  intros Hok. unfold bind at 1.
  destruct (getCapability_cases e w d 0 s)
    as [(entry & Hc & _ & _ & ->) | [(_ & fresh & _ & ->) | (Hn & t & Hf & _)]].
  - exists []. split; [cbn; now rewrite app_nil_r | cbn; lia].
  - eexists. split; [reflexivity | cbn; lia].
  - destruct Hok as [Hhit | (fresh & Hf')]; [contradiction | congruence].
Qed.

Lemma validation_tail_fails e w d s (v : Validation) :
  ~ (cacheHit (clockGet e) 0 (capabilityCache s) \/
     exists fresh, fetchResp e = Return fresh) ->
  exists t,
    fetchResp e = Throw t /\
    (getCapability e w d 0 ;; clearCapabilityCache ;; ret v) s =
      (Throw t,
       mkState (capabilityCache s) (ctx s)
               (trace s ++ [FetchCapability w CAP_MODE_MINE d])).
Proof.
  intros Hno. unfold bind at 1.
  destruct (getCapability_cases e w d 0 s)
    as [(entry & Hc & Hb & Hnow & _) | [(_ & fresh & Hf & _) | (Hn & t & Hf & ->)]].
  - exfalso. apply Hno. left. exists entry. auto.
  - exfalso. apply Hno. right. eauto.
  - exists t. split; [exact Hf | reflexivity].
Qed.

Lemma classic_capability e cache :
  (cacheHit (clockGet e) 0 cache \/ exists fresh, fetchResp e = Return fresh) \/
  ~ (cacheHit (clockGet e) 0 cache \/ exists fresh, fetchResp e = Return fresh).
Proof.
  destruct (isCacheValid_pure (clockGet e) 0 (mkState cache Sample.ctx0 []))
    as [[|] Hv].
  - left. left. now apply isCacheValid_true_iff in Hv.
  - apply isCacheValid_false_iff in Hv. cbn in Hv.
    destruct (fetchResp e) as [fresh|t].
    + left. right. eauto.
    + right. intros [H | (fresh & H)]; [auto | discriminate].
Qed.

Ltac exec_setup :=
  unfold validateMiningSetup, createContractClient, isAuthorizedForDrone,
    getDroneOwner, getJackpotFeePerBlock, answered, bind, ret, tryCatch,
    emit, external, getLicenseStatus, getBalance, getUnprocessedCubeBalance,
    getCubeBalance, clearCapabilityCache, putCache;
  cbn -[getCapability showZ String.append].

Lemma validateMiningSetup_run droneId env s :
  exists v s' tr,
    validateMiningSetup droneId env s = (Return v, s') /\
    ctx s' = ctx s /\
    trace s' = trace s ++ tr /\
    (countEv isFetch tr <= 1)%nat /\
    ((checksPass env (capabilityCache s) /\
      valid v = true /\ vError v = None /\ capabilityCache s' = None /\
      (forall address, clientResp env = Return address ->
                       vClient v = Some address) /\
      (forall status, licenseResp (chain env) = Return status ->
                      vCurrentBattery v = Some (lsCurrentBattery status) /\
                      vMaxBattery v = Some (lsMaxBattery status)) /\
      (forall fee, feeResp env = Return fee -> vFeePerBlock v = Some fee) /\
      (forall t, feeResp env = Throw t -> vFeePerBlock v = Some 0) /\
      (forall balance, balanceResp (chain env) = Return balance ->
                       vBalance v = Some balance) /\
      (forall owner, ownerResp env = Return owner ->
                     vOwnerAddress v = Some owner) /\
      vCubeBalance v <> None /\ vUnprocessedCube v <> None) \/
     (~ checksPass env (capabilityCache s) /\
      valid v = false /\ (exists msg, vError v = Some msg) /\
      capabilityCache s' = capabilityCache s /\
      (countEv isFetch tr = 1%nat ->
       prechecksPass env /\
       exists t, fetchResp (chain env) = Throw t /\
                 vError v = Some (messageOf t)))).
Proof.
  unfold checksPass, prechecksPass.
  destruct (clientResp env) as [address|t0] eqn:Hclient.
  2:{ exec_setup. rewrite Hclient. do 3 eexists.
      split; [reflexivity|]. split; [reflexivity|].
      split; [symmetry; apply app_nil_r|]. split; [cbn; lia|]. right.
      split; [intros ((a & [=]) & _)|]. cbn. repeat split; eauto; congruence. }
  destruct (balanceResp (chain env)) as [balance|t1] eqn:Hbal.
  2:{ exec_setup. rewrite Hclient, Hbal. do 3 eexists.
      split; [reflexivity|]. split; [reflexivity|].
      split; [rewrite <- app_assoc; reflexivity|]. split; [cbn; lia|]. right.
      split; [intros (_ & (b & [=] & _) & _)|].
      cbn. repeat split; eauto; congruence. }
  destruct (Z.eqb_spec balance 0) as [Hzero|Hfunds].
  { exec_setup. rewrite Hclient, Hbal. cbn -[showZ String.append].
    destruct (Z.eqb_spec balance 0); [|contradiction].
    do 3 eexists.
    split; [reflexivity|]. split; [reflexivity|].
    split; [rewrite <- app_assoc; reflexivity|]. split; [cbn; lia|]. right.
    split; [intros (_ & (b & [= <-] & Hb) & _); contradiction|].
    cbn. repeat split; eauto; congruence. }
  destruct (authorizedResp env) as [[|]|t2] eqn:Hauth.
  2:{ exec_setup. rewrite Hclient, Hbal. cbn -[showZ String.append].
      destruct (Z.eqb_spec balance 0); [contradiction|]. rewrite Hauth.
      cbn -[showZ String.append]. do 3 eexists.
      split; [reflexivity|]. split; [reflexivity|].
      split; [rewrite <- app_assoc; reflexivity|]. split; [cbn; lia|]. right.
      split; [intros (_ & _ & [=] & _)|].
      cbn -[showZ String.append]. repeat split; eauto; congruence. }
  2:{ exec_setup. rewrite Hclient, Hbal. cbn -[showZ String.append].
      destruct (Z.eqb_spec balance 0); [contradiction|]. rewrite Hauth.
      cbn -[showZ String.append]. do 3 eexists.
      split; [reflexivity|]. split; [reflexivity|].
      split; [rewrite <- app_assoc; reflexivity|]. split; [cbn; lia|]. right.
      split; [intros (_ & _ & [=] & _)|].
      cbn. repeat split; eauto; congruence. }
  destruct (licenseResp (chain env)) as [status|t3] eqn:Hlic.
  2:{ exec_setup. rewrite Hclient, Hbal. cbn -[showZ String.append].
      destruct (Z.eqb_spec balance 0); [contradiction|]. rewrite Hauth.
      cbn -[showZ String.append]. rewrite Hlic. do 3 eexists.
      split; [reflexivity|]. split; [reflexivity|].
      split; [rewrite <- ?app_assoc; reflexivity|]. split; [cbn; lia|]. right.
      split; [intros (_ & _ & _ & (st & [=] & _) & _)|].
      cbn. repeat split; eauto; congruence. }
  destruct (Z.eqb_spec (lsCurrentBattery status) 0) as [Hflat|Hcharged].
  { exec_setup. rewrite Hclient, Hbal. cbn -[showZ String.append].
    destruct (Z.eqb_spec balance 0); [contradiction|]. rewrite Hauth.
    cbn -[showZ String.append]. rewrite Hlic. cbn -[showZ String.append].
    destruct (Z.eqb_spec (lsCurrentBattery status) 0); [|contradiction].
    do 3 eexists.
    split; [reflexivity|]. split; [reflexivity|].
    split; [rewrite <- ?app_assoc; reflexivity|]. split; [cbn; lia|]. right.
    split; [intros (_ & _ & _ & (st & [= <-] & Hst) & _); contradiction|].
    cbn. repeat split; eauto; congruence. }
  destruct (ownerResp env) as [owner|t4] eqn:Hown.
  2:{ exec_setup. rewrite Hclient, Hbal. cbn -[showZ String.append].
      destruct (Z.eqb_spec balance 0); [contradiction|]. rewrite Hauth.
      cbn -[showZ String.append]. rewrite Hlic. cbn -[showZ String.append].
      destruct (Z.eqb_spec (lsCurrentBattery status) 0); [contradiction|].
      rewrite Hown. do 3 eexists.
      split; [reflexivity|]. split; [reflexivity|].
      split; [rewrite <- ?app_assoc; reflexivity|]. split; [cbn; lia|]. right.
      split; [intros (_ & _ & _ & _ & (o & [=]) & _)|].
      cbn. repeat split; eauto; congruence. }
  (* every check before the capability has passed *)
  set (fee := match feeResp env with Return f => f | Throw _ => 0 end).
  set (cube := match cubeResp (chain env) with Return q => q | Throw _ => 0 end).
  set (unp := match unprocessedResp (chain env) with
              | Return u => u | Throw _ => 0 end).
  set (v := mkValidation true None (Some address) (Some fee) (Some balance)
              (Some cube) (Some unp) (Some owner)
              (Some (lsCurrentBattery status)) (Some (lsMaxBattery status))).
  set (s1 := mkState (capabilityCache s) (ctx s)
               (trace s ++ [Sleep 200; GetBalance; GetLicense droneId;
                            GetCubeBalance owner;
                            GetUnprocessedCubeBalance owner])).
  assert (Hbody :
    validateMiningSetup droneId env s =
      tryCatch
        (getCapability (chain env) address droneId 0 ;;
         clearCapabilityCache ;; ret v)
        (fun error => ret (invalid (messageOf error))) s1).
  { subst v s1 fee cube unp. exec_setup.
    rewrite Hclient, Hbal. cbn -[getCapability showZ String.append].
    destruct (Z.eqb_spec balance 0); [contradiction|]. rewrite Hauth.
    cbn -[getCapability showZ String.append]. rewrite Hlic.
    cbn -[getCapability showZ String.append].
    destruct (Z.eqb_spec (lsCurrentBattery status) 0); [contradiction|].
    rewrite Hown. cbn -[getCapability showZ String.append].
    rewrite <- ?app_assoc. cbn -[getCapability showZ String.append].
    destruct (cubeResp (chain env)), (unprocessedResp (chain env)),
      (feeResp env); cbn -[getCapability showZ String.append];
      rewrite <- ?app_assoc; reflexivity. }
  rewrite Hbody.
  destruct (classic_capability (chain env) (capabilityCache s)) as [Hok|Hno].
  - destruct (validation_tail (chain env) address droneId s1 v Hok)
      as (tr & Hrun & Hcount).
    unfold tryCatch. rewrite Hrun. do 3 eexists.
    split; [reflexivity|]. split; [reflexivity|].
    split; [subst s1; cbn [trace]; rewrite <- app_assoc; reflexivity|].
    split; [rewrite countEv_app; cbn; lia|]. left.
    split; [repeat split; eauto|]. subst v fee. cbn.
    repeat split; intros; try congruence;
      match goal with H : feeResp env = _ |- _ => now rewrite H end.
  - destruct (validation_tail_fails (chain env) address droneId s1 v Hno)
      as (t & Hf & Hrun).
    unfold tryCatch. rewrite Hrun. do 3 eexists.
    split; [reflexivity|]. split; [reflexivity|].
    split; [subst s1; cbn [trace]; rewrite <- app_assoc; reflexivity|].
    split; [rewrite countEv_app; cbn; lia|]. right.
    split; [intros (_ & _ & _ & _ & _ & H); contradiction|].
    cbn. repeat split; eauto.
Qed.

(** X15. [validateMiningSetup] never throws and leaves the context alone.
    Its result is valid exactly when the client could be built, the balance
    was read and is not 0, the wallet is authorized for the drone, the
    license was read with a battery that is not 0, the owner was read, and
    a capability was at hand (cached and valid for cost 0, or fetched).
    A valid result carries no error, the address, the battery and the fee
    (0 when the fee cannot be read), and leaves the capability cache empty;
    an invalid one carries an error text and leaves the cache as it was. *)
Theorem validateMiningSetup_valid_iff_checks_pass droneId env s :
  exists v s',
    validateMiningSetup droneId env s = (Return v, s') /\
    ctx s' = ctx s /\
    (valid v = true <-> checksPass env (capabilityCache s)) /\
    (valid v = true ->
     vError v = None /\ capabilityCache s' = None /\
     (forall address, clientResp env = Return address ->
                      vClient v = Some address) /\
     (forall status, licenseResp (chain env) = Return status ->
                     vCurrentBattery v = Some (lsCurrentBattery status) /\
                     vMaxBattery v = Some (lsMaxBattery status)) /\
     (forall fee, feeResp env = Return fee -> vFeePerBlock v = Some fee) /\
     (forall t, feeResp env = Throw t -> vFeePerBlock v = Some 0)) /\
    (valid v = false ->
     (exists msg, vError v = Some msg) /\
     capabilityCache s' = capabilityCache s).
Proof.
  destruct (validateMiningSetup_run droneId env s)
    as (v & s' & tr & Hrun & Hctx & _ & _ &
        [(Hpass & Hv & Herr & Hcache & Hclient & Hlic & Hfee & Hnofee & _)
        | (Hno & Hv & Herr & Hcache & _)]);
    exists v, s'; (split; [exact Hrun|]); (split; [exact Hctx|]).
  - split; [tauto|]. split; [auto 10|]. rewrite Hv. discriminate.
  - split; [rewrite Hv; split; [discriminate | contradiction]|].
    split; [rewrite Hv; discriminate | auto].
Qed.

(** X16. The validation asks the capability endpoint at most once, and
    only after the client was built, the balance was found not to be 0,
    the wallet was found authorized, the battery was found not to be 0 and
    the owner was read: a wallet that fails one of these never reaches the
    endpoint. *)
Theorem validateMiningSetup_fetches_only_after_the_checks droneId env s :
  exists tr,
    trace (snd (validateMiningSetup droneId env s)) = trace s ++ tr /\
    (countEv isFetch tr = 0%nat \/ countEv isFetch tr = 1%nat) /\
    (countEv isFetch tr = 1%nat -> prechecksPass env) /\
    (~ prechecksPass env -> countEv isFetch tr = 0%nat).
Proof.
  destruct (validateMiningSetup_run droneId env s)
    as (v & s' & tr & Hrun & _ & Htr & Hcount &
        [(Hpass & _) | (_ & _ & _ & _ & Hpre)]);
    exists tr; rewrite Hrun; cbn [snd]; (split; [exact Htr|]);
    (split; [lia|]).
  - assert (prechecksPass env)
      by (unfold checksPass in Hpass; unfold prechecksPass; tauto).
    split; [auto | contradiction].
  - split; [intros H; now apply Hpre|].
    intros Hn. destruct (Nat.eq_dec (countEv isFetch tr) 1) as [E|E]; [|lia].
    exfalso. apply Hn. now apply Hpre.
Qed.

(** X18. [startCommand] goes on after the validation exactly when the
    checks of the validation passed and the owner that was read is not the
    empty string: beside [valid], its test of the other fields can only
    fail on an empty owner address. When it goes on, the two battery fields
    that it passes on unchecked are present, and the battery is not 0. *)
Theorem startCommand_goes_on_iff_validation_passed droneId env s :
  exists v s',
    validateMiningSetup droneId env s = (Return v, s') /\
    (startAccepts v = true <->
     checksPass env (capabilityCache s) /\ ownerResp env <> Return ""%string) /\
    (startAccepts v = true ->
     exists battery maxBattery,
       vCurrentBattery v = Some battery /\ vMaxBattery v = Some maxBattery /\
       battery <> 0).
Proof.
  destruct (validateMiningSetup_run droneId env s)
    as (v & s' & tr & Hrun & _ & _ & _ &
        [(Hpass & Hv & _ & _ & Hclient & Hlic & Hfee & Hnofee & Hbal & Hown &
          Hcube & Hunp)
        | (Hno & Hv & _)]);
    exists v, s'; (split; [exact Hrun|]).
  - pose proof Hpass as ((address & Ha) & (balance & Hb & _) & _ &
                         (status & Hst & Hbattery) & (owner & Ho) & _).
    assert (Hacc : startAccepts v = negb (owner =? "")%string).
    { unfold startAccepts.
      rewrite Hv, (Hclient _ Ha), (Hbal _ Hb), (Hown _ Ho).
      destruct (vCubeBalance v); [|contradiction].
      destruct (vUnprocessedCube v); [|contradiction].
      destruct (feeResp env) as [fee|t] eqn:Hf;
        [rewrite (Hfee _ eq_refl) | rewrite (Hnofee _ eq_refl)]; reflexivity. }
    rewrite Hacc, Ho. split.
    + split.
      * intros H. split; [exact Hpass|]. intros [= E]. subst owner.
        discriminate H.
      * intros (_ & H).
        destruct (String.eqb_spec owner ""); [subst; contradiction | reflexivity].
    + intros _. destruct (Hlic _ Hst) as (Hc & Hm). eauto.
  - assert (Hacc : startAccepts v = false)
      by (unfold startAccepts; now rewrite Hv).
    rewrite Hacc. split; [|discriminate].
    split; [discriminate | intros (H & _); contradiction].
Qed.

(** X17. When the checks of the validation pass, the validation leaves the
    capability cache empty, and the first iteration of the loop that
    follows, on whatever context, fetches a capability exactly once: the
    capability the validation used is not kept for mining. *)
Theorem first_iteration_after_validation_fetches droneId env s :
  checksPass env (capabilityCache s) ->
  capabilityCache (snd (validateMiningSetup droneId env s)) = None /\
  forall c e, exists tr,
    trace (snd (mineOnce e
                  (mkState
                     (capabilityCache (snd (validateMiningSetup droneId env s)))
                     c (trace (snd (validateMiningSetup droneId env s)))))) =
      trace (snd (validateMiningSetup droneId env s)) ++ tr /\
    countEv isFetch tr = 1%nat.
Proof.
  intros Hpass.
  destruct (validateMiningSetup_run droneId env s)
    as (v & s' & tr & Hrun & _ & _ & _ &
        [(_ & _ & _ & Hcache & _) | (Hno & _)]); [|contradiction].
  rewrite Hrun. cbn [snd]. split; [exact Hcache|]. intros c e.
  apply (mineOnce_fetches_on_empty_cache e
           (mkState (capabilityCache s') c (trace s'))).
  exact Hcache.
Qed.

Lemma first_iteration_after_validation_fetches_witness :
  capabilityCache (snd (validateMiningSetup 42 setupOk Sample.warm)) = None.
Proof.
  apply (first_iteration_after_validation_fetches 42 setupOk Sample.warm).
  unfold checksPass. cbn.
  split; [now exists "0xabc"|].
  split; [exists 5; split; [reflexivity | lia]|].
  split; [reflexivity|].
  split; [exists (mkLicense 1 1 100 80 0); split; [reflexivity | cbn; lia]|].
  split; [now exists "0xowner"|].
  right. now exists Sample.cap1.
Defined.

(* ===================================================================== *)
(** ** Properties of [fetchNetworkConfig] *)
(* ===================================================================== *)

Lemma orDefault_truthy o :
  Network.truthyString o = true -> JS.orDefault o "" <> ""%string.
Proof.
  destruct o as [[|c s]|]; cbn; intros H; congruence.
Qed.

(** What a call of [fetchNetworkConfig] on an empty cache does. *)
Lemma fetchNetworkConfig_miss resp st :
  Network.cachedConfig st = None ->
  (exists config,
      Network.fetchNetworkConfig resp st =
        (Return config,
         Network.mkNetState (Some config) (S (Network.requests st))) /\
      Network.complete config) \/
  (exists t,
      Network.fetchNetworkConfig resp st =
        (Throw t, Network.mkNetState None (S (Network.requests st)))).
Proof.
  intros Hnone. unfold Network.fetchNetworkConfig. rewrite Hnone.
  destruct resp as [response|t]; [|right; eauto].
  destruct (Network.ok response); cbn [negb]; [|right; eauto].
  destruct (Network.json response) as [[data|]|t]; [|right; eauto..].
  destruct (Network.rawNetwork data) as [network|]; [|right; eauto].
  destruct (Network.truthyString (Network.rawRpcUrl network)) eqn:Hrpc;
    cbn [negb orb]; [|right; eauto].
  destruct (Network.truthyNumber (Network.rawChainId network)) eqn:Hchain;
    cbn [negb]; [|right; eauto].
  destruct (Network.rawContracts data) as [contracts|]; [|right; eauto].
  destruct (Network.truthyString
              (Network.addressOf (Network.rawMegaCubeV5 contracts))) eqn:Hcube;
    cbn [negb]; [|right; eauto].
  destruct (Network.truthyString
              (Network.addressOf (Network.rawOperatorLicense contracts)))
    eqn:Hlic; cbn [negb]; [|right; eauto].
  left. eexists. split; [reflexivity|].
  unfold Network.complete. cbn.
  repeat split; try (now apply orDefault_truthy).
  destruct (Network.rawChainId network) as [z|]; [|discriminate].
  cbn in Hchain. destruct (Z.eqb_spec z 0); [discriminate | assumption].
Qed.

(** X19. Every configuration that [fetchNetworkConfig] returns has an RPC
    URL, a chain id that is not 0, the addresses of MegaCubeV5 and of
    OperatorLicense, and the built-in endpoints, whatever the server sent;
    and the cache only ever holds such a configuration. A call that throws
    found the cache empty, sent one request and left the cache empty. *)
Theorem fetchNetworkConfig_returns_complete_configs resp st :
  Network.cacheComplete st ->
  Network.cacheComplete (snd (Network.fetchNetworkConfig resp st)) /\
  (forall config,
      fst (Network.fetchNetworkConfig resp st) = Return config ->
      Network.complete config /\
      Network.cachedConfig (snd (Network.fetchNetworkConfig resp st)) =
        Some config) /\
  (forall t,
      fst (Network.fetchNetworkConfig resp st) = Throw t ->
      Network.cachedConfig st = None /\
      snd (Network.fetchNetworkConfig resp st) =
        Network.mkNetState None (S (Network.requests st))).
Proof.
  intros Hinv. destruct (Network.cachedConfig st) as [cached|] eqn:Hc.
  - assert (Hrun : Network.fetchNetworkConfig resp st = (Return cached, st))
      by (unfold Network.fetchNetworkConfig; now rewrite Hc).
    rewrite Hrun. cbn [fst snd]. split; [exact Hinv|]. split.
    + intros config [= <-]. split; [now apply Hinv | exact Hc].
    + intros t [=].
  - destruct (fetchNetworkConfig_miss resp st Hc)
      as [(config & -> & Hcomplete) | (t & ->)]; cbn [fst snd].
    + split; [intros c [= <-]; exact Hcomplete|]. split.
      * intros c [= <-]. split; [exact Hcomplete | reflexivity].
      * intros t [=].
    + split; [intros c [=]|]. split; [intros c [=]|]. intros t' _.
      split; reflexivity.
Qed.

Lemma fetchNetworkConfig_returns_complete_configs_witness :
  Network.cacheComplete
    (snd (Network.fetchNetworkConfig (Return Network.goodResponse)
            (Network.mkNetState None 0))).
Proof.
  apply (fetchNetworkConfig_returns_complete_configs
           (Return Network.goodResponse) (Network.mkNetState None 0)).
  intros config [=].
Defined.

(** X20. A configuration is fetched once: after a call that returned one,
    every further call returns the same configuration without a request,
    whatever the server would answer, until [clearNetworkConfigCache],
    after which the next call sends a request again. A failure is not
    remembered: the call after one that threw sends a request again. *)
Theorem fetchNetworkConfig_fetches_once resp st :
  (forall config st1,
      Network.fetchNetworkConfig resp st = (Return config, st1) ->
      (forall again,
          Network.fetchNetworkConfig again st1 = (Return config, st1)) /\
      (forall again,
          Network.requests
            (snd (Network.fetchNetworkConfig again
                    (Network.clearNetworkConfigCache st1))) =
            S (Network.requests st1))) /\
  (forall t st1,
      Network.fetchNetworkConfig resp st = (Throw t, st1) ->
      forall again,
        Network.requests (snd (Network.fetchNetworkConfig again st1)) =
          S (S (Network.requests st))).
Proof.
  assert (Hmiss : forall again st0,
             Network.cachedConfig st0 = None ->
             Network.requests (snd (Network.fetchNetworkConfig again st0)) =
               S (Network.requests st0)).
  { intros again st0 H0.
    destruct (fetchNetworkConfig_miss again st0 H0)
      as [(c & -> & _) | (t & ->)]; reflexivity. }
  split.
  - intros config st1 Hrun.
    assert (Hcached : Network.cachedConfig st1 = Some config).
    { destruct (Network.cachedConfig st) as [cached|] eqn:Hc.
      - unfold Network.fetchNetworkConfig in Hrun. rewrite Hc in Hrun.
        injection Hrun as <- <-. exact Hc.
      - destruct (fetchNetworkConfig_miss resp st Hc)
          as [(c & Hc' & _) | (t & Ht)]; rewrite Hrun in *;
          [|discriminate].
        injection Hc' as E1 E2. subst. reflexivity. }
    split.
    + intros again. unfold Network.fetchNetworkConfig. now rewrite Hcached.
    + intros again. rewrite Hmiss; reflexivity.
  - intros t st1 Hrun again.
    destruct (Network.cachedConfig st) as [cached|] eqn:Hc.
    + unfold Network.fetchNetworkConfig in Hrun. rewrite Hc in Hrun.
      discriminate.
    + destruct (fetchNetworkConfig_miss resp st Hc)
        as [(c & Hc' & _) | (t' & Ht)]; rewrite Hrun in *;
        [discriminate|].
      injection Ht as E1 E2. subst. now rewrite Hmiss.
Qed.

(* ===================================================================== *)
(** ** Properties of [stopCommand] *)
(* ===================================================================== *)

(** The while loop: with as much fuel as waits are left it ends by its own
    test, after [k] rounds; it found the process at every look of a round,
    and ended on a look that found the process gone or after the fiftieth
    wait. *)
Lemma waitLoop_spec fuel env pid :
  forall probes attempts,
    0 <= attempts -> Z.of_nat fuel = 50 - attempts ->
    exists k,
      (k <= fuel)%nat /\
      Stop.waitLoop fuel env pid probes attempts =
        (Stop.waits pid k ++ [Stop.Probe pid], S (probes + k)) /\
      (forall i, (i < k)%nat -> Stop.running env (probes + i) = true) /\
      (Stop.running env (probes + k) = false \/ k = fuel).
Proof.
  induction fuel as [|fuel IH]; intros probes attempts Hpos Hfuel.
  - exists 0%nat. cbn [Stop.waitLoop].
    replace (attempts <? 50) with false by (symmetry; apply Z.ltb_ge; lia).
    rewrite andb_false_r, Nat.add_0_r.
    split; [lia|]. split; [reflexivity|]. split; [intros i Hi; lia | now right].
  - cbn [Stop.waitLoop].
    replace (attempts <? 50) with true by (symmetry; apply Z.ltb_lt; lia).
    rewrite andb_true_r.
    destruct (Stop.running env probes) eqn:Hrun.
    + destruct (IH (S probes) (attempts + 1)) as (k & Hk & -> & Hall & Hend);
        [lia | lia |].
      exists (S k). split; [lia|]. split.
      { cbn [Stop.waits app]. now rewrite Nat.add_succ_r. }
      split.
      * intros [|i] Hi; [now rewrite Nat.add_0_r|].
        rewrite Nat.add_succ_r. apply (Hall i). lia.
      * rewrite Nat.add_succ_r. destruct Hend as [H | ->]; [now left | now right].
    + exists 0%nat. rewrite Nat.add_0_r.
      split; [lia|]. split; [reflexivity|].
      split; [intros i Hi; lia | now left].
Qed.

(** What the command does to a process that takes the SIGTERM. *)
Lemma stopCommand_run env pid :
  Stop.pidFile env = Some pid -> pid <> 0 ->
  Stop.running env 0 = true -> Stop.sigterm env = None ->
  exists k,
    (k <= 50)%nat /\
    (forall i, (i < k)%nat -> Stop.running env (S i) = true) /\
    (Stop.running env (S k) = false \/ k = 50%nat) /\
    Stop.stopCommand env =
      Stop.Probe pid :: Stop.Signal pid "SIGTERM" ::
      Stop.waits pid k ++ Stop.Probe pid ::
      (if Stop.running env (S (S k)) then Stop.escalation env pid
       else [Stop.Probe pid; Stop.Success "Mining stopped"]).
Proof.
  intros Hpid Hnz Hrun Hterm.
  destruct (waitLoop_spec 50 env pid 1 0) as (k & Hk & Hloop & Hall & Hend);
    [lia | reflexivity |].
  exists k. split; [exact Hk|]. split; [exact Hall|]. split; [exact Hend|].
  unfold Stop.stopCommand. rewrite Hpid.
  destruct (Z.eqb_spec pid 0); [contradiction|].
  rewrite Hrun, Hterm. cbn [negb]. rewrite Hloop.
  cbn [Nat.add]. rewrite <- app_assoc. reflexivity.
Qed.

Lemma count_app f l1 l2 :
  Stop.count f (l1 ++ l2) = (Stop.count f l1 + Stop.count f l2)%nat.
Proof. unfold Stop.count. now rewrite filter_app, length_app. Qed.

Lemma count_waits pid k :
  Stop.count Stop.isSleep (Stop.waits pid k) = k /\
  Stop.count Stop.isSignal (Stop.waits pid k) = 0%nat /\
  Stop.count Stop.isRemove (Stop.waits pid k) = 0%nat.
Proof.
  induction k as [|k (IH1 & IH2 & IH3)]; [now cbn|].
  unfold Stop.count in *. cbn. now rewrite IH1, IH2, IH3.
Qed.

(** X21. [stopCommand] waits at most 50 times (5 seconds) and sends at
    most two signals. It sends none, and does not wait, when there is no
    PID file, when the PID read is 0, or when the first look finds no
    process; and every signal it sends goes to the PID of the file, after a
    look that found the process. *)
Theorem stopCommand_waits_and_signals_within_bounds env :
  (Stop.count Stop.isSleep (Stop.stopCommand env) <= 50)%nat /\
  (Stop.count Stop.isSignal (Stop.stopCommand env) <= 2)%nat /\
  (Stop.pidFile env = None \/ Stop.pidFile env = Some 0 \/
   Stop.running env 0 = false ->
   Stop.count Stop.isSignal (Stop.stopCommand env) = 0%nat /\
   Stop.count Stop.isSleep (Stop.stopCommand env) = 0%nat) /\
  (forall pid name,
      In (Stop.Signal pid name) (Stop.stopCommand env) ->
      Stop.pidFile env = Some pid /\ pid <> 0 /\ Stop.running env 0 = true).
Proof.
  destruct (Stop.pidFile env) as [pid|] eqn:Hpid.
  2:{ unfold Stop.stopCommand. rewrite Hpid. cbn.
      repeat split; try lia; intros; intuition discriminate. }
  destruct (Z.eqb_spec pid 0) as [->|Hnz].
  { unfold Stop.stopCommand. rewrite Hpid. cbn.
    repeat split; try lia; intros; intuition discriminate. }
  destruct (Stop.running env 0) eqn:Hrun.
  2:{ unfold Stop.stopCommand. rewrite Hpid, Hrun.
      destruct (Z.eqb_spec pid 0); [contradiction|]. cbn.
      repeat split; try lia; intros; intuition discriminate. }
  destruct (Stop.sigterm env) as [e|] eqn:Hterm.
  { unfold Stop.stopCommand. rewrite Hpid, Hrun, Hterm.
    destruct (Z.eqb_spec pid 0); [contradiction|].
    destruct e; cbn; repeat split; try lia; intros;
      try (intuition congruence). }
  destruct (stopCommand_run env pid Hpid Hnz Hrun Hterm)
    as (k & Hk & _ & _ & ->).
  destruct (count_waits pid k) as (Hsleep & Hsig & _).
  assert (Hin : forall p name, ~ In (Stop.Signal p name) (Stop.waits pid k)).
  { intros p name. clear. induction k as [|k IH]; cbn; [tauto|].
    intros [H|[H|H]]; [discriminate | discriminate | auto]. }
  change (Stop.Probe pid :: Stop.Signal pid "SIGTERM" ::
          Stop.waits pid k ++ ?l)
    with ([Stop.Probe pid; Stop.Signal pid "SIGTERM"] ++
          Stop.waits pid k ++ l).
  rewrite !count_app, Hsleep, Hsig.
  split; [|split; [|split]].
  - destruct (Stop.running env (S (S k))); unfold Stop.escalation;
      destruct (Stop.sigkill env) as [[|]|]; cbn; lia.
  - destruct (Stop.running env (S (S k))); unfold Stop.escalation;
      destruct (Stop.sigkill env) as [[|]|]; cbn; lia.
  - intros [H|[H|H]]; congruence.
  - intros p name H. rewrite !in_app_iff in H.
    assert (p = pid); [|subst p; auto].
    destruct H as [[H|[H|[]]] | [H | H]];
      [discriminate | congruence | now apply Hin in H |].
    destruct (Stop.running env (S (S k))); unfold Stop.escalation in H;
      destruct (Stop.sigkill env) as [[|]|]; cbn in H;
      repeat (destruct H as [H|H]; [congruence || discriminate|]);
      try contradiction; congruence.
Qed.

(** X22. For a process that, once seen stopped, is not seen running again:
    after a SIGTERM that was delivered, the command sends SIGKILL exactly
    when the process is still found at the look after the fiftieth wait,
    and then it has waited all 50 times; a process that stops earlier gets
    no SIGKILL, and the command does not remove the PID file. *)
Theorem stopCommand_escalates_after_fifty_waits env pid :
  Stop.staysStopped env ->
  Stop.pidFile env = Some pid -> pid <> 0 ->
  Stop.running env 0 = true -> Stop.sigterm env = None ->
  (Stop.running env 52 = true ->
   Stop.stopCommand env =
     Stop.Probe pid :: Stop.Signal pid "SIGTERM" ::
     Stop.waits pid 50 ++ Stop.Probe pid :: Stop.escalation env pid) /\
  (Stop.running env 52 = false ->
   exists k,
     (k <= 50)%nat /\
     Stop.stopCommand env =
       Stop.Probe pid :: Stop.Signal pid "SIGTERM" ::
       Stop.waits pid k ++
       [Stop.Probe pid; Stop.Probe pid; Stop.Success "Mining stopped"] /\
     Stop.count Stop.isSignal (Stop.stopCommand env) = 1%nat /\
     Stop.count Stop.isRemove (Stop.stopCommand env) = 0%nat).
Proof.
  intros Hstay Hpid Hnz Hrun Hterm.
  destruct (stopCommand_run env pid Hpid Hnz Hrun Hterm)
    as (k & Hk & Hall & Hend & Heq).
  split.
  - intros H52.
    assert (k = 50%nat) as ->.
    { destruct Hend as [Hgone|]; [|assumption].
      rewrite (Hstay (S k) 52%nat) in H52; [discriminate | lia | exact Hgone]. }
    rewrite H52 in Heq. exact Heq.
  - intros H52.
    assert (Hlast : Stop.running env (S (S k)) = false).
    { destruct Hend as [Hgone | ->]; [|exact H52].
      apply (Hstay (S k)); [lia | exact Hgone]. }
    rewrite Hlast in Heq. exists k. split; [exact Hk|].
    split; [exact Heq|]. rewrite Heq.
    destruct (count_waits pid k) as (_ & Hsig & Hrem).
    change (Stop.Probe pid :: Stop.Signal pid "SIGTERM" ::
            Stop.waits pid k ++ ?l)
      with ([Stop.Probe pid; Stop.Signal pid "SIGTERM"] ++
            Stop.waits pid k ++ l).
    rewrite !count_app, Hsig, Hrem. split; reflexivity.
Qed.

Lemma stopCommand_escalates_after_fifty_waits_witness :
  Stop.stopCommand Stop.stubborn =
    Stop.Probe 4242 :: Stop.Signal 4242 "SIGTERM" ::
    Stop.waits 4242 50 ++ Stop.Probe 4242 ::
    Stop.escalation Stop.stubborn 4242.
Proof.
  apply (stopCommand_escalates_after_fifty_waits Stop.stubborn 4242).
  - intros i j _ H. discriminate H.
  - reflexivity.
  - lia.
  - reflexivity.
  - reflexivity.
  - reflexivity.
Defined.

(** X23. The PID file is removed at most once, and exactly in these cases:
    the file named a process that the first look did not find; a signal
    was refused with ESRCH; or SIGKILL was sent and not refused. In
    particular the file stays when SIGTERM was delivered and no SIGKILL
    followed. *)
Theorem stopCommand_removes_the_pid_file_iff env :
  (Stop.count Stop.isRemove (Stop.stopCommand env) <= 1)%nat /\
  (Stop.count Stop.isRemove (Stop.stopCommand env) = 1%nat <->
   exists pid,
     Stop.pidFile env = Some pid /\ pid <> 0 /\
     (Stop.running env 0 = false \/
      (Stop.running env 0 = true /\ Stop.sigterm env = Some Stop.ESRCH) \/
      (Stop.running env 0 = true /\ Stop.sigterm env = None /\
       Stop.count Stop.isSignal (Stop.stopCommand env) = 2%nat /\
       forall rendering,
         Stop.sigkill env <> Some (Stop.OtherError rendering)))).
Proof.
  destruct (Stop.pidFile env) as [pid|] eqn:Hpid.
  2:{ unfold Stop.stopCommand. rewrite Hpid. cbn. split; [lia|].
      split; [discriminate | intros (p & [=] & _)]. }
  destruct (Z.eqb_spec pid 0) as [->|Hnz].
  { unfold Stop.stopCommand. rewrite Hpid. cbn. split; [lia|].
    split; [discriminate | intros (p & [= <-] & H & _); contradiction]. }
  destruct (Stop.running env 0) eqn:Hrun.
  2:{ unfold Stop.stopCommand. rewrite Hpid, Hrun.
      destruct (Z.eqb_spec pid 0); [contradiction|]. cbn. split; [lia|].
      split; [intros _; exists pid; auto 10 | reflexivity]. }
  destruct (Stop.sigterm env) as [e|] eqn:Hterm.
  { unfold Stop.stopCommand. rewrite Hpid, Hrun, Hterm.
    destruct (Z.eqb_spec pid 0); [contradiction|].
    destruct e; cbn; (split; [lia|]).
    - split; [intros _; exists pid; auto 10 | reflexivity].
    - split; [discriminate|].
      intros (p & _ & _ & [H | [(_ & H) | (_ & H & _)]]); discriminate. }
  destruct (stopCommand_run env pid Hpid Hnz Hrun Hterm)
    as (k & Hk & _ & _ & ->).
  destruct (count_waits pid k) as (_ & Hsig & Hrem).
  change (Stop.Probe pid :: Stop.Signal pid "SIGTERM" ::
          Stop.waits pid k ++ ?l)
    with ([Stop.Probe pid; Stop.Signal pid "SIGTERM"] ++
          Stop.waits pid k ++ l).
  rewrite !count_app, Hsig, Hrem.
  destruct (Stop.running env (S (S k))); unfold Stop.escalation;
    destruct (Stop.sigkill env) as [[|rendering]|]; cbn; (split; [lia|]);
    split; try discriminate; try reflexivity;
    try (intros _; exists pid; split; [reflexivity|]; split; [exact Hnz|];
         right; right; repeat split; discriminate);
    intros (p & _ & _ & [H | [(_ & H) | (_ & _ & H & Hk')]]);
    try discriminate; exfalso; now apply (Hk' rendering).
Qed.
